(** * xstocks-fun intel microservice: a shallow embedding and its properties

    The development follows [python-yfinance-service/main.py],
    [python-yfinance-service/portfolio_analytics.py] and
    [python-yfinance-service/memory_optimizer.py].

    Conventions of the embedding.
    - Python floats are idealised: the Black-Scholes functions work over the
      real numbers [R], where the overflow of [**] and the underflow to zero
      are kept because they decide whether the code raises (see
      [Module Greeks]); the indicator, portfolio and backtest code work over
      the rationals [Q] (rounding is not modelled).  Where the source relies on
      IEEE special values (division by zero in pandas) they are modelled
      explicitly, see [Module Indicators].  The backtest is written over
      an interface of float operations, see [Module Backtest].
    - A Python exception is a value of [exn]; a computation that may raise
      has type [result A]; [try: ... except: ...] is [try_except]. *)

From Stdlib Require Import ZArith QArith Reals Lra Lia List String Bool Ascii.
From Stdlib Require Import Qround Qabs Qminmax.
From Stdlib Require Lqa.
From stdpp Require Import base option list strings gmap sorting.
Import ListNotations.

(** ** Python exceptions *)

Inductive exn : Type :=
| ZeroDivisionError
| ValueError (msg : string)
| KeyError (key : string)
| IndexError (msg : string)
| OverflowError (msg : string)
| UnboundLocalError (name : string)
| RedisError (msg : string)
| HTTPException (status_code : Z) (detail : string).

Inductive result (A : Type) : Type :=
| Ok (a : A)
| Raise (e : exn).
Arguments Ok {A} a.
Arguments Raise {A} e.

Definition bind {A B : Type} (m : result A) (k : A -> result B) : result B :=
  match m with
  | Ok a => k a
  | Raise e => Raise e
  end.

Notation "x <- m ;; k" := (bind m (fun x => k))
  (at level 100, m at next level, right associativity).

(** [try: body except: return handler] (a bare [except], or
    [except Exception]) *)
Definition try_except {A : Type} (body : result A) (handler : A) : result A :=
  match body with
  | Ok a => Ok a
  | Raise _ => Ok handler
  end.

Definition returns {A : Type} (m : result A) : Prop := exists a, m = Ok a.

(** ** Black-Scholes Greeks (main.py, lines 47-137) *)

Module Greeks.
Local Open Scope R_scope.

(** Python floats are modelled by real numbers.  The arguments are finite
    floats: an infinity or a NaN is not an argument of the model.  Rounding
    to the nearest float is not modelled, except where it decides which path
    the code takes:
    - [x ** 2] raises OverflowError when the square rounds to an infinity,
      that is from 2^1024 - 2^970 on;
    - a product, a quotient or a square whose exact value is at most
      2^-1075, half the least positive float, is the float zero, so that a
      division by it raises ZeroDivisionError and its logarithm raises
      ValueError.
    A product or a quotient that overflows is an infinity in Python, without
    an exception; the model keeps the real number. *)
Definition FLOAT_OVERFLOW : R := IZR (2 ^ 1024 - 2 ^ 970).
Definition FLOAT_UNDERFLOW : R := / IZR (2 ^ 1075).

Definition underflow (x : R) : R :=
  if Rle_dec (Rabs x) FLOAT_UNDERFLOW then 0 else x.

(** [x * y], [x / y] and [x ** 2] on floats *)
Definition py_mul (x y : R) : R := underflow (x * y).

Definition py_div (x y : R) : result R :=
  if Req_dec_T y 0 then Raise ZeroDivisionError else Ok (underflow (x / y)).

Definition py_pow2 (x : R) : result R :=
  if Rle_dec FLOAT_OVERFLOW (x * x)
  then Raise (OverflowError "(34, 'Numerical result out of range')")
  else Ok (underflow (x * x)).

(** Partial functions of the [math] module *)
Definition math_log (x : R) : result R :=
  if Rle_dec x 0 then Raise (ValueError "math domain error") else Ok (ln x).

Definition math_sqrt (x : R) : result R :=
  if Rlt_dec x 0 then Raise (ValueError "math domain error") else Ok (sqrt x).

(** [scipy.stats.norm]: density and distribution function of the standard
    normal law.  The distribution function is written from the origin:
    Phi(x) = 1/2 + (1/sqrt(2 pi)) * integral of exp(-t^2/2) from 0 to x. *)
Definition gauss (t : R) : R := exp (- (t * t) / 2).

Definition norm_pdf (x : R) : R := gauss x / sqrt (2 * PI).

Definition gauss_integrable (a b : R) : Riemann_integrable gauss a b.
Proof.
  assert (Hc : continuity gauss).
  { unfold gauss.
    change (continuity (comp exp (fun t => - (t * t) / 2))).
    apply continuity_comp.
    - apply derivable_continuous. unfold derivable. intros x. reg.
    - apply derivable_continuous, derivable_exp. }
  destruct (Rle_dec a b) as [Hab | Hab].
  - apply continuity_implies_RiemannInt; [exact Hab |].
    intros x _. apply Hc.
  - apply RiemannInt_P1, continuity_implies_RiemannInt; [lra |].
    intros x _. apply Hc.
Qed.

Definition norm_cdf (x : R) : R :=
  1 / 2 + RiemannInt (gauss_integrable 0 x) / sqrt (2 * PI).

(** [calculate_days_to_expiration].  The argument stands for the outcome of
    [(datetime.strptime(expiration_str, '%Y-%m-%d') - datetime.now()).days]:
    [Some days] when the string parses, [None] when [strptime] raises. *)
Definition calculate_days_to_expiration (expiration : option Z) : R :=
  match expiration with
  | Some days => IZR (Z.max 1 days) / 365
  | None => 30 / 365
  end.

Definition r : R := 0.05.

(** [(math.log(S / K) + (r + 0.5 * sigma ** 2) * T) / (sigma * math.sqrt(T))],
    evaluated from left to right *)
Definition d1_of (S K sigma T : R) : result R :=
  q <- py_div S K ;;
  l <- math_log q ;;
  sigma2 <- py_pow2 sigma ;;
  sT <- math_sqrt T ;;
  py_div (l + py_mul (r + py_mul 0.5 sigma2) T) (py_mul sigma sT).

Definition is_call (option_type : string) : bool := String.eqb option_type "call".

Definition delta_default (option_type : string) : R :=
  if is_call option_type then 0.5 else -0.5.

Definition calculate_delta_body (S K sigma : R) (T_str : option Z)
    (option_type : string) : result R :=
  let T := calculate_days_to_expiration T_str in
  if Rle_dec sigma 0 then Ok (delta_default option_type)
  else if Rle_dec T 0 then Ok (delta_default option_type)
  else
    d1 <- d1_of S K sigma T ;;
    let delta := if is_call option_type then norm_cdf d1 else norm_cdf d1 - 1 in
    (* the ATM test of the warning branch; the log line itself is not kept *)
    _ <- py_div (Rabs (S - K)) S ;;
    Ok delta.

Definition calculate_delta (S K sigma : R) (T_str : option Z)
    (option_type : string) : result R :=
  try_except (calculate_delta_body S K sigma T_str option_type)
             (delta_default option_type).

Definition calculate_gamma_body (S K sigma : R) (T_str : option Z) : result R :=
  let T := calculate_days_to_expiration T_str in
  if Rle_dec sigma 0 then Ok 0.001
  else if Rle_dec T 0 then Ok 0.001
  else
    d1 <- d1_of S K sigma T ;;
    sT <- math_sqrt T ;;
    gamma <- py_div (norm_pdf d1) (py_mul (py_mul S sigma) sT) ;;
    (* [max(gamma, 0.0001)] of two numbers *)
    Ok (Rmax gamma 0.0001).

Definition calculate_gamma (S K sigma : R) (T_str : option Z) : result R :=
  try_except (calculate_gamma_body S K sigma T_str) 0.001.

Definition calculate_theta_body (S K sigma : R) (T_str : option Z)
    (option_type : string) : result R :=
  let T := calculate_days_to_expiration T_str in
  if Rle_dec sigma 0 then Ok (-0.05)
  else if Rle_dec T 0 then Ok (-0.05)
  else
    d1 <- d1_of S K sigma T ;;
    sT <- math_sqrt T ;;
    let d2 := d1 - py_mul sigma sT in
    decay <- py_div (py_mul (py_mul (- S) (norm_pdf d1)) sigma) (py_mul 2 sT) ;;
    let carry := py_mul (py_mul r K) (exp (py_mul (- r) T)) in
    let theta :=
      if is_call option_type
      then decay - py_mul carry (norm_cdf d2)
      else decay + py_mul carry (norm_cdf (- d2)) in
    py_div theta 365.

Definition calculate_theta (S K sigma : R) (T_str : option Z)
    (option_type : string) : result R :=
  try_except (calculate_theta_body S K sigma T_str option_type) (-0.05).

Definition calculate_vega_body (S K sigma : R) (T_str : option Z) : result R :=
  let T := calculate_days_to_expiration T_str in
  if Rle_dec sigma 0 then Ok 0.01
  else if Rle_dec T 0 then Ok 0.01
  else
    d1 <- d1_of S K sigma T ;;
    sT <- math_sqrt T ;;
    vega <- py_div (py_mul (py_mul S (norm_pdf d1)) sT) 100 ;;
    (* [max(vega, 0.001)] of two numbers *)
    Ok (Rmax vega 0.001).

Definition calculate_vega (S K sigma : R) (T_str : option Z) : result R :=
  try_except (calculate_vega_body S K sigma T_str) 0.01.

End Greeks.

(** ** Cache layer (main.py, lines 348 and 468-502) *)

(** The JSON-serialisable Python values that are cached.  Dictionaries are
    insertion-ordered and carry string keys; a float is a finite number. *)
Local Unset Elimination Schemes.

Inductive pyval : Type :=
| PyNone
| PyBool (b : bool)
| PyInt (n : Z)
| PyFloat (q : Q)
| PyStr (s : string)
| PyList (items : list pyval)
| PyTuple (items : list pyval)
| PyDict (fields : list (string * pyval)).

(** A JSON document, the content of the text that [json.dumps] writes and
    [json.loads] reads. *)
Inductive json : Type :=
| JNull
| JBool (b : bool)
| JInt (n : Z)
| JReal (q : Q)
| JString (s : string)
| JArray (items : list json)
| JObject (fields : list (string * json)).

Local Set Elimination Schemes.

(** [json.dumps]: lists and tuples are both written as arrays. *)
Fixpoint json_dumps (v : pyval) : json :=
  match v with
  | PyNone => JNull
  | PyBool b => JBool b
  | PyInt n => JInt n
  | PyFloat q => JReal q
  | PyStr s => JString s
  | PyList items => JArray (List.map json_dumps items)
  | PyTuple items => JArray (List.map json_dumps items)
  | PyDict fields =>
      JObject (List.map (fun kv => (fst kv, json_dumps (snd kv))) fields)
  end.

(** [json.loads]: an array is read back as a list. *)
Fixpoint json_loads (j : json) : pyval :=
  match j with
  | JNull => PyNone
  | JBool b => PyBool b
  | JInt n => PyInt n
  | JReal q => PyFloat q
  | JString s => PyStr s
  | JArray items => PyList (List.map json_loads items)
  | JObject fields =>
      PyDict (List.map (fun kv => (fst kv, json_loads (snd kv))) fields)
  end.

(** The value after a JSON round-trip. *)
Definition json_roundtrip (v : pyval) : pyval := json_loads (json_dumps v).

(** Whether a value holds no tuple, at any depth. *)
Fixpoint tuple_free (v : pyval) : bool :=
  match v with
  | PyList items => forallb tuple_free items
  | PyTuple _ => false
  | PyDict fields => forallb (fun kv => tuple_free (snd kv)) fields
  | _ => true
  end.

Module Cache.

(** The Redis server as the client sees it: each key holds a serialised
    document and the time at which it expires ([SETEX]). *)
Abbreviation redis := (gmap string (json * Q)).

(** [redis_client.get(key)].  [up] tells whether this call reaches the
    server; when it does not, the client raises. *)
Definition redis_get (server : redis) (up : bool) (now : Q) (key : string)
  : result (option json) :=
  if up then
    match server !! key with
    | Some (doc, expires_at) =>
        if Qlt_le_dec now expires_at then Ok (Some doc) else Ok None
    | None => Ok None
    end
  else Raise (RedisError "connection refused").

(** [redis_client.setex(key, ttl_seconds, value)]; the server rejects a
    non-positive expire time. *)
Definition redis_setex (server : redis) (up : bool) (now : Q) (key : string)
    (ttl_seconds : Z) (doc : json) : result redis :=
  if up then
    if (0 <? ttl_seconds)%Z
    then Ok (<[key := (doc, now + inject_Z ttl_seconds)%Q]> server)
    else Raise (RedisError "invalid expire time in 'setex' command")
  else Raise (RedisError "connection refused").

(** The two module-level globals: [redis_client] ([None] when Redis was not
    reachable at start-up) and [_memory_cache], key -> (data, expiration). *)
Record state : Type := mkState {
  redis_client : option redis;
  _memory_cache : gmap string (pyval * Q)
}.

(** [get_cache].  [now] is the value of [time.time()]; the result is the
    returned value ([PyNone] for a miss) and the state after the call.  The
    text stored by [set_cache] is never empty, so the test [if cached] is
    the test that the key was found. *)
Definition redis_lookup (key : string) (now : Q) (up : bool) (st : state)
  : option pyval :=
  match redis_client st with
  | Some server =>
      match redis_get server up now key with
      | Ok (Some cached) => Some (json_loads cached)
      | Ok None => None
      | Raise _ => None
      end
  | None => None
  end.

Definition get_cache (key : string) (now : Q) (up : bool) (st : state)
  : pyval * state :=
  match redis_lookup key now up st with
  | Some data => (data, st)
  | None =>
      match _memory_cache st !! key with
      | Some (data, expiration) =>
          if Qlt_le_dec now expiration then (data, st)
          else (PyNone,
                mkState (redis_client st) (delete key (_memory_cache st)))
      | None => (PyNone, st)
      end
  end.

(** Whether a call is served by Redis: a client exists and the call reaches
    the server. *)
Definition redis_path (st : state) (up : bool) : bool :=
  match redis_client st with
  | Some _ => up
  | None => false
  end.

(** [set_cache]; it returns nothing, the result is the state after the
    call. *)
Definition set_cache (key : string) (data : pyval) (ttl_seconds : Z)
    (now : Q) (up : bool) (st : state) : state :=
  let fallback :=
    let expiration := (now + inject_Z ttl_seconds)%Q in
    mkState (redis_client st) (<[key := (data, expiration)]> (_memory_cache st)) in
  match redis_client st with
  | Some server =>
      match redis_setex server up now key ttl_seconds (json_dumps data) with
      | Ok server' => mkState (Some server') (_memory_cache st)
      | Raise _ => fallback
      end
  | None => fallback
  end.

End Cache.

(** ** Technical indicators (main.py, lines 588-616) *)

Module Indicators.

(** A float of a pandas Series: a finite number (exact, rounding is not
    modelled), or one of the IEEE special values.  [Fin q] with [q == 0] is
    the positive zero, [NegZero] the negative one. *)
Inductive fl : Type :=
| Fin (q : Q)
| NegZero
| PInf
| NInf
| NaN.

Definition Qlt_bool (a b : Q) : bool := negb (Qle_bool b a).

Definition fl_isnan (x : fl) : bool :=
  match x with NaN => true | _ => false end.

Definition fl_isinf (x : fl) : bool :=
  match x with PInf | NInf => true | _ => false end.

Definition fl_iszero (x : fl) : bool :=
  match x with Fin q => Qeq_bool q 0 | NegZero => true | _ => false end.

(** the sign bit *)
Definition fl_signbit (x : fl) : bool :=
  match x with
  | Fin q => Qlt_bool q 0
  | NegZero | NInf => true
  | PInf | NaN => false
  end.

Definition signed_zero (negative : bool) : fl := if negative then NegZero else Fin 0.
Definition signed_inf (negative : bool) : fl := if negative then NInf else PInf.

Definition fl_neg (x : fl) : fl :=
  match x with
  | Fin q => if Qeq_bool q 0 then NegZero else Fin (- q)
  | NegZero => Fin 0
  | PInf => NInf
  | NInf => PInf
  | NaN => NaN
  end.

Definition fl_add (x y : fl) : fl :=
  match x, y with
  | NaN, _ | _, NaN => NaN
  | PInf, NInf | NInf, PInf => NaN
  | PInf, _ | _, PInf => PInf
  | NInf, _ | _, NInf => NInf
  | NegZero, NegZero => NegZero
  | NegZero, Fin b => Fin b
  | Fin a, NegZero => Fin a
  | Fin a, Fin b => Fin (a + b)
  end.

Definition fl_sub (x y : fl) : fl := fl_add x (fl_neg y).

(** IEEE division: a zero divisor gives an infinity (NaN for 0/0), no
    exception is raised for a Series. *)
Definition fl_div (x y : fl) : fl :=
  if fl_isnan x || fl_isnan y then NaN
  else
    let negative := xorb (fl_signbit x) (fl_signbit y) in
    if fl_isinf x then (if fl_isinf y then NaN else signed_inf negative)
    else if fl_isinf y then signed_zero negative
    else if fl_iszero y then (if fl_iszero x then NaN else signed_inf negative)
    else
      match x, y with
      | Fin a, Fin b =>
          if Qeq_bool a 0 && negative then NegZero else Fin (a / b)
      | _, _ => signed_zero negative
      end.

(** [x > 0] and [x < 0]; a comparison with NaN is false *)
Definition fl_gt0 (x : fl) : bool :=
  match x with
  | Fin q => Qlt_bool 0 q
  | PInf => true
  | _ => false
  end.

Definition fl_lt0 (x : fl) : bool :=
  match x with
  | Fin q => Qlt_bool q 0
  | NInf => true
  | _ => false
  end.

(** [Series.diff()]: the first entry is NaN *)
Fixpoint diff_from (prev : fl) (xs : list fl) : list fl :=
  match xs with
  | [] => []
  | x :: rest => fl_sub x prev :: diff_from x rest
  end.

Definition diff (xs : list fl) : list fl :=
  match xs with
  | [] => []
  | x :: rest => NaN :: diff_from x rest
  end.

(** [Series.where(cond, other)] *)
Definition where_ (cond : fl -> bool) (other : fl) (xs : list fl) : list fl :=
  List.map (fun x => if cond x then x else other) xs.

Definition fl_sum (xs : list fl) : fl := fold_left fl_add xs (Fin 0).

(** The same accumulation over exact rationals, to state mean values. *)
Definition Qsum (l : list Q) : Q := fold_left Qplus l 0%Q.

Definition fl_mean (xs : list fl) : fl :=
  fl_div (fl_sum xs) (Fin (inject_Z (Z.of_nat (length xs)))).

(** [Series.rolling(window=period).mean()]: NaN until the window is full
    (min_periods defaults to the window), then the mean of the trailing
    [period] entries; a NaN in the window makes the mean NaN. *)
Definition rolling_mean (period : nat) (xs : list fl) : list fl :=
  List.map
    (fun i =>
       if (i + 1 <? period)%nat || (period =? 0)%nat then NaN
       else fl_mean (firstn period (skipn (i + 1 - period) xs)))
    (seq 0 (length xs)).

(** The loop over [series.items()] that keeps the entries that are not NaN;
    a point is (time, value). *)
Definition emit (times : list Z) (values : list fl) : list (Z * fl) :=
  List.filter (fun p => negb (fl_isnan (snd p))) (combine times values).

(** A DataFrame is given by its index (as [int(index.timestamp())]) and its
    'Close' column of finite prices. *)
Definition close_column (data : list (Z * Q)) : list fl :=
  List.map (fun row => Fin (snd row)) data.

Definition calculate_sma (data : list (Z * Q)) (period : nat) : list (Z * fl) :=
  let sma := rolling_mean period (close_column data) in
  emit (List.map fst data) sma.

Definition calculate_rsi (data : list (Z * Q)) (period : nat) : list (Z * fl) :=
  let delta := diff (close_column data) in
  let gain := rolling_mean period (where_ fl_gt0 (Fin 0) delta) in
  let loss := rolling_mean period (List.map fl_neg (where_ fl_lt0 (Fin 0) delta)) in
  let rs := List.map (fun gl => fl_div (fst gl) (snd gl)) (combine gain loss) in
  let rsi :=
    List.map (fun x => fl_sub (Fin 100) (fl_div (Fin 100) (fl_add (Fin 1) x))) rs in
  emit (List.map fst data) rsi.

(** A finite, strictly positive entry. *)
Definition Pos (x : fl) : Prop := exists g, x = Fin g /\ (0 < g)%Q.

(** A zero of either sign, or a finite entry that is not negative. *)
Definition NonNeg (x : fl) : Prop :=
  x = NegZero \/ exists g, x = Fin g /\ (0 <= g)%Q.

(** A strictly increasing series of closes. *)
Fixpoint increasing_from (prev : Q) (xs : list Q) : Prop :=
  match xs with
  | [] => True
  | x :: rest => (prev < x)%Q /\ increasing_from x rest
  end.

Definition strictly_increasing (xs : list Q) : Prop :=
  match xs with
  | [] => True
  | x :: rest => increasing_from x rest
  end.

End Indicators.

(** ** Portfolio analytics (portfolio_analytics.py) *)

Fixpoint map_result {A B : Type} (f : A -> result B) (l : list A)
  : result (list B) :=
  match l with
  | [] => Ok []
  | a :: rest => b <- f a ;; bs <- map_result f rest ;; Ok (b :: bs)
  end.

(** An insertion-ordered [dict] with string keys: [d[k] = v] replaces the
    value of an existing key in place and appends a new key. *)
Fixpoint dict_set {V : Type} (d : list (string * V)) (k : string) (v : V)
  : list (string * V) :=
  match d with
  | [] => [(k, v)]
  | (k', v') :: rest =>
      if String.eqb k' k then (k', v) :: rest else (k', v') :: dict_set rest k v
  end.

Module Portfolio.
Local Open Scope Q_scope.

(** Python's [/] on floats and ints *)
Definition py_truediv (x y : Q) : result Q :=
  if Qeq_bool y 0 then Raise ZeroDivisionError else Ok (x / y).

(** the built-in [sum] *)
Definition py_sum (l : list Q) : Q := fold_left Qplus l 0.

Inductive log_record : Type :=
| Warning (msg : string).

(** [{sym: 1.0 / len(symbols) for sym in symbols}] *)
Fixpoint equal_weights_into (d : list (string * Q)) (count : nat)
    (symbols : list string) : result (list (string * Q)) :=
  match symbols with
  | [] => Ok d
  | sym :: rest =>
      w <- py_truediv 1 (inject_Z (Z.of_nat count)) ;;
      equal_weights_into (dict_set d sym w) count rest
  end.

Definition equal_weights (symbols : list string) : result (list (string * Q)) :=
  equal_weights_into [] (length symbols) symbols.

(** The weight handling of [calculate_portfolio_metrics] (lines 177-185):
    the weights that the rest of the function uses, and the log lines
    written. *)
Definition calculate_portfolio_metrics_weights (symbols : list string)
    (portfolio_weights : option (list (string * Q)))
  : result (list (string * Q) * list log_record) :=
  portfolio_weights <-
    match portfolio_weights with
    | None => equal_weights symbols
    | Some d => Ok d
    end ;;
  let total_weight := py_sum (List.map snd portfolio_weights) in
  if Qlt_le_dec (1 # 100) (Qabs (total_weight - 1)) then
    normalized <-
      map_result (fun kv => v <- py_truediv (snd kv) total_weight ;;
                            Ok (fst kv, v))
                 portfolio_weights ;;
    Ok (normalized, [Warning "Portfolio weights sum to total_weight, normalizing..."])
  else Ok (portfolio_weights, []).

End Portfolio.

Module MonteCarlo.
Local Open Scope Q_scope.

Section Numpy.

(** The numpy reductions whose value plays no role here are parameters:
    [np.mean], [np.median], [np.std] and [np.percentile(a, q)]. *)
Variables np_mean np_median np_std : list Q -> Q.
Variable np_percentile : list Q -> Q -> Q.

(** [np.min] and [np.max] have no identity: they raise on an empty array. *)
Definition np_min (a : list Q) : result Q :=
  match a with
  | [] => Raise (ValueError "zero-size array to reduction operation minimum which has no identity")
  | x :: rest => Ok (fold_left Qmin rest x)
  end.

Definition np_max (a : list Q) : result Q :=
  match a with
  | [] => Raise (ValueError "zero-size array to reduction operation maximum which has no identity")
  | x :: rest => Ok (fold_left Qmax rest x)
  end.

(** [np.argmin(np.abs(a - x))]: the first index at which |a[i] - x| is
    least. *)
Fixpoint argmin_from (best_i : nat) (best : Q) (i : nat) (l : list Q) : nat :=
  match l with
  | [] => best_i
  | v :: rest =>
      if Qle_bool best v then argmin_from best_i best (S i) rest
      else argmin_from i v (S i) rest
  end.

Definition np_argmin_abs_diff (a : list Q) (x : Q) : result nat :=
  match List.map (fun v => Qabs (v - x)) a with
  | [] => Raise (ValueError "attempt to get argmin of an empty sequence")
  | d :: rest => Ok (argmin_from 0 d 1 rest)
  end.

(** [simulation_paths[i]] *)
Definition path_at (simulation_paths : list (list Q)) (i : nat)
  : result (list Q) :=
  match nth_error simulation_paths i with
  | Some path => Ok path
  | None => Raise (IndexError "index out of bounds")
  end.

(** [statistics[key]] *)
Definition getitem (statistics : gmap string Q) (key : string) : result Q :=
  match statistics !! key with
  | Some v => Ok v
  | None => Raise (KeyError key)
  end.

(** [simulation_paths[:, -1]] *)
Definition final_column (simulation_paths : list (list Q)) : list Q :=
  List.map (fun path => List.last path 0) simulation_paths.

Definition build_statistics (final_values : list Q) (initial_capital : Q)
  : result (gmap string Q) :=
  let mean := np_mean final_values in
  let median := np_median final_values in
  let std := np_std final_values in
  min <- np_min final_values ;;
  max <- np_max final_values ;;
  let percentile5 := np_percentile final_values 5 in
  let percentile25 := np_percentile final_values 25 in
  let percentile75 := np_percentile final_values 75 in
  let percentile95 := np_percentile final_values 95 in
  let probPositive :=
    np_mean (List.map (fun v => if Qlt_le_dec initial_capital v then 1 else 0)
                      final_values) in
  Ok (<["probPositive" := probPositive]>
      (<["percentile95" := percentile95]>
      (<["percentile75" := percentile75]>
      (<["percentile25" := percentile25]>
      (<["percentile5" := percentile5]>
      (<["max" := max]>
      (<["min" := min]>
      (<["std" := std]>
      (<["median" := median]>
      (<["mean" := mean]> ∅)))))))))).

Definition percentile_path (simulation_paths : list (list Q))
    (final_values : list Q) (statistics : gmap string Q) (key : string)
  : result (list Q) :=
  target <- getitem statistics key ;;
  i <- np_argmin_abs_diff final_values target ;;
  path_at simulation_paths i.

Record report : Type := mkReport {
  report_statistics : gmap string Q;
  percentilePaths : list (Z * list Q);
  samplePaths : list (list Q);
  initialCapital : Q;
  timeHorizonDays : Z;
  numSimulations : Z
}.

(** [run_monte_carlo] from line 468 on, once the simulation loop has filled
    [simulation_paths]; [sample_indices] is the draw of
    [np.random.choice]. *)
Definition run_monte_carlo_report (simulation_paths : list (list Q))
    (initial_capital : Q) (time_horizon_days num_simulations : Z)
    (sample_indices : list nat) : result report :=
  let final_values := final_column simulation_paths in
  statistics <- build_statistics final_values initial_capital ;;
  let pick := percentile_path simulation_paths final_values statistics in
  p5 <- pick "percentile5" ;;
  p25 <- pick "percentile25" ;;
  p50 <- pick "percentile50" ;;
  p75 <- pick "percentile75" ;;
  p95 <- pick "percentile95" ;;
  let percentile_paths :=
    [(5%Z, p5); (25%Z, p25); (50%Z, p50); (75%Z, p75); (95%Z, p95)] in
  sample_paths <- map_result (path_at simulation_paths) sample_indices ;;
  Ok (mkReport statistics percentile_paths sample_paths initial_capital
               time_horizon_days num_simulations).

End Numpy.

End MonteCarlo.

(** ** Backtesting engine (main.py, lines 2186-2803) *)

Module Backtest.

(** The float arithmetic the handler uses (Python floats and numpy
    float64), as an interface: the backtest is written once over it.
    [f_to_int] is Python's [int(x)], which raises on an infinity
    (OverflowError) and on NaN (ValueError); numpy's division never
    raises. *)
Class FloatOps (F : Type) : Type := {
  f_of_Q : Q -> F;
  f_nan : F;
  f_isnan : F -> bool;
  f_neg : F -> F;
  f_abs : F -> F;
  f_add : F -> F -> F;
  f_sub : F -> F -> F;
  f_mul : F -> F -> F;
  f_div : F -> F -> F;
  f_lt : F -> F -> bool;
  f_le : F -> F -> bool;
  f_eq : F -> F -> bool;
  f_sqrt : F -> F;
  f_to_int : F -> result Z
}.

(** What the handler reads from the clock. *)
Record world : Type := mkWorld {
  today : string;           (* datetime.now().strftime('%Y-%m-%d') *)
  time_ms : Z               (* int(time.time() * 1000) *)
}.

Inductive action : Type := BUY | SELL.

Section Engine.

Context {F : Type} `{FloatOps F}.

Definition f_of_Z (z : Z) : F := f_of_Q (inject_Z z).
Definition f_of_nat (n : nat) : F := f_of_Z (Z.of_nat n).
Definition f_gt (a b : F) : bool := f_lt b a.
Definition f_ge (a b : F) : bool := f_le b a.
Definition f_zero : F := f_of_Q 0.

(** One row of a DataFrame of OHLCV data; the index is the date. *)
Record bar : Type := mkBar {
  bar_date : Z;
  bar_open : F;
  bar_high : F;
  bar_low : F;
  bar_close : F;
  bar_volume : F
}.

(** [date in df.index] *)
Definition in_index (date : Z) (df : list bar) : bool :=
  existsb (fun b => Z.eqb (bar_date b) date) df.

(** [df.loc[date, 'Close']] *)
Definition loc_close (df : list bar) (date : Z) : result F :=
  match List.find (fun b => Z.eqb (bar_date b) date) df with
  | Some b => Ok (bar_close b)
  | None => Raise (KeyError "date")
  end.

(** [df.loc[:date]] on an index in ascending order *)
Definition loc_upto (df : list bar) (date : Z) : list bar :=
  List.filter (fun b => Z.leb (bar_date b) date) df.

(** [.tail(n)] and [.head(n)] *)
Definition tail {A : Type} (n : nat) (l : list A) : list A :=
  skipn (length l - n) l.

Definition head {A : Type} (n : nat) (l : list A) : list A := firstn n l.

(** Reductions of a Series; on an empty Series (for the standard deviation,
    on fewer than two entries) pandas gives NaN. *)
Definition f_sum (xs : list F) : F := fold_left f_add xs f_zero.

Definition series_mean (xs : list F) : F :=
  match xs with
  | [] => f_nan
  | _ => f_div (f_sum xs) (f_of_nat (length xs))
  end.

Definition series_std (xs : list F) : F :=
  if (length xs <? 2)%nat then f_nan
  else
    let m := series_mean xs in
    f_sqrt (f_div (f_sum (List.map (fun x => f_mul (f_sub x m) (f_sub x m)) xs))
                  (f_of_nat (length xs - 1))).

Definition series_max (xs : list F) : F :=
  match xs with
  | [] => f_nan
  | x :: rest => fold_left (fun m y => if f_lt m y then y else m) rest x
  end.

Definition series_min (xs : list F) : F :=
  match xs with
  | [] => f_nan
  | x :: rest => fold_left (fun m y => if f_lt y m then y else m) rest x
  end.

Fixpoint series_diff_from (prev : F) (xs : list F) : list F :=
  match xs with
  | [] => []
  | x :: rest => f_sub x prev :: series_diff_from x rest
  end.

Definition series_diff (xs : list F) : list F :=
  match xs with
  | [] => []
  | x :: rest => f_nan :: series_diff_from x rest
  end.

(** the last entry of [xs.rolling(window=w).mean()] *)
Definition rolling_mean_last (w : nat) (xs : list F) : F :=
  if (length xs <? w)%nat then f_nan else series_mean (tail w xs).

(** Lookup in an insertion-ordered dict. *)
Definition dict_get {V : Type} (d : list (string * V)) (k : string) : option V :=
  match List.find (fun kv => String.eqb (fst kv) k) d with
  | Some kv => Some (snd kv)
  | None => None
  end.

Definition dict_in {V : Type} (d : list (string * V)) (k : string) : bool :=
  match dict_get d k with Some _ => true | None => false end.

(** *** The request and its validation (lines 2191-2268) *)

Record request : Type := mkRequest {
  req_symbols : option (list string);
  req_weights : option (list F);
  req_startDate : option string;
  req_endDate : option string;
  req_initialCapital : option F;
  req_strategy : option string;
  req_benchmarkSymbol : option string;
  (* strategyParams *)
  req_lookbackPeriod : option nat;
  req_entryThreshold : option F;
  req_exitThreshold : option F;
  req_stopLoss : option F;
  req_positionSize : option F
}.

(** What the loop works on once validation has passed. *)
Record prepared : Type := mkPrepared {
  symbols : list string;
  weights : list F;
  start_date : string;
  end_date : string;
  initial_capital : F;
  strategy : string;
  benchmark_symbol : string;
  lookback_period : nat;
  entry_threshold : F;
  exit_threshold : F;
  stop_loss : F;
  position_size : F;
  benchmark_data : option (list bar);
  stock_data : list (string * list bar);
  sorted_dates : list Z
}.

Definition request_symbols (request : request) : list string :=
  default [] (req_symbols request).

Definition request_start_date (request : request) : string :=
  default "2020-01-01" (req_startDate request).

Definition request_end_date (w : world) (request : request) : string :=
  default (today w) (req_endDate request).

(** [if not weights: weights = [1.0 / len(symbols)] * len(symbols)] *)
Definition effective_weights (request : request) : list F :=
  let symbols := request_symbols request in
  match req_weights request with
  | Some (x :: rest) => x :: rest
  | _ => repeat (f_div (f_of_Q 1) (f_of_nat (length symbols))) (length symbols)
  end.

(** The dict of the DataFrames that were fetched and are not empty. *)
Definition collect_stock_data (fetch_full_history : string -> option (list bar))
    (symbols : list string) : list (string * list bar) :=
  fold_left
    (fun stock_data sym =>
       match fetch_full_history sym with
       | Some (b :: rows) => dict_set stock_data sym (b :: rows)
       | _ => stock_data
       end)
    symbols [].

(** The intersection of the indexes; [None] when there is no DataFrame. *)
Definition common_dates_of (frames : list (list bar)) : option (gset Z) :=
  fold_left
    (fun common_dates df =>
       let dates : gset Z := list_to_set (List.map bar_date df) in
       match common_dates with
       | None => Some dates
       | Some s => Some (s ∩ dates)
       end)
    frames None.

(** [provider start end symbol] stands for [fetch_full_history]: the
    symbol mapping and the market-data call, [None] when either fails. *)
Definition backtest_prepare (w : world)
    (provider : string -> string -> string -> option (list bar))
    (request : request) : result prepared :=
  let symbols := request_symbols request in
  let start_date := request_start_date request in
  let end_date := request_end_date w request in
  let benchmark_symbol := default "SPY" (req_benchmarkSymbol request) in
  match symbols with
  | [] => Raise (HTTPException 400 "Symbols list is required")
  | _ :: _ =>
      let weights := effective_weights request in
      if negb (length symbols =? length weights)%nat
      then Raise (HTTPException 400 "Symbols and weights length mismatch")
      else
        let fetch_full_history := provider start_date end_date in
        let benchmark_data := fetch_full_history benchmark_symbol in
        let stock_data := collect_stock_data fetch_full_history symbols in
        match stock_data with
        | [] => Raise (HTTPException 400 "No valid historical data found")
        | _ :: _ =>
            match common_dates_of (List.map snd stock_data) with
            | None =>
                Raise (HTTPException 400 "Insufficient overlapping historical data")
            | Some common_dates =>
                if (size common_dates =? 0)%nat || (size common_dates <? 50)%nat
                then Raise (HTTPException 400 "Insufficient overlapping historical data")
                else
                  Ok (mkPrepared symbols weights start_date end_date
                        (default (f_of_Q 10000) (req_initialCapital request))
                        (default "buy-and-hold" (req_strategy request))
                        benchmark_symbol
                        (default 20%nat (req_lookbackPeriod request))
                        (default (f_of_Q (-2)) (req_entryThreshold request))
                        (default (f_of_Q 0) (req_exitThreshold request))
                        (default (f_of_Q 0.05) (req_stopLoss request))
                        (default (f_of_Q 0.1) (req_positionSize request))
                        benchmark_data stock_data
                        (merge_sort Z.le (elements common_dates)))
            end
        end
  end.

(** *** The strategy loop (lines 2270-2726) *)

Record trade : Type := mkTrade {
  trade_date : Z;
  trade_symbol : string;
  trade_action : action;
  trade_shares : Z;
  trade_price : F;
  trade_total : F;
  trade_extra : list (string * F);   (* z_score, rsi, lower_band, ... *)
  trade_pair : bool                  (* 'pair_trade': True *)
}.

Record loop_state : Type := mkLoop {
  cash : F;
  positions : list (string * Z);
  portfolio_values : list F;
  benchmark_value_series : list F;
  trade_log : list trade
}.

(** [positions[sym]]; every key of [stock_data] is a key of [positions],
    which is initialised from [stock_data.keys()]. *)
Definition held (st : loop_state) (sym : string) : Z :=
  default 0%Z (dict_get (positions st) sym).

(** a [for] loop whose body may raise *)
Fixpoint for_each {A : Type} (l : list A)
    (body : A -> loop_state -> result loop_state) (st : loop_state)
  : result loop_state :=
  match l with
  | [] => Ok st
  | a :: rest => st' <- body a st ;; for_each rest body st'
  end.

(** [positions[sym] = shares; cash -= cost; trade_log.append({... 'BUY'})] *)
Definition buy (date : Z) (sym : string) (shares : Z) (price cost : F)
    (extra : list (string * F)) (pair : bool) (st : loop_state) : loop_state :=
  mkLoop (f_sub (cash st) cost)
         (dict_set (positions st) sym shares)
         (portfolio_values st) (benchmark_value_series st)
         (trade_log st ++ [mkTrade date sym BUY shares price cost extra pair]).

(** [proceeds = positions[sym] * price; trade_log.append({... 'SELL'});
    cash += proceeds; positions[sym] = 0] *)
Definition sell (date : Z) (sym : string) (price : F)
    (extra : list (string * F)) (pair : bool) (st : loop_state) : loop_state :=
  let proceeds := f_mul (f_of_Z (held st sym)) price in
  mkLoop (f_add (cash st) proceeds)
         (dict_set (positions st) sym 0%Z)
         (portfolio_values st) (benchmark_value_series st)
         (trade_log st
            ++ [mkTrade date sym SELL (held st sym) price proceeds extra pair]).

(** [shares = int(amount / price); if shares > 0: cost = shares * price;
    (if cost <= cash:) buy].  Buy-and-hold has no test of the cash. *)
Definition enter (check_cash : bool) (amount : F) (date : Z) (sym : string)
    (price : F) (extra : list (string * F)) (pair : bool) (st : loop_state)
  : result loop_state :=
  shares_to_buy <- f_to_int (f_div amount price) ;;
  if (0 <? shares_to_buy)%Z then
    let cost := f_mul (f_of_Z shares_to_buy) price in
    if negb check_cash || f_le cost (cash st)
    then Ok (buy date sym shares_to_buy price cost extra pair st)
    else Ok st
  else Ok st.

Section Day.

Variable p : prepared.
Variable current_date : Z.
Variable current_prices : list (string * F).

Definition closes_upto (df : list bar) : list F :=
  List.map bar_close (loc_upto df current_date).

(** Strategy 1, on the first day after the warm-up *)
Definition buy_and_hold_day (st : loop_state) : result loop_state :=
  for_each (combine (List.map fst (stock_data p)) (weights p))
    (fun sw st =>
       let sym := fst sw in
       let weight := snd sw in
       match dict_get current_prices sym with
       | Some price =>
           if f_gt price f_zero
           then enter false (f_mul (cash st) weight) current_date sym price [] false st
           else Ok st
       | None => Ok st
       end)
    st.

(** Strategy 2 *)
Definition mean_reversion_day (st : loop_state) : result loop_state :=
  for_each (stock_data p)
    (fun sd st =>
       let sym := fst sd in
       match dict_get current_prices sym with
       | None => Ok st
       | Some price =>
           let hist_slice := tail (lookback_period p) (closes_upto (snd sd)) in
           if (lookback_period p <=? length hist_slice)%nat then
             let mean_price := series_mean hist_slice in
             let std_price := series_std hist_slice in
             if f_gt std_price f_zero then
               let z_score := f_div (f_sub price mean_price) std_price in
               if f_lt z_score (entry_threshold p) && (held st sym =? 0)%Z then
                 enter true (f_mul (cash st) (position_size p)) current_date sym
                       price [("z_score", z_score)] false st
               else if (0 <? held st sym)%Z then
                 if f_gt z_score (exit_threshold p)
                 then Ok (sell current_date sym price [("z_score", z_score)] false st)
                 else Ok st
               else Ok st
             else Ok st
           else Ok st
       end)
    st.

(** [sorted(items, key=score, reverse=True)]: descending, entries of equal
    score in their original order. *)
Fixpoint insert_desc (x : string * F) (l : list (string * F)) : list (string * F) :=
  match l with
  | [] => [x]
  | y :: rest =>
      if f_le (snd x) (snd y) then y :: insert_desc x rest else x :: y :: rest
  end.

Definition sorted_desc (items : list (string * F)) : list (string * F) :=
  fold_left (fun acc x => insert_desc x acc) items [].

(** Strategy 3 *)
Definition momentum_scores_of : list (string * F) :=
  fold_left
    (fun scores sd =>
       let hist_slice := tail (lookback_period p + 1) (closes_upto (snd sd)) in
       if (lookback_period p + 1 <=? length hist_slice)%nat then
         match hist_slice with
         | first :: _ =>
             let returns := f_div (f_sub (List.last hist_slice f_nan) first) first in
             dict_set scores (fst sd) returns
         | [] => scores
         end
       else scores)
    (stock_data p) [].

Definition momentum_day (st : loop_state) : result loop_state :=
  let momentum_scores := momentum_scores_of in
  match momentum_scores with
  | [] => Ok st
  | _ :: _ =>
      let sorted_momentum := sorted_desc momentum_scores in
      n <- f_to_int (f_mul (f_of_nat (length sorted_momentum)) (position_size p)) ;;
      let num_positions := Z.max 1 n in
      let top_performers :=
        List.map fst (firstn (Z.to_nat num_positions) sorted_momentum) in
      st <- for_each (List.map fst (positions st))
              (fun sym st =>
                 if (0 <? held st sym)%Z
                    && negb (existsb (String.eqb sym) top_performers)
                 then
                   match dict_get current_prices sym with
                   | Some price => Ok (sell current_date sym price [] false st)
                   | None => Ok st
                   end
                 else Ok st)
              st ;;
      for_each top_performers
        (fun sym st =>
           match dict_get current_prices sym with
           | Some price =>
               if (held st sym =? 0)%Z then
                 enter true (f_div (cash st) (f_of_Z num_positions)) current_date
                       sym price
                       [("momentum", default f_nan (dict_get momentum_scores sym))]
                       false st
               else Ok st
           | None => Ok st
           end)
        st
  end.

(** Strategy 4.  The two Series have [lookback_period + 1] entries, so the
    tests [len(gain) > 0] and [len(loss) > 0] hold. *)
Definition rsi_day (st : loop_state) : result loop_state :=
  for_each (stock_data p)
    (fun sd st =>
       let sym := fst sd in
       match dict_get current_prices sym with
       | None => Ok st
       | Some price =>
           let hist_slice := tail (lookback_period p + 1) (closes_upto (snd sd)) in
           if (lookback_period p + 1 <=? length hist_slice)%nat then
             let delta := series_diff hist_slice in
             let gain_last :=
               rolling_mean_last 14
                 (List.map (fun d => if f_gt d f_zero then d else f_zero) delta) in
             let loss_last :=
               f_neg (rolling_mean_last 14
                 (List.map (fun d => if f_lt d f_zero then d else f_zero) delta)) in
             if negb (f_eq loss_last f_zero) then
               let rs := f_div gain_last loss_last in
               let rsi := f_sub (f_of_Q 100)
                                (f_div (f_of_Q 100) (f_add (f_of_Q 1) rs)) in
               if f_lt rsi (f_of_Q 30) && (held st sym =? 0)%Z then
                 enter true (f_mul (cash st) (position_size p)) current_date sym
                       price [("rsi", rsi)] false st
               else if f_gt rsi (f_of_Q 70) && (0 <? held st sym)%Z then
                 Ok (sell current_date sym price [("rsi", rsi)] false st)
               else Ok st
             else Ok st
           else Ok st
       end)
    st.

(** Strategy 5 *)
Definition bollinger_bands_day (st : loop_state) : result loop_state :=
  for_each (stock_data p)
    (fun sd st =>
       let sym := fst sd in
       match dict_get current_prices sym with
       | None => Ok st
       | Some price =>
           let hist_slice := tail (lookback_period p) (closes_upto (snd sd)) in
           if (lookback_period p <=? length hist_slice)%nat then
             let sma := series_mean hist_slice in
             let std := series_std hist_slice in
             let upper_band := f_add sma (f_mul (f_of_Q 2) std) in
             let lower_band := f_sub sma (f_mul (f_of_Q 2) std) in
             if f_le price lower_band && (held st sym =? 0)%Z then
               enter true (f_mul (cash st) (position_size p)) current_date sym
                     price [("lower_band", lower_band)] false st
             else if f_ge price upper_band && (0 <? held st sym)%Z then
               Ok (sell current_date sym price [("upper_band", upper_band)] false st)
             else Ok st
           else Ok st
       end)
    st.

(** Strategy 6 *)
Definition ma_crossover_day (st : loop_state) : result loop_state :=
  let short_period := 10%nat in
  let long_period := 50%nat in
  for_each (stock_data p)
    (fun sd st =>
       let sym := fst sd in
       match dict_get current_prices sym with
       | None => Ok st
       | Some price =>
           let hist_slice := closes_upto (snd sd) in
           if (long_period <=? length hist_slice)%nat then
             let short_ma := series_mean (tail short_period hist_slice) in
             let long_ma := series_mean (tail long_period hist_slice) in
             let prev_short_ma :=
               series_mean (head short_period (tail (short_period + 1) hist_slice)) in
             let prev_long_ma :=
               series_mean (head long_period (tail (long_period + 1) hist_slice)) in
             let extra := [("short_ma", short_ma); ("long_ma", long_ma)] in
             if f_le prev_short_ma prev_long_ma && f_gt short_ma long_ma
                && (held st sym =? 0)%Z then
               enter true (f_mul (cash st) (position_size p)) current_date sym
                     price extra false st
             else if f_ge prev_short_ma prev_long_ma && f_lt short_ma long_ma
                     && (0 <? held st sym)%Z then
               Ok (sell current_date sym price extra false st)
             else Ok st
           else Ok st
       end)
    st.

(** Strategy 7 *)
Definition breakout_day (st : loop_state) : result loop_state :=
  for_each (stock_data p)
    (fun sd st =>
       let sym := fst sd in
       match dict_get current_prices sym with
       | None => Ok st
       | Some price =>
           let hist_slice :=
             tail (lookback_period p + 1) (loc_upto (snd sd) current_date) in
           if (lookback_period p + 1 <=? length hist_slice)%nat then
             let before_today := removelast hist_slice in
             let lookback_high := series_max (List.map bar_high before_today) in
             let lookback_low := series_min (List.map bar_low before_today) in
             if f_gt price lookback_high && (held st sym =? 0)%Z then
               enter true (f_mul (cash st) (position_size p)) current_date sym
                     price [("breakout_level", lookback_high)] false st
             else if f_lt price lookback_low && (0 <? held st sym)%Z then
               Ok (sell current_date sym price
                        [("breakdown_level", lookback_low)] false st)
             else Ok st
           else Ok st
       end)
    st.

(** [hist1 / hist2]: pandas aligns the two Series on their dates; a date of
    one that the other lacks gives NaN, which [mean] and [std] skip. *)
Definition aligned_ratio (hist1 hist2 : list bar) : list F :=
  flat_map
    (fun b1 =>
       match List.find (fun b2 => Z.eqb (bar_date b2) (bar_date b1)) hist2 with
       | Some b2 => [f_div (bar_close b1) (bar_close b2)]
       | None => []
       end)
    hist1.

(** Strategy 8 *)
Definition pairs_trading_day (st : loop_state) : result loop_state :=
  match stock_data p with
  | (sym1, df1) :: (sym2, df2) :: _ =>
      match dict_get current_prices sym1, dict_get current_prices sym2 with
      | Some price1, Some price2 =>
          let hist1 := tail (lookback_period p) (loc_upto df1 current_date) in
          let hist2 := tail (lookback_period p) (loc_upto df2 current_date) in
          if (lookback_period p <=? length hist1)%nat
             && (lookback_period p <=? length hist2)%nat then
            let ratio := aligned_ratio hist1 hist2 in
            let mean_ratio := series_mean ratio in
            let std_ratio := series_std ratio in
            if f_gt std_ratio f_zero then
              let current_ratio := f_div price1 price2 in
              let z_score := f_div (f_sub current_ratio mean_ratio) std_ratio in
              let extra := [("z_score", z_score)] in
              let flat := (held st sym1 =? 0)%Z && (held st sym2 =? 0)%Z in
              if f_gt z_score (f_of_Q 2) && flat then
                _ <- f_to_int (f_div (f_mul (f_mul (cash st) (f_of_Q 0.5))
                                            (position_size p)) price1) ;;
                enter true (f_mul (f_mul (cash st) (f_of_Q 0.5)) (position_size p))
                      current_date sym2 price2 extra true st
              else if f_lt z_score (f_of_Q (-2)) && flat then
                enter true (f_mul (cash st) (position_size p)) current_date sym1
                      price1 extra true st
              else if f_lt (f_abs z_score) (f_of_Q 0.5) then
                for_each [sym1; sym2]
                  (fun sym st =>
                     if (0 <? held st sym)%Z then
                       match dict_get current_prices sym with
                       | Some price => Ok (sell current_date sym price extra true st)
                       | None => Ok st
                       end
                     else Ok st)
                  st
              else Ok st
            else Ok st
          else Ok st
      | _, _ => Ok st
      end
  | _ => Ok st
  end.

End Day.

(** [current_prices]: the close of every symbol that trades on the date *)
Definition current_prices_of (p : prepared) (current_date : Z)
  : result (list (string * F)) :=
  fold_left
    (fun acc sd =>
       prices <- acc ;;
       if in_index current_date (snd sd) then
         price <- loc_close (snd sd) current_date ;;
         Ok (dict_set prices (fst sd) price)
       else Ok prices)
    (stock_data p) (Ok []).

(** [benchmark_shares] before the loop; [None] stands for the local name
    left unbound, when the benchmark has no positive close on the first
    date. *)
Definition benchmark_shares_of (p : prepared) : result (option F) :=
  match benchmark_data p with
  | Some (b :: rows) =>
      match sorted_dates p with
      | [] => Raise (IndexError "list index out of range")
      | first_date :: _ =>
          if in_index first_date (b :: rows) then
            benchmark_start_price <- loc_close (b :: rows) first_date ;;
            if negb (f_eq benchmark_start_price f_zero)
               && f_gt benchmark_start_price f_zero
            then Ok (Some (f_div (initial_capital p) benchmark_start_price))
            else Ok None
          else Ok None
      end
  | _ => Ok (Some f_zero)
  end.

Definition track_benchmark (p : prepared) (benchmark_shares : option F)
    (current_date : Z) (st : loop_state) : result loop_state :=
  let append v :=
    mkLoop (cash st) (positions st) (portfolio_values st)
           (benchmark_value_series st ++ [v]) (trade_log st) in
  match benchmark_data p with
  | Some df =>
      if in_index current_date df then
        benchmark_price <- loc_close df current_date ;;
        match benchmark_shares with
        | Some shares => Ok (append (f_mul shares benchmark_price))
        | None => Raise (UnboundLocalError "benchmark_shares")
        end
      else Ok (append (initial_capital p))
  | None => Ok (append (initial_capital p))
  end.

Definition append_portfolio_value (v : F) (st : loop_state) : loop_state :=
  mkLoop (cash st) (positions st) (portfolio_values st ++ [v])
         (benchmark_value_series st) (trade_log st).

(** The warm-up branch: the value of the portfolio only *)
Definition warmup_value (p : prepared) (current_date : Z) (st : loop_state)
  : result F :=
  fold_left
    (fun acc pos =>
       current_value <- acc ;;
       match dict_get (stock_data p) (fst pos) with
       | Some df =>
           if in_index current_date df then
             current_price <- loc_close df current_date ;;
             Ok (f_add current_value (f_mul (f_of_Z (snd pos)) current_price))
           else Ok current_value
       | None => Raise (KeyError (fst pos))
       end)
    (positions st) (Ok (cash st)).

Definition active_value (current_prices : list (string * F)) (st : loop_state) : F :=
  fold_left
    (fun portfolio_value pos =>
       if (0 <? snd pos)%Z then
         match dict_get current_prices (fst pos) with
         | Some price => f_add portfolio_value (f_mul (f_of_Z (snd pos)) price)
         | None => portfolio_value
         end
       else portfolio_value)
    (positions st) (cash st).

(** The [if / elif] chain over the strategy string; an unknown string
    trades nothing. *)
Definition strategy_day (p : prepared) (i : nat) (current_date : Z)
    (current_prices : list (string * F)) (st : loop_state) : result loop_state :=
  let strategy := strategy p in
  if String.eqb strategy "buy-and-hold" then
    if (i =? lookback_period p)%nat
    then buy_and_hold_day p current_date current_prices st
    else Ok st
  else if String.eqb strategy "mean-reversion" then
    mean_reversion_day p current_date current_prices st
  else if String.eqb strategy "momentum" then
    momentum_day p current_date current_prices st
  else if String.eqb strategy "rsi" then
    rsi_day p current_date current_prices st
  else if String.eqb strategy "bollinger-bands" then
    bollinger_bands_day p current_date current_prices st
  else if String.eqb strategy "ma-crossover" then
    ma_crossover_day p current_date current_prices st
  else if String.eqb strategy "breakout" then
    breakout_day p current_date current_prices st
  else if String.eqb strategy "pairs-trading" then
    pairs_trading_day p current_date current_prices st
  else Ok st.

(** One iteration of [for i, current_date in enumerate(sorted_dates)] *)
Definition loop_body (p : prepared) (benchmark_shares : option F)
    (i : nat) (current_date : Z) (st : loop_state) : result loop_state :=
  if (i <? lookback_period p)%nat then
    current_value <- warmup_value p current_date st ;;
    track_benchmark p benchmark_shares current_date
      (append_portfolio_value current_value st)
  else
    current_prices <- current_prices_of p current_date ;;
    st <- strategy_day p i current_date current_prices st ;;
    track_benchmark p benchmark_shares current_date
      (append_portfolio_value (active_value current_prices st) st).

Fixpoint loop_from (p : prepared) (benchmark_shares : option F)
    (i : nat) (dates : list Z) (st : loop_state) : result loop_state :=
  match dates with
  | [] => Ok st
  | current_date :: rest =>
      st' <- loop_body p benchmark_shares i current_date st ;;
      loop_from p benchmark_shares (S i) rest st'
  end.

Definition initial_state (p : prepared) : loop_state :=
  mkLoop (initial_capital p)
         (List.map (fun sd => (fst sd, 0%Z)) (stock_data p))
         [] [] [].

Definition strategy_loop (p : prepared) : result loop_state :=
  benchmark_shares <- benchmark_shares_of p ;;
  loop_from p benchmark_shares 0 (sorted_dates p) (initial_state p).

(** *** Summary statistics and the response (lines 2728-2796) *)

Record performance : Type := mkPerformance {
  totalReturn : F;
  annualReturn : F;
  annualVolatility : F;
  sharpeRatio : F;
  sortinoRatio : F;
  maxDrawdown : F;
  winRate : F;
  finalValue : F;
  initialCapital : F
}.

Record response : Type := mkResponse {
  resp_performance : performance;
  yearlyReturns : list (Z * F);
  chart : list (Z * F * F);
  resp_symbols : list string;
  resp_weights : list F;
  startDate : string;
  endDate : string;
  timestamp : Z
}.

(** [series.pct_change()], paired with the index; the first entry is NaN *)
Fixpoint pct_change_from (prev : F) (rows : list (Z * F)) : list (Z * F) :=
  match rows with
  | [] => []
  | (d, v) :: rest =>
      (d, f_sub (f_div v prev) (f_of_Q 1)) :: pct_change_from v rest
  end.

Definition pct_change (rows : list (Z * F)) : list (Z * F) :=
  match rows with
  | [] => []
  | (d, v) :: rest => (d, f_nan) :: pct_change_from v rest
  end.

Definition dropna (rows : list (Z * F)) : list (Z * F) :=
  List.filter (fun r => negb (f_isnan (snd r))) rows.

Fixpoint cumprod_from (acc : F) (xs : list F) : list F :=
  match xs with
  | [] => []
  | x :: rest => let acc' := f_mul acc x in acc' :: cumprod_from acc' rest
  end.

Definition cumprod (xs : list F) : list F :=
  match xs with
  | [] => []
  | x :: rest => x :: cumprod_from x rest
  end.

(** [series.expanding().max()] *)
Fixpoint expanding_max_from (m : F) (xs : list F) : list F :=
  match xs with
  | [] => []
  | x :: rest =>
      let m' := if f_lt m x then x else m in m' :: expanding_max_from m' rest
  end.

Definition expanding_max (xs : list F) : list F :=
  match xs with
  | [] => []
  | x :: rest => x :: expanding_max_from x rest
  end.

Definition f_prod (xs : list F) : F := fold_left f_mul xs (f_of_Q 1).

(** the keys of a [groupby], in order of first appearance *)
Fixpoint distinct (l : list Z) : list Z :=
  match l with
  | [] => []
  | x :: rest => x :: List.filter (fun y => negb (Z.eqb y x)) (distinct rest)
  end.

(** [iloc[-1]] *)
Definition iloc_last (xs : list F) : result F :=
  match xs with
  | [] => Raise (IndexError "single positional indexer is out-of-bounds")
  | _ :: _ => Ok (List.last xs f_nan)
  end.

(** [year_of] gives [index.year] of a date. *)
Definition backtest_metrics (year_of : Z -> Z) (w : world) (p : prepared)
    (st : loop_state) : result response :=
  let portfolio_value := combine (sorted_dates p) (portfolio_values st) in
  let portfolio_returns := dropna (pct_change portfolio_value) in
  let returns := List.map snd portfolio_returns in
  let one_plus := List.map (f_add (f_of_Q 1)) returns in
  let cumulative_returns := cumprod one_plus in
  let sqrt_252 := f_sqrt (f_of_Q 252) in
  let annual_return := f_mul (series_mean returns) (f_of_Q 252) in
  let annual_volatility := f_mul (series_std returns) sqrt_252 in
  let sharpe_ratio :=
    if f_gt annual_volatility f_zero
    then f_div (f_sub annual_return (f_of_Q 0.02)) annual_volatility
    else f_zero in
  let downside_returns := List.filter (fun x => f_lt x f_zero) returns in
  let downside_deviation :=
    match downside_returns with
    | [] => f_zero
    | _ :: _ => f_mul (series_std downside_returns) sqrt_252
    end in
  let sortino_ratio :=
    if f_gt downside_deviation f_zero
    then f_div (f_sub annual_return (f_of_Q 0.02)) downside_deviation
    else f_zero in
  let cumulative := cumprod one_plus in
  let running_max := expanding_max cumulative in
  let drawdown :=
    List.map (fun cr => f_div (f_sub (fst cr) (snd cr)) (snd cr))
             (combine cumulative running_max) in
  let max_drawdown := series_min drawdown in
  let positive_days := length (List.filter (fun x => f_gt x f_zero) returns) in
  let total_days := length returns in
  let win_rate :=
    if (0 <? total_days)%nat
    then f_mul (f_div (f_of_nat positive_days) (f_of_nat total_days)) (f_of_Q 100)
    else f_zero in
  let yearly_returns :=
    List.map
      (fun year =>
         let in_year :=
           List.filter (fun r => Z.eqb (year_of (fst r)) year) portfolio_returns in
         (year,
          f_mul (f_sub (f_prod (List.map (fun r => f_add (f_of_Q 1) (snd r)) in_year))
                       (f_of_Q 1))
                (f_of_Q 100)))
      (distinct (List.map year_of (sorted_dates p))) in
  last_cumulative <- iloc_last cumulative_returns ;;
  final_value <- iloc_last (List.map snd portfolio_value) ;;
  let chart :=
    List.map
      (fun ir =>
         let i := fst ir in
         let date := fst (snd ir) in
         let value := snd (snd ir) in
         (date, value,
          default (initial_capital p) (nth_error (benchmark_value_series st) i)))
      (combine (seq 0 (length portfolio_value)) portfolio_value) in
  Ok (mkResponse
        (mkPerformance
           (f_mul (f_sub last_cumulative (f_of_Q 1)) (f_of_Q 100))
           (f_mul annual_return (f_of_Q 100))
           (f_mul annual_volatility (f_of_Q 100))
           sharpe_ratio sortino_ratio
           (f_mul max_drawdown (f_of_Q 100))
           win_rate final_value (initial_capital p))
        yearly_returns chart (symbols p) (weights p)
        (start_date p) (end_date p) (time_ms w)).

(** *** The handler *)

Definition exn_str (e : exn) : string :=
  match e with
  | ZeroDivisionError => "division by zero"
  | ValueError msg | IndexError msg | OverflowError msg | RedisError msg => msg
  | KeyError key => key
  | UnboundLocalError name =>
      "local variable '" ++ name ++ "' referenced before assignment"
  | HTTPException _ detail => detail
  end.

(** [except HTTPException: raise] and
    [except Exception as e: raise HTTPException(500, ...)] *)
Definition http_guard {A : Type} (body : result A) : result A :=
  match body with
  | Ok a => Ok a
  | Raise (HTTPException status_code detail) =>
      Raise (HTTPException status_code detail)
  | Raise e =>
      Raise (HTTPException 500 ("Failed to run backtest: " ++ exn_str e))
  end.

(** The loop and the statistics on validated input: the final state of the
    loop, which holds the trade log, and the response. *)
Definition run_prepared_with (loop : prepared -> result loop_state)
    (year_of : Z -> Z) (w : world) (p : prepared)
  : result (loop_state * response) :=
  st <- loop p ;;
  resp <- backtest_metrics year_of w p st ;;
  Ok (st, resp).

Definition backtest_run_with (loop : prepared -> result loop_state)
    (year_of : Z -> Z) (w : world)
    (provider : string -> string -> string -> option (list bar))
    (request : request) : result (loop_state * response) :=
  http_guard
    (p <- backtest_prepare w provider request ;;
     run_prepared_with loop year_of w p).

Definition run_prepared := run_prepared_with strategy_loop.

Definition backtest_run := backtest_run_with strategy_loop.

(** [backtest_strategy]: what the handler returns to the client *)
Definition backtest_strategy (year_of : Z -> Z) (w : world)
    (provider : string -> string -> string -> option (list bar))
    (request : request) : result response :=
  r <- backtest_run year_of w provider request ;; Ok (snd r).

(** *** Predicates for the statements about the loop *)

Definition position_keys (st : loop_state) : list string :=
  List.map fst (positions st).

Definition no_short_position (st : loop_state) : Prop :=
  Forall (fun pos => (0 <= snd pos)%Z) (positions st).

(** A trade made on date [d] from state [st]: a positive number of shares
    of one of the symbols that have a position entry. *)
Definition trade_ok (st : loop_state) (d : Z) (t : trade) : Prop :=
  trade_date t = d /\ (0 < trade_shares t)%Z
  /\ In (trade_symbol t) (position_keys st).

(** What the strategy code of one day may do to the state. *)
Definition day_step (d : Z) (st st' : loop_state) : Prop :=
  portfolio_values st' = portfolio_values st
  /\ benchmark_value_series st' = benchmark_value_series st
  /\ position_keys st' = position_keys st
  /\ (no_short_position st -> no_short_position st')
  /\ exists new, trade_log st' = trade_log st ++ new
                 /\ Forall (trade_ok st d) new.

End Engine.

End Backtest.

(** ** The floats of [Module Indicators] as an instance of the interface *)

Module FlOps.
Import Indicators.

Definition fl_value (x : fl) : Q :=
  match x with Fin q => q | _ => 0%Q end.

Definition fl_mul (x y : fl) : fl :=
  if fl_isnan x || fl_isnan y then NaN
  else
    let negative := xorb (fl_signbit x) (fl_signbit y) in
    if fl_isinf x || fl_isinf y then
      (if fl_iszero x || fl_iszero y then NaN else signed_inf negative)
    else if fl_iszero x || fl_iszero y then signed_zero negative
    else Fin (fl_value x * fl_value y).

Definition fl_lt (x y : fl) : bool :=
  match x, y with
  | NaN, _ | _, NaN => false
  | _, NInf | PInf, _ => false
  | NInf, _ | _, PInf => true
  | _, _ => Qlt_bool (fl_value x) (fl_value y)
  end.

Definition fl_eq (x y : fl) : bool :=
  match x, y with
  | NaN, _ | _, NaN => false
  | PInf, PInf | NInf, NInf => true
  | PInf, _ | _, PInf | NInf, _ | _, NInf => false
  | _, _ => Qeq_bool (fl_value x) (fl_value y)
  end.

Definition fl_le (x y : fl) : bool := fl_lt x y || fl_eq x y.

Definition fl_abs (x : fl) : fl :=
  match x with
  | Fin q => Fin (Qabs q)
  | NegZero => Fin 0
  | PInf | NInf => PInf
  | NaN => NaN
  end.

(** the square root, to eight decimal places *)
Definition fl_sqrt (x : fl) : fl :=
  match x with
  | Fin q =>
      if Qlt_bool q 0 then NaN
      else
        let scale := (10 ^ 8)%Z in
        Fin (Z.sqrt (Qnum q * Zpos (Qden q) * scale * scale)
               # (Qden q * Z.to_pos scale))
  | NegZero => NegZero
  | PInf => PInf
  | NInf | NaN => NaN
  end.

Definition fl_to_int (x : fl) : result Z :=
  match x with
  | Fin q => Ok (Z.quot (Qnum q) (Zpos (Qden q)))
  | NegZero => Ok 0%Z
  | PInf | NInf => Raise (OverflowError "cannot convert float infinity to integer")
  | NaN => Raise (ValueError "cannot convert float NaN to integer")
  end.

(** Rounding to twelve decimal places, applied after each operation. *)
Definition fl_round (x : fl) : fl :=
  match x with
  | Fin q => Fin (Qred (Qfloor (q * inject_Z (10 ^ 12)) # Z.to_pos (10 ^ 12)))
  | _ => x
  end.

#[export] Instance fl_float_ops : Backtest.FloatOps fl := {|
  Backtest.f_of_Q := Fin;
  Backtest.f_nan := NaN;
  Backtest.f_isnan := fl_isnan;
  Backtest.f_neg := fl_neg;
  Backtest.f_abs := fl_abs;
  Backtest.f_add := fun x y => fl_round (fl_add x y);
  Backtest.f_sub := fun x y => fl_round (fl_sub x y);
  Backtest.f_mul := fun x y => fl_round (fl_mul x y);
  Backtest.f_div := fun x y => fl_round (fl_div x y);
  Backtest.f_lt := fl_lt;
  Backtest.f_le := fl_le;
  Backtest.f_eq := fl_eq;
  Backtest.f_sqrt := fun x => fl_round (fl_sqrt x);
  Backtest.f_to_int := fl_to_int
|}.

End FlOps.

(** ** MACD (main.py, lines 618-657) *)

Module Macd.
Import Indicators FlOps.
Local Open Scope Q_scope.

(** [Series.ewm(span=span, adjust=False).mean()] on finite values:
    y0 = x0 and y_t = (1 - alpha) * y_(t-1) + alpha * x_t with
    alpha = 2 / (span + 1); pandas refuses a span below one. *)
Definition alpha (span : nat) : Q := 2 / (inject_Z (Z.of_nat span) + 1).

Fixpoint ewm_from (a prev : Q) (xs : list Q) : list Q :=
  match xs with
  | [] => []
  | x :: rest =>
      let y := (1 - a) * prev + a * x in
      y :: ewm_from a y rest
  end.

Definition ewm_mean (span : nat) (xs : list Q) : result (list Q) :=
  if (span <? 1)%nat then Raise (ValueError "span must satisfy: span >= 1")
  else
    Ok match xs with
       | [] => []
       | x :: rest => x :: ewm_from (alpha span) x rest
       end.

Record macd_result : Type := mkMacd {
  macd : list (Z * fl);
  signal : list (Z * fl);
  histogram : list (Z * fl * string)
}.

Definition calculate_macd (data : list (Z * Q)) (fast slow signal : nat)
  : result macd_result :=
  let closes := List.map snd data in
  let times := List.map fst data in
  exp1 <- ewm_mean fast closes ;;
  exp2 <- ewm_mean slow closes ;;
  let macd_line :=
    List.map (fun ab => fl_sub (Fin (fst ab)) (Fin (snd ab))) (combine exp1 exp2) in
  signal_values <- ewm_mean signal (List.map fl_value macd_line) ;;
  let signal_line := List.map Fin signal_values in
  let histogram :=
    List.map (fun ms => fl_sub (fst ms) (snd ms)) (combine macd_line signal_line) in
  Ok (mkMacd
        (emit times macd_line)
        (emit times signal_line)
        (List.map
           (fun point =>
              (fst point, snd point,
               if fl_le (Fin 0) (snd point) then "#26a69a" else "#ef5350"))
           (emit times histogram))).

End Macd.

(** ** A small market, to run the backtest on *)

Module BacktestExample.
Import Indicators FlOps Backtest.

(** [n] daily bars whose close on day [i] is [price i] *)
Definition frame (price : nat -> Q) (n : nat) : list (@bar fl) :=
  List.map
    (fun i =>
       mkBar (Z.of_nat i) (Fin (price i)) (Fin (price i + 1)%Q)
             (Fin (price i - 1)%Q) (Fin (price i)) (Fin 1000))
    (seq 0 n).

Definition zigzag (i : nat) : Q :=
  inject_Z (100 + Z.of_nat ((i * 7) mod 13) - Z.of_nat ((i * 3) mod 5)).

(** 60 days of AAPLx, 58 of TSLAx, 60 of the benchmark; nothing else *)
Definition provider (start_date end_date sym : string) : option (list (@bar fl)) :=
  if String.eqb sym "AAPLx" then Some (frame zigzag 60)
  else if String.eqb sym "TSLAx" then
    Some (frame (fun i => (zigzag (i + 4) * 2)%Q) 58)
  else if String.eqb sym "SPY" then
    Some (frame (fun i => (400 + inject_Z (Z.of_nat i))%Q) 60)
  else None.

(** three days of AAPLx only *)
Definition short_provider (start_date end_date sym : string)
  : option (list (@bar fl)) :=
  if String.eqb sym "AAPLx" then Some (frame zigzag 3) else None.

Definition morning : world := mkWorld "2025-01-01" 1735722000000.
Definition evening : world := mkWorld "2025-01-01" 1735758000000.

Definition request_for (strategy : string) : @request fl :=
  mkRequest (Some ["AAPLx"; "TSLAx"; "NOPE"])
            (Some [Fin 0.5; Fin 0.3; Fin 0.2])
            None (Some "2024-12-31") None (Some strategy) None
            (Some 5%nat) (Some (Fin (-1))) None None (Some (Fin 0.5)).

Definition year_of (date : Z) : Z := (2024 + date / 30)%Z.

(** date, symbol, action and shares of each trade *)
Definition trades_of (r : result (@loop_state fl * @response fl))
  : result (list (Z * string * action * Z)) :=
  x <- r ;;
  Ok (List.map (fun t => (trade_date t, trade_symbol t, trade_action t,
                          trade_shares t))
               (trade_log (fst x))).

(** The same market with a benchmark whose close on day [i] is [i]: zero
    on the first day. *)
Definition zero_start_provider (start_date end_date sym : string)
  : option (list (@bar fl)) :=
  if String.eqb sym "SPY" then
    Some (frame (fun i => inject_Z (Z.of_nat i)) 60)
  else provider start_date end_date sym.

(** The validated input of a run on the example market, and the state at
    the end of its loop. *)
Definition prepared_on
    (provider : string -> string -> string -> option (list (@bar fl)))
    (strategy : string) : @prepared fl :=
  match backtest_prepare morning provider (request_for strategy) with
  | Ok p => p
  | Raise _ =>
      mkPrepared [] [] "" "" (Fin 0) strategy "" 0 (Fin 0) (Fin 0) (Fin 0)
                 (Fin 0) None [] []
  end.

Definition final_state_of (p : @prepared fl) : @loop_state fl :=
  match strategy_loop p with
  | Ok st => st
  | Raise _ => initial_state p
  end.

End BacktestExample.

(** ** Sanitising a response (main.py, lines 27-45) *)

Module Sanitize.
Import Indicators.

(** The values of a response before sanitising: a float may be an infinity
    or NaN; dictionaries carry string keys. *)
Local Unset Elimination Schemes.

Inductive value : Type :=
| VNone
| VBool (b : bool)
| VInt (n : Z)
| VFloat (x : fl)
| VStr (s : string)
| VList (items : list value)
| VTuple (items : list value)
| VDict (fields : list (string * value)).

Local Set Elimination Schemes.

(** [math.isinf] and [math.isnan] convert an int to a float first, which
    raises OverflowError once the int rounds to 2^1024 or more. *)
Definition float_overflow (n : Z) : bool :=
  (2 ^ 1024 - 2 ^ 970 <=? Z.abs n)%Z.

(** [sanitize_float]; a bool is an int for [isinstance] *)
Definition sanitize_float (v : value) : result value :=
  match v with
  | VNone => Ok VNone
  | VBool b => Ok (VBool b)
  | VInt n =>
      if float_overflow n
      then Raise (OverflowError "int too large to convert to float")
      else Ok (VInt n)
  | VFloat x => if fl_isinf x || fl_isnan x then Ok VNone else Ok (VFloat x)
  | other => Ok other
  end.

Fixpoint sanitize_dict (data : value) : result value :=
  match data with
  | VDict fields =>
      fields' <- map_result
                   (fun kv => v <- sanitize_dict (snd kv) ;; Ok (fst kv, v))
                   fields ;;
      Ok (VDict fields')
  | VList items =>
      items' <- map_result sanitize_dict items ;;
      Ok (VList items')
  | other => sanitize_float other
  end.

(** No infinity and no NaN where dictionaries and lists lead; what a tuple
    holds is not looked at. *)
Fixpoint clean (v : value) : bool :=
  match v with
  | VFloat x => negb (fl_isinf x || fl_isnan x)
  | VList items => forallb clean items
  | VDict fields => forallb (fun kv => clean (snd kv)) fields
  | _ => true
  end.

(** Every int that dictionaries and lists lead to converts to a float. *)
Fixpoint ints_in_range (v : value) : bool :=
  match v with
  | VInt n => negb (float_overflow n)
  | VList items => forallb ints_in_range items
  | VDict fields => forallb (fun kv => ints_in_range (snd kv)) fields
  | _ => true
  end.

End Sanitize.

(** ** Client rate limiting (main.py, lines 152-205) *)

Module RateLimit.
Import Indicators.

Record middleware : Type := mkMiddleware {
  max_requests : Z;
  window_seconds : Q;
  requests : gmap string (list Q)     (* ip -> [timestamps] *)
}.

Inductive response : Type :=
| TooManyRequests (retryAfter : Q)    (* status 429 *)
| Forwarded.                          (* the response of [call_next] *)

(** [[ts for ts in log if current_time - ts < window_seconds]] *)
Definition recent (window_seconds current_time : Q) (log : list Q) : list Q :=
  List.filter (fun ts => Qlt_bool (current_time - ts) window_seconds) log.

(** [_cleanup]: drop the addresses without a timestamp in the window *)
Definition _cleanup (current_time : Q) (m : middleware) : middleware :=
  mkMiddleware (max_requests m) (window_seconds m)
    (filter (fun entry : string * list Q =>
               existsb (fun ts => Qlt_bool (current_time - ts) (window_seconds m))
                       (snd entry) = true)
            (requests m)).

(** [dispatch].  [client_host] is [request.client.host], [None] without a
    client; [current_time] is [time.time()] and [random_random] the draw of
    [random.random()]. *)
Definition dispatch (client_host : option string) (current_time random_random : Q)
    (m : middleware) : response * middleware :=
  let client_ip := default "unknown" client_host in
  let log := default [] (requests m !! client_ip) in
  let log := recent (window_seconds m) current_time log in
  if (max_requests m <=? Z.of_nat (length log))%Z then
    (TooManyRequests (window_seconds m),
     mkMiddleware (max_requests m) (window_seconds m)
                  (<[client_ip := log]> (requests m)))
  else
    let m' := mkMiddleware (max_requests m) (window_seconds m)
                (<[client_ip := log ++ [current_time]]> (requests m)) in
    (Forwarded,
     if Qlt_bool random_random (1 # 100) then _cleanup current_time m' else m').

(** A sequence of requests: client, time and random draw of each *)
Fixpoint serve (trace : list (option string * Q * Q)) (m : middleware)
  : middleware :=
  match trace with
  | [] => m
  | (client_host, current_time, random_random) :: rest =>
      serve rest (snd (dispatch client_host current_time random_random m))
  end.

(** The invariant of the middleware: no address holds more timestamps than
    the limit allows. *)
Definition within_limit (m : middleware) : Prop :=
  forall ip log, requests m !! ip = Some log ->
                 (Z.of_nat (length log) <= Z.max 0 (max_requests m))%Z.

End RateLimit.

(** ** Symbols (main.py, lines 504-514) *)

Module Symbols.

(** [symbol.replace('.', '-')] *)
Fixpoint clean_yahoo_symbol (symbol : string) : string :=
  match symbol with
  | EmptyString => EmptyString
  | String c rest =>
      String (if Ascii.eqb c "."%char then "-"%char else c)
             (clean_yahoo_symbol rest)
  end.

(** [STOCK_SYMBOLS] is the table loaded at start-up. *)
Definition map_xstock_to_symbol (STOCK_SYMBOLS : gmap string string)
    (xstock_symbol : string) : option string :=
  match STOCK_SYMBOLS !! xstock_symbol with
  | Some EmptyString => None
  | Some real_symbol => Some (clean_yahoo_symbol real_symbol)
  | None => None
  end.

(** the characters of a string *)
Fixpoint chars (s : string) : list Ascii.ascii :=
  match s with
  | EmptyString => []
  | String c rest => c :: chars rest
  end.

End Symbols.

(** ** Throttling the provider calls (main.py, lines 305-330) *)

Module Throttle.
Import Indicators.
Local Open Scope Q_scope.

Definition RATE_LIMIT_DELAY : Q := 15.

(** the two globals *)
Record limiter : Type := mkLimiter {
  last_request_time : Q;
  request_count : Z
}.

(** [smart_rate_limit] is a coroutine.  It reads the clock and
    [last_request_time]; when it has to wait it is suspended at
    [await asyncio.sleep(sleep_time)], and the event loop may run other
    callers before it is resumed; after the wait it reads the clock again
    and writes the two globals, as they are at that time.  Without a wait
    there is no suspension and it runs to its end at once. *)
Inductive coroutine : Type :=
| Returned (g : limiter)          (* ran to its end; the globals after it *)
| Suspended (sleep_time : Q).     (* waiting in [asyncio.sleep] *)

(** The statements after the await: [last_request_time = time.time()] and
    [request_count += 1]. *)
Definition record_request (time_after : Q) (g : limiter) : limiter :=
  mkLimiter time_after (request_count g + 1).

(** [current_time] is the first reading of the clock, [jitter] the draw of
    [random.uniform(5.0, 10.0)], and [time_after] the second reading of the
    clock when there is no wait. *)
Definition smart_rate_limit (current_time jitter time_after : Q) (g : limiter)
  : coroutine :=
  let time_since_last_request := current_time - last_request_time g in
  let required_delay := RATE_LIMIT_DELAY + jitter in
  if Qlt_bool time_since_last_request required_delay then
    let sleep_time := required_delay - time_since_last_request in
    Suspended sleep_time
  else Returned (record_request time_after g).

(** The event loop, as far as the two globals go.  A call is named by a
    number.  [Call]: a caller starts [smart_rate_limit]; [Wake]: the sleep
    of a suspended call is over and the call runs to its end, reading the
    clock ([time_after]). *)
Inductive event : Type :=
| Call (id : nat) (current_time jitter time_after : Q)
| Wake (id : nat) (time_after : Q).

Record event_loop : Type := mkEventLoop {
  globals : limiter;
  asleep : gmap nat Q       (* the suspended calls and the sleep of each *)
}.

Definition step (st : event_loop) (ev : event) : event_loop :=
  match ev with
  | Call id current_time jitter time_after =>
      match smart_rate_limit current_time jitter time_after (globals st) with
      | Returned g => mkEventLoop g (asleep st)
      | Suspended sleep_time =>
          mkEventLoop (globals st) (<[id := sleep_time]> (asleep st))
      end
  | Wake id time_after =>
      match asleep st !! id with
      | Some _ =>
          mkEventLoop (record_request time_after (globals st))
                      (delete id (asleep st))
      | None => st
      end
  end.

Definition run (events : list event) (st : event_loop) : event_loop :=
  fold_left step events st.

(** the wait that a call asks for, zero when it does not wait *)
Definition sleep_time_of (c : coroutine) : Q :=
  match c with
  | Returned _ => 0
  | Suspended sleep_time => sleep_time
  end.

End Throttle.

(** ** Releasing caches under memory pressure (memory_optimizer.py, lines 73-107) *)

Module MemoryOptimizer.

(** One entry of [caches]: its 'data' ([None] when cleared) and its
    'timestamp'. *)
Record slot : Type := mkSlot {
  data : option pyval;
  timestamp : Z
}.

Definition cleanup_priority : list string := ["3mo"; "ytd"; "1y"; "1mo"; "1w"; "1d"].

(** The loop over [cleanup_priority].  [pressure n] is the answer of the
    n-th call of [check_memory_pressure]; [calls] counts the calls made so
    far. *)
Fixpoint cleanup_loop (pressure : nat -> bool) (calls : nat)
    (periods : list string) (caches : gmap string slot) : gmap string slot :=
  match periods with
  | [] => caches
  | period :: rest =>
      match caches !! period with
      | Some (mkSlot (Some _) _) =>
          let caches' := <[period := mkSlot None 0]> caches in
          if negb (pressure calls) then caches'
          else cleanup_loop pressure (S calls) rest caches'
      | _ => cleanup_loop pressure calls rest caches
      end
  end.

Definition cleanup_old_caches (pressure : nat -> bool)
    (caches : gmap string slot) : gmap string slot :=
  if negb (pressure 0%nat) then caches
  else cleanup_loop pressure 1 cleanup_priority caches.

(** For the statements: what a run that cleared the periods [cleared]
    leaves under key [k]. *)
Definition after_clearing (cleared : list string) (caches : gmap string slot)
    (k : string) : option slot :=
  match caches !! k with
  | Some (mkSlot (Some d) t) =>
      if bool_decide (k ∈ cleared) then Some (mkSlot None 0)
      else Some (mkSlot (Some d) t)
  | other => other
  end.

End MemoryOptimizer.

(** * Properties *)

(** ** Black-Scholes Greeks *)

Section GreeksFacts.
Import Greeks.
Local Open Scope R_scope.

Lemma gauss_pos (t : R) : 0 < gauss t.
Proof. unfold gauss. apply exp_pos. Qed.

Lemma gauss_decreasing (a t : R) : 0 <= a -> a <= t -> gauss t <= gauss a.
Proof.
  intros Ha Hat. unfold gauss.
  destruct (Req_dec a t) as [-> | Hne]; [lra |].
  left. apply exp_increasing. nra.
Qed.

Lemma sqrt_2PI_pos : 0 < sqrt (2 * PI).
Proof. apply sqrt_lt_R0. pose proof PI_RGT_0. lra. Qed.

(** The integral of the density kernel over [0, x] dominates the rectangle
    of width [a] under the curve, for every [a] in [0, x]. *)
Lemma gauss_integral_lower (a x : R) :
  0 <= a -> a <= x -> a * gauss a <= RiemannInt (gauss_integrable 0 x).
Proof.
  intros Ha Hax.
  rewrite <- (RiemannInt_P26 (gauss_integrable 0 a) (gauss_integrable a x)).
  assert (H1 : gauss a * (a - 0) <= RiemannInt (gauss_integrable 0 a)).
  { rewrite <- (RiemannInt_P15 (RiemannInt_P14 0 a (gauss a))).
    apply RiemannInt_P19; [exact Ha |].
    intros t Ht. unfold fct_cte. apply gauss_decreasing; lra. }
  assert (H2 : 0 <= RiemannInt (gauss_integrable a x)).
  { replace 0 with (0 * (x - a)) by ring.
    rewrite <- (RiemannInt_P15 (RiemannInt_P14 a x 0)).
    apply RiemannInt_P19; [exact Hax |].
    intros t Ht. unfold fct_cte. left. apply gauss_pos. }
  lra.
Qed.

Lemma norm_cdf_above_half (x : R) : 0 < x -> 1 / 2 < norm_cdf x.
Proof.
  intros Hx. unfold norm_cdf.
  pose proof (gauss_integral_lower x x (Rlt_le _ _ Hx) (Rle_refl x)) as Hi.
  pose proof (gauss_pos x) as Hg. pose proof sqrt_2PI_pos as Hs.
  assert (0 < RiemannInt (gauss_integrable 0 x)) by nra.
  assert (0 < RiemannInt (gauss_integrable 0 x) / sqrt (2 * PI)).
  { apply Rdiv_lt_0_compat; assumption. }
  lra.
Qed.

Lemma days_to_expiration_pos (e : option Z) :
  0 < calculate_days_to_expiration e.
Proof.
  destruct e as [days |]; simpl; [| lra].
  assert (1 <= IZR (Z.max 1 days)) by (apply IZR_le; lia). lra.
Qed.

Lemma norm_cdf_at_least_half (x : R) : 0 <= x -> 1 / 2 <= norm_cdf x.
Proof.
  intros [Hx | <-].
  - left. apply norm_cdf_above_half, Hx.
  - unfold norm_cdf. rewrite RiemannInt_P9. lra.
Qed.

Lemma FLOAT_UNDERFLOW_small : 0 < FLOAT_UNDERFLOW < 1 / 1000.
Proof.
  assert (H : 1000 < IZR (2 ^ 1075)) by (apply (IZR_lt 1000); reflexivity).
  unfold FLOAT_UNDERFLOW. revert H. generalize (IZR (2 ^ 1075)). intros x H.
  assert (H0 : 0 < / x) by (apply Rinv_0_lt_compat; lra).
  assert (H1 : x * / x = 1) by (apply Rinv_r; lra).
  split; [exact H0 | nra].
Qed.

Lemma FLOAT_OVERFLOW_large : 1000 < FLOAT_OVERFLOW.
Proof. apply (IZR_lt 1000). reflexivity. Qed.

Lemma underflow_id (x : R) : 1 / 1000 <= Rabs x -> underflow x = x.
Proof.
  intros H. unfold underflow. pose proof FLOAT_UNDERFLOW_small.
  destruct (Rle_dec (Rabs x) FLOAT_UNDERFLOW); [lra | reflexivity].
Qed.

Lemma underflow_nonneg (x : R) : 0 <= x -> 0 <= underflow x.
Proof. intros H. unfold underflow. destruct (Rle_dec _ _); lra. Qed.

Lemma py_mul_nonneg (x y : R) : 0 <= x -> 0 <= y -> 0 <= py_mul x y.
Proof. intros Hx Hy. apply underflow_nonneg. nra. Qed.

(** At the money the value of d1, when it is computed, is not negative. *)
Lemma d1_atm_nonneg (S sigma T d1 : R) :
  0 < S -> 0 < sigma -> 0 < T -> d1_of S S sigma T = Ok d1 -> 0 <= d1.
Proof.
  intros HS Hs HT. unfold d1_of, py_div at 1.
  destruct (Req_dec_T S 0) as [E | _]; [lra |]. cbn [bind].
  assert (HSS : S / S = 1) by (field; lra). rewrite HSS.
  rewrite underflow_id by (rewrite Rabs_R1; lra).
  unfold math_log. destruct (Rle_dec 1 0) as [E | _]; [lra |]. cbn [bind].
  rewrite ln_1. unfold py_pow2.
  destruct (Rle_dec FLOAT_OVERFLOW (sigma * sigma)) as [_ | _]; cbn [bind];
    [discriminate |].
  unfold math_sqrt. destruct (Rlt_dec T 0) as [E | _]; [lra |]. cbn [bind].
  pose proof (sqrt_lt_R0 T HT) as HsT.
  assert (Hnum : 0 <= 0 + py_mul (r + py_mul 0.5 (underflow (sigma * sigma))) T).
  { assert (0 <= underflow (sigma * sigma)) by (apply underflow_nonneg; nra).
    assert (0 <= py_mul 0.5 (underflow (sigma * sigma)))
      by (apply py_mul_nonneg; lra).
    assert (0 <= py_mul (r + py_mul 0.5 (underflow (sigma * sigma))) T)
      by (apply py_mul_nonneg; unfold r; lra).
    lra. }
  assert (Hden : 0 <= py_mul sigma (sqrt T)) by (apply py_mul_nonneg; lra).
  unfold py_div. destruct (Req_dec_T (py_mul sigma (sqrt T)) 0) as [_ | Hne];
    [discriminate |].
  intros E. injection E as <-. apply underflow_nonneg.
  apply Rmult_le_pos; [exact Hnum |].
  left. apply Rinv_0_lt_compat. lra.
Qed.

(** The example of the refutation: no operation overflows or underflows,
    and d1 = 1.025. *)
Lemma d1_atm_example : d1_of 100 100 2 1 = Ok 1.025.
Proof.
  unfold d1_of, py_div at 1.
  destruct (Req_dec_T 100 0) as [E | _]; [lra |]. cbn [bind].
  replace (100 / 100) with 1 by lra.
  rewrite underflow_id by (rewrite Rabs_R1; lra).
  unfold math_log. destruct (Rle_dec 1 0) as [E | _]; [lra |]. cbn [bind].
  rewrite ln_1. unfold py_pow2.
  destruct (Rle_dec FLOAT_OVERFLOW (2 * 2)) as [E | _];
    [pose proof FLOAT_OVERFLOW_large; lra |].
  cbn [bind].
  rewrite (underflow_id (2 * 2)) by (rewrite Rabs_pos_eq; lra).
  unfold math_sqrt. destruct (Rlt_dec 1 0) as [E | _]; [lra |]. cbn [bind].
  rewrite sqrt_1. unfold py_mul, r.
  rewrite (underflow_id (0.5 * (2 * 2))) by (rewrite Rabs_pos_eq; lra).
  rewrite (underflow_id ((0.05 + 0.5 * (2 * 2)) * 1))
    by (rewrite Rabs_pos_eq; lra).
  rewrite (underflow_id (2 * 1)) by (rewrite Rabs_pos_eq; lra).
  unfold py_div. destruct (Req_dec_T (2 * 1) 0) as [E | _]; [lra |].
  rewrite underflow_id by (rewrite Rabs_pos_eq; lra).
  f_equal. lra.
Qed.

Lemma try_except_returns {A : Type} (m : result A) (h : A) :
  returns (try_except m h).
Proof. destruct m; simpl; eexists; reflexivity. Qed.

(** C1 (as stated, refuted).  At the money with S = K = 100, an implied
    volatility of 200% and 365 days to expiry, d1 = 1.025 and the call delta
    returned by [calculate_delta] is above 0.7, outside the interval
    (0.4, 0.7). *)
Lemma C1_atm_delta_leaves_interval :
  exists v, calculate_delta 100 100 2 (Some 365%Z) "call" = Ok v
            /\ ~ (0.4 < v < 0.7).
Proof.
  assert (HT : calculate_days_to_expiration (Some 365%Z) = 1).
  { unfold calculate_days_to_expiration.
    change (Z.max 1 365) with 365%Z. lra. }
  exists (norm_cdf 1.025). split.
  - unfold calculate_delta, calculate_delta_body. rewrite HT.
    destruct (Rle_dec 2 0) as [E | _]; [lra |].
    destruct (Rle_dec 1 0) as [E | _]; [lra |].
    rewrite d1_atm_example. cbn [bind]. unfold py_div.
    destruct (Req_dec_T 100 0) as [E | _]; [lra |]. reflexivity.
  - intros [_ Hup]. unfold norm_cdf in Hup.
    assert (Hi : 1 * gauss 1 <= RiemannInt (gauss_integrable 0 1.025))
      by (apply gauss_integral_lower; lra).
    pose proof sqrt_2PI_pos as Hs.
    pose proof (gauss_pos 1) as Hg.
    assert (Hg2 : / 3 <= gauss 1 * gauss 1).
    { unfold gauss. rewrite <- exp_plus.
      replace (- (1 * 1) / 2 + - (1 * 1) / 2) with (- (1)) by lra.
      rewrite exp_Ropp. apply Rinv_le_contravar; [apply exp_pos | apply exp_le_3]. }
    assert (Hs2 : sqrt (2 * PI) * sqrt (2 * PI) <= 8).
    { rewrite sqrt_sqrt; pose proof PI_RGT_0; pose proof PI_4; lra. }
    assert (Hgs : 0.2 * sqrt (2 * PI) <= gauss 1) by nra.
    assert (Hq : 0.2 <= RiemannInt (gauss_integrable 0 1.025) / sqrt (2 * PI)).
    { apply (Rmult_le_reg_r (sqrt (2 * PI))); [exact Hs |].
      unfold Rdiv. rewrite Rmult_assoc, Rinv_l by lra. lra. }
    lra.
Qed.

(** C1 (amended).  At the money (S = K > 0) with a positive implied
    volatility and any expiration string, [calculate_delta] for a call
    returns a value strictly above 0.4: it is the default 0.5 when the
    computation of d1 raises (an implied volatility whose square overflows,
    or a divisor that underflows to zero), and otherwise the distribution
    function at a d1 that is not negative.  No upper bound of 0.7 is
    claimed. *)
Theorem C1_atm_call_delta_above_0_4 (S sigma : R) (e : option Z) :
  0 < S -> 0 < sigma ->
  exists v, calculate_delta S S sigma e "call" = Ok v /\ 0.4 < v.
Proof.
  intros HS Hs. pose proof (days_to_expiration_pos e) as HT.
  unfold calculate_delta, calculate_delta_body.
  destruct (Rle_dec sigma 0) as [E | _]; [lra |].
  destruct (Rle_dec _ 0) as [E | _]; [lra |].
  change (delta_default "call") with 0.5. change (is_call "call") with true.
  destruct (d1_of S S sigma (calculate_days_to_expiration e)) as [d1 |] eqn:Ed1;
    cbn [bind try_except]; [| exists 0.5; split; [reflexivity | lra]].
  unfold py_div. destruct (Req_dec_T S 0) as [E | _]; [lra |].
  cbn [bind try_except]. exists (norm_cdf d1). split; [reflexivity |].
  pose proof (norm_cdf_at_least_half d1
                (d1_atm_nonneg S sigma _ d1 HS Hs HT Ed1)).
  lra.
Qed.

Lemma C1_atm_call_delta_witness :
  0 < 100 /\ 0 < 0.2 /\
  exists v, calculate_delta 100 100 0.2 None "call" = Ok v /\ 0.4 < v.
Proof.
  split; [lra |]. split; [lra |].
  apply (C1_atm_call_delta_above_0_4 100 0.2 None); lra.
Defined.

(** C9.  Whenever sigma <= 0 (or the computed time to expiry is <= 0) the
    four Greek functions return their sentinels: 0.5 for a call delta and
    -0.5 otherwise, 0.001 for gamma, -0.05 for theta, 0.01 for vega; and on
    every input each of the four returns a value, none raises. *)
Theorem C9_greeks_degenerate_sentinels
    (S K sigma : R) (e : option Z) (option_type : string) :
  (sigma <= 0 \/ calculate_days_to_expiration e <= 0 ->
   calculate_delta S K sigma e option_type
     = Ok (if String.eqb option_type "call" then 0.5 else -0.5)
   /\ calculate_gamma S K sigma e = Ok 0.001
   /\ calculate_theta S K sigma e option_type = Ok (-0.05)
   /\ calculate_vega S K sigma e = Ok 0.01)
  /\ returns (calculate_delta S K sigma e option_type)
  /\ returns (calculate_gamma S K sigma e)
  /\ returns (calculate_theta S K sigma e option_type)
  /\ returns (calculate_vega S K sigma e).
Proof.
  split.
  - intros Hdeg.
    unfold calculate_delta, calculate_delta_body, calculate_gamma,
      calculate_gamma_body, calculate_theta, calculate_theta_body,
      calculate_vega, calculate_vega_body, delta_default, is_call.
    destruct (Rle_dec sigma 0) as [Hs | Hs].
    + repeat split; reflexivity.
    + destruct (Rle_dec (calculate_days_to_expiration e) 0) as [HT | HT].
      * repeat split; reflexivity.
      * destruct Hdeg; contradiction.
  - repeat split; apply try_except_returns.
Qed.

Lemma C9_greeks_degenerate_witness :
  calculate_delta 100 110 0 None "put" = Ok (-0.5)
  /\ calculate_gamma 100 110 0 None = Ok 0.001
  /\ calculate_theta 100 110 0 None "put" = Ok (-0.05)
  /\ calculate_vega 100 110 0 None = Ok 0.01.
Proof.
  apply (proj1 (C9_greeks_degenerate_sentinels 100 110 0 None "put")).
  left. lra.
Defined.

End GreeksFacts.

(** ** Cache layer *)

Section JsonFacts.

Variable P : json -> Prop.
Hypothesis HNull : P JNull.
Hypothesis HBool : forall b, P (JBool b).
Hypothesis HInt : forall n, P (JInt n).
Hypothesis HReal : forall q, P (JReal q).
Hypothesis HString : forall s, P (JString s).
Hypothesis HArray : forall items, Forall P items -> P (JArray items).
Hypothesis HObject :
  forall fields, Forall (fun kv => P (snd kv)) fields -> P (JObject fields).

Fixpoint json_nested_ind (j : json) : P j :=
  match j with
  | JNull => HNull
  | JBool b => HBool b
  | JInt n => HInt n
  | JReal q => HReal q
  | JString s => HString s
  | JArray items =>
      HArray items
        ((fix go (l : list json) : Forall P l :=
            match l with
            | [] => List.Forall_nil P
            | x :: t => List.Forall_cons P x t (json_nested_ind x) (go t)
            end) items)
  | JObject fields =>
      HObject fields
        ((fix go (l : list (string * json)) : Forall (fun kv => P (snd kv)) l :=
            match l with
            | [] => List.Forall_nil _
            | x :: t => List.Forall_cons _ x t (json_nested_ind (snd x)) (go t)
            end) fields)
  end.

End JsonFacts.

Lemma json_dumps_loads (j : json) : json_dumps (json_loads j) = j.
Proof.
  induction j using json_nested_ind; simpl; try reflexivity.
  - f_equal. rewrite List.map_map.
    induction H as [| x t Hx _ IH]; simpl; [reflexivity |].
    rewrite Hx. f_equal. exact IH.
  - f_equal. rewrite List.map_map.
    induction H as [| [k x] t Hx _ IH]; simpl; [reflexivity |].
    simpl in Hx. rewrite Hx. f_equal. exact IH.
Qed.

Lemma json_roundtrip_idempotent (v : pyval) :
  json_roundtrip (json_roundtrip v) = json_roundtrip v.
Proof. unfold json_roundtrip. rewrite json_dumps_loads. reflexivity. Qed.

Section CacheFacts.
Import Cache.

Lemma Qlt_now_ttl (now : Q) (ttl : Z) : (0 < ttl)%Z -> (now < now + inject_Z ttl)%Q.
Proof.
  intros H. rewrite <- (Qplus_0_r now) at 1.
  apply Qplus_lt_r. unfold Qlt. simpl. lia.
Qed.

Lemma get_after_set_fallback (k : string) (v : pyval) (ttl : Z) (now : Q)
    (up : bool) (st : state) :
  (0 < ttl)%Z -> redis_path st up = false ->
  fst (get_cache k now up (set_cache k v ttl now up st)) = v.
Proof.
  intros Httl Hpath. unfold get_cache, set_cache, redis_lookup, redis_path in *.
  destruct (redis_client st) as [server |] eqn:Hrc; [subst up |];
    simpl; rewrite ?Hrc; simpl; rewrite lookup_insert_eq;
    (destruct (Qlt_le_dec now (now + inject_Z ttl)) as [_ | Hle];
     [reflexivity |]);
    exfalso; apply (Qlt_not_le _ _ (Qlt_now_ttl now ttl Httl)); exact Hle.
Qed.

Lemma get_after_set_redis (k : string) (v : pyval) (ttl : Z) (now : Q)
    (up : bool) (st : state) :
  (0 < ttl)%Z -> redis_path st up = true ->
  fst (get_cache k now up (set_cache k v ttl now up st)) = json_roundtrip v.
Proof.
  intros Httl Hpath. unfold get_cache, set_cache, redis_lookup, redis_path in *.
  destruct (redis_client st) as [server |] eqn:Hrc; [| discriminate].
  subst up. unfold redis_setex.
  destruct (0 <? ttl)%Z eqn:Hpos; [| apply Z.ltb_ge in Hpos; lia].
  cbn [redis_client _memory_cache]. unfold redis_get.
  rewrite lookup_insert_eq.
  destruct (Qlt_le_dec now (now + inject_Z ttl)) as [_ | Hle]; [reflexivity |].
  exfalso. apply (Qlt_not_le _ _ (Qlt_now_ttl now ttl Httl)). exact Hle.
Qed.

Lemma set_cache_fallback_stores (k : string) (v : pyval) (ttl : Z) (now : Q)
    (up : bool) (st : state) :
  redis_path st up = false ->
  _memory_cache (set_cache k v ttl now up st) !! k
    = Some (v, (now + inject_Z ttl)%Q).
Proof.
  intros Hpath. unfold set_cache, redis_path in *.
  destruct (redis_client st) as [server |] eqn:Hrc; [subst up |];
    cbn; apply lookup_insert_eq.
Qed.

(** C3 (as stated, refuted).  Without a Redis client, caching the tuple
    (1, 2) and reading it back at once returns the tuple itself, which is
    not the value after a JSON round-trip (the list [1, 2]). *)
Lemma C3_fallback_keeps_tuple :
  let v := PyTuple [PyInt 1; PyInt 2] in
  fst (get_cache "k" 0 false (set_cache "k" v 300 0 false (mkState None ∅))) = v
  /\ v <> json_roundtrip v.
Proof.
  split.
  - apply get_after_set_fallback; [lia | reflexivity].
  - discriminate.
Qed.

(** C3 (amended).  For every key, value and positive ttl, [set_cache]
    followed at once by [get_cache] (same clock, same Redis availability)
    returns the JSON round-trip of the value when Redis serves the calls,
    and the stored value itself, not serialised, on the in-process
    fallback; in both cases the result equals the value up to a JSON
    round-trip. *)
Theorem C3_cache_roundtrip (k : string) (v : pyval) (ttl : Z) (now : Q)
    (up : bool) (st : state) :
  (0 < ttl)%Z ->
  let w := fst (get_cache k now up (set_cache k v ttl now up st)) in
  (if redis_path st up then w = json_roundtrip v else w = v)
  /\ json_roundtrip w = json_roundtrip v.
Proof.
  intros Httl w. subst w.
  destruct (redis_path st up) eqn:Hpath.
  - rewrite get_after_set_redis by assumption.
    split; [reflexivity | apply json_roundtrip_idempotent].
  - rewrite get_after_set_fallback by assumption.
    split; reflexivity.
Qed.

Lemma C3_cache_roundtrip_witness :
  let v := PyDict [("price", PyFloat 1.5); ("tags", PyTuple [PyStr "a"])] in
  let st := mkState (Some ∅) ∅ in
  let w := fst (get_cache "q" 10 true (set_cache "q" v 300 10 true st)) in
  (if redis_path st true then w = json_roundtrip v else w = v)
  /\ json_roundtrip w = json_roundtrip v.
Proof.
  intros v st.
  apply (C3_cache_roundtrip "q" v 300 10 true st). lia.
Defined.

(** C4 (as stated, refuted).  A value is written to Redis with a long ttl,
    then the same key is written while Redis is unreachable, so the entry
    lands in the in-process map with expiration 15.  A read at time 20,
    past that expiration, with Redis reachable again, returns the Redis
    value and leaves the expired entry in the map. *)
Lemma C4_expired_entry_shadowed_by_redis :
  let st1 := set_cache "k" (PyInt 1) 1000 0 true (mkState (Some ∅) ∅) in
  let st2 := set_cache "k" (PyInt 2) 10 5 false st1 in
  let r := get_cache "k" 20 true st2 in
  _memory_cache st2 !! "k" = Some (PyInt 2, (5 + inject_Z 10)%Q)
  /\ (5 + inject_Z 10 <= 20)%Q
  /\ fst r = PyInt 1
  /\ _memory_cache (snd r) !! "k" = Some (PyInt 2, (5 + inject_Z 10)%Q).
Proof.
  cbn zeta.
  assert (Hst2 : _memory_cache
                   (set_cache "k" (PyInt 2) 10 5 false
                      (set_cache "k" (PyInt 1) 1000 0 true (mkState (Some ∅) ∅)))
                 !! "k" = Some (PyInt 2, (5 + inject_Z 10)%Q)).
  { apply set_cache_fallback_stores. reflexivity. }
  split; [exact Hst2 |].
  split; [unfold Qle; simpl; lia |].
  unfold get_cache, redis_lookup.
  unfold set_cache at 1 3. cbn [redis_client _memory_cache redis_setex].
  unfold set_cache at 1 2. cbn [redis_client _memory_cache redis_setex Z.ltb Z.compare].
  unfold redis_get. rewrite lookup_insert_eq.
  destruct (Qlt_le_dec 20 (0 + inject_Z 1000)) as [_ | Hle].
  - split; [reflexivity |]. cbn [snd].
    cbn [set_cache redis_client _memory_cache redis_setex].
    apply lookup_insert_eq.
  - exfalso. revert Hle. unfold Qle. simpl. lia.
Qed.

(** C4 (amended).  If the in-process map holds (v, expires_at) under the
    key and the Redis lookup of this read yields no value (no client, the
    call fails, or the key is absent or expired there), then a read at
    now >= expires_at returns None and removes the entry from the map, and
    a read strictly before expires_at returns v and leaves the state as it
    is. *)
Theorem C4_fallback_expiry (k : string) (v : pyval) (expires_at now : Q)
    (up : bool) (st : state) :
  _memory_cache st !! k = Some (v, expires_at) ->
  redis_lookup k now up st = None ->
  ((expires_at <= now)%Q ->
     fst (get_cache k now up st) = PyNone
     /\ _memory_cache (snd (get_cache k now up st)) !! k = None
     /\ _memory_cache (snd (get_cache k now up st)) = delete k (_memory_cache st))
  /\ ((now < expires_at)%Q -> get_cache k now up st = (v, st)).
Proof.
  intros Hmem Hmiss. unfold get_cache. rewrite Hmiss, Hmem.
  destruct (Qlt_le_dec now expires_at) as [Hlt | Hle]; split.
  - intros Hexp. exfalso. exact (Qlt_not_le _ _ Hlt Hexp).
  - reflexivity.
  - intros _. cbn. split; [reflexivity |].
    split; [apply lookup_delete_eq | reflexivity].
  - intros Hlt. exfalso. exact (Qlt_not_le _ _ Hlt Hle).
Qed.

Lemma C4_fallback_expiry_witness :
  let st := set_cache "k" (PyStr "quote") 30 100 false (mkState None ∅) in
  fst (get_cache "k" 130 false st) = PyNone
  /\ _memory_cache (snd (get_cache "k" 130 false st)) !! "k" = None
  /\ _memory_cache (snd (get_cache "k" 130 false st))
     = delete "k" (_memory_cache st).
Proof.
  intros st.
  apply (proj1 (C4_fallback_expiry "k" (PyStr "quote") (100 + inject_Z 30)%Q
                  130 false st
                  (set_cache_fallback_stores "k" (PyStr "quote") 30 100 false
                     (mkState None ∅) eq_refl)
                  eq_refl)).
  unfold Qle. simpl. lia.
Defined.

End CacheFacts.

(** ** Technical indicators *)

Section SeriesFacts.

Context {A B : Type}.

Lemma combine_map_seq (d : A) (f : nat -> B) (l : list A) :
  combine l (List.map f (seq 0 (length l)))
  = List.map (fun i => (nth i l d, f i)) (seq 0 (length l)).
Proof.
  revert f. induction l as [| a l IH]; intros f; [reflexivity |].
  cbn [length seq List.map combine nth]. f_equal.
  rewrite <- seq_shift, !List.map_map. apply IH.
Qed.

Lemma combine_maps_seq {C : Type} (f : nat -> A) (g : nat -> B) (h : A * B -> C)
    (s n : nat) :
  List.map h (combine (List.map f (seq s n)) (List.map g (seq s n)))
  = List.map (fun i => h (f i, g i)) (seq s n).
Proof.
  revert s. induction n as [| n IH]; intros s; [reflexivity |].
  cbn [seq List.map combine]. f_equal. apply IH.
Qed.

(** Filtering an indexed family that fails the test below [a] and passes
    it from [a] on keeps exactly the indices from [a]. *)
Lemma filter_map_seq_from (p : B -> bool) (g : nat -> B) (a n : nat) :
  (forall i, (i < a)%nat -> (i < n)%nat -> p (g i) = false) ->
  (forall i, (a <= i)%nat -> (i < n)%nat -> p (g i) = true) ->
  List.filter p (List.map g (seq 0 n)) = List.map g (seq a (n - a)).
Proof.
  intros Hlow Hhigh.
  assert (Hnone : forall s len, (s + len <= a)%nat -> (s + len <= n)%nat ->
            List.filter p (List.map g (seq s len)) = []).
  { intros s len. revert s. induction len as [| len IH]; intros s H1 H2;
      [reflexivity |].
    cbn [seq List.map List.filter]. rewrite Hlow by lia. apply IH; lia. }
  assert (Hall : forall s len, (a <= s)%nat -> (s + len <= n)%nat ->
            List.filter p (List.map g (seq s len)) = List.map g (seq s len)).
  { intros s len. revert s. induction len as [| len IH]; intros s H1 H2;
      [reflexivity |].
    cbn [seq List.map List.filter]. rewrite Hhigh by lia. f_equal. apply IH; lia. }
  destruct (le_lt_dec a n) as [Han | Han].
  - replace n with (a + (n - a))%nat at 1 by lia.
    rewrite seq_app, List.map_app, List.filter_app.
    rewrite Hnone by lia. rewrite Hall by lia. reflexivity.
  - replace (n - a)%nat with 0%nat by lia. apply Hnone; lia.
Qed.

End SeriesFacts.

Section IndicatorFacts.
Import Indicators.

Lemma emit_indexed (times : list Z) (f v : nat -> fl) (a : nat) :
  (forall i, (i < a)%nat -> (i < length times)%nat -> f i = NaN) ->
  (forall i, (a <= i)%nat -> (i < length times)%nat ->
             f i = v i /\ fl_isnan (v i) = false) ->
  emit times (List.map f (seq 0 (length times)))
  = List.map (fun i => (nth i times 0%Z, v i)) (seq a (length times - a)).
Proof.
  intros Hlow Hhigh. unfold emit. rewrite (combine_map_seq 0%Z).
  rewrite (filter_map_seq_from _ _ a).
  - apply List.map_ext_in. intros i Hi. apply in_seq in Hi.
    destruct (Hhigh i) as [-> _]; [lia | lia | reflexivity].
  - intros i H1 H2. cbn [snd]. rewrite Hlow by assumption. reflexivity.
  - intros i H1 H2. cbn [snd]. destruct (Hhigh i H1 H2) as [-> ->]. reflexivity.
Qed.

Lemma fold_fl_add_Fin (l : list Q) (a : Q) :
  fold_left fl_add (List.map Fin l) (Fin a) = Fin (fold_left Qplus l a).
Proof.
  revert a. induction l as [| x l IH]; intros a; [reflexivity |].
  cbn [List.map fold_left fl_add]. apply IH.
Qed.

Lemma Qeq_bool_inject_pos (n : nat) :
  (1 <= n)%nat -> Qeq_bool (inject_Z (Z.of_nat n)) 0 = false.
Proof.
  intros Hn. apply not_true_is_false. intros H. apply Qeq_bool_eq in H.
  unfold Qeq, inject_Z in H. simpl in H. lia.
Qed.

Lemma Qlt_bool_inject_nonneg (n : nat) :
  Qlt_bool (inject_Z (Z.of_nat n)) 0 = false.
Proof.
  unfold Qlt_bool. apply negb_false_iff. apply Qle_bool_iff.
  unfold Qle, inject_Z. simpl. lia.
Qed.

(** The mean of a full window of finite values is the exact mean. *)
Lemma fl_mean_Fin (l : list Q) :
  (1 <= length l)%nat ->
  fl_mean (List.map Fin l) = Fin (Qsum l / inject_Z (Z.of_nat (length l))).
Proof.
  intros Hl. unfold fl_mean, fl_sum. rewrite fold_fl_add_Fin, length_map.
  fold (Qsum l). unfold fl_div.
  cbn [fl_isnan fl_isinf fl_iszero fl_signbit orb].
  rewrite (Qeq_bool_inject_pos _ Hl), Qlt_bool_inject_nonneg, xorb_false_r.
  destruct (Qeq_bool (Qsum l) 0) eqn:Hz; [| reflexivity].
  cbn [andb]. unfold Qlt_bool.
  apply Qeq_bool_eq in Hz.
  assert (Hle : Qle_bool 0 (Qsum l) = true).
  { apply Qle_bool_iff. rewrite Hz. apply Qle_refl. }
  rewrite Hle. reflexivity.
Qed.

Lemma window_Fin (w k : nat) (qs : list Q) :
  firstn w (skipn k (List.map Fin qs)) = List.map Fin (firstn w (skipn k qs)).
Proof. rewrite List.skipn_map, List.firstn_map. reflexivity. Qed.

Lemma window_length {X : Type} (w k : nat) (l : list X) :
  (k + w <= length l)%nat -> length (firstn w (skipn k l)) = w.
Proof. intros H. rewrite length_firstn, length_skipn. lia. Qed.

(** C5.  For a series of n closes and a window w >= 1, [calculate_sma]
    returns the empty list when n < w, and when n >= w exactly n - w + 1
    points, one for each index i from w - 1 to n - 1, whose value is the
    arithmetic mean of the w closes ending at index i. *)
Theorem C5_sma_points (data : list (Z * Q)) (w : nat) :
  (1 <= w)%nat ->
  let n := length data in
  let closes := List.map snd data in
  let point i :=
    (nth i (List.map fst data) 0%Z,
     Fin (Qsum (firstn w (skipn (i + 1 - w) closes)) / inject_Z (Z.of_nat w))) in
  calculate_sma data w = List.map point (seq (w - 1) (n + 1 - w))
  /\ ((n < w)%nat -> calculate_sma data w = [])
  /\ ((w <= n)%nat -> length (calculate_sma data w) = (n - w + 1)%nat).
Proof.
  intros Hw n closes point.
  assert (Heq : calculate_sma data w = List.map point (seq (w - 1) (n + 1 - w))).
  { unfold calculate_sma, rolling_mean, close_column.
    rewrite length_map.
    replace (length data) with (length (List.map fst data)) by apply length_map.
    rewrite (emit_indexed _ _ (fun i => snd (point i)) (w - 1)).
    - rewrite length_map. fold n.
      replace (n - (w - 1))%nat with (n + 1 - w)%nat by lia. reflexivity.
    - intros i H1 H2.
      destruct (i + 1 <? w)%nat eqn:E; [reflexivity |].
      apply Nat.ltb_ge in E. lia.
    - intros i H1 H2. rewrite length_map in H2.
      destruct (i + 1 <? w)%nat eqn:E; [apply Nat.ltb_lt in E; lia |].
      destruct (w =? 0)%nat eqn:E0; [apply Nat.eqb_eq in E0; lia |].
      cbn [orb]. split; [| reflexivity].
      unfold point. cbn [snd]. subst closes.
      rewrite <- (List.map_map snd Fin), window_Fin.
      assert (Hlen : length (firstn w (skipn (i + 1 - w) (List.map snd data))) = w).
      { apply window_length. rewrite length_map. lia. }
      rewrite fl_mean_Fin by lia. rewrite Hlen. reflexivity. }
  split; [exact Heq |]. split.
  - intros Hlt. rewrite Heq. replace (n + 1 - w)%nat with 0%nat by lia. reflexivity.
  - intros Hle. rewrite Heq, length_map, length_seq. lia.
Qed.

Lemma C5_sma_points_witness :
  let data : list (Z * Q) := [(1%Z, 10%Q); (2%Z, 20%Q); (3%Z, 60%Q); (4%Z, 40%Q)] in
  calculate_sma data 3
  = [(3%Z, Fin (Qsum [10%Q; 20%Q; 60%Q] / inject_Z 3));
     (4%Z, Fin (Qsum [20%Q; 60%Q; 40%Q] / inject_Z 3))]
  /\ length (calculate_sma data 3) = 2%nat.
Proof.
  intros data.
  destruct (C5_sma_points data 3 (le_S _ _ (le_S _ _ (le_n 1)))) as [H [_ Hlen]].
  split; [exact H | apply Hlen; repeat constructor].
Defined.

Lemma Qlt_bool_true (a b : Q) : (a < b)%Q -> Qlt_bool a b = true.
Proof.
  intros H. unfold Qlt_bool. apply negb_true_iff, not_true_is_false.
  intros Hle. apply Qle_bool_iff in Hle. exact (Qlt_not_le _ _ H Hle).
Qed.

Lemma Qlt_bool_false (a b : Q) : (b <= a)%Q -> Qlt_bool a b = false.
Proof.
  intros H. unfold Qlt_bool. apply negb_false_iff, Qle_bool_iff. exact H.
Qed.

Lemma Qeq_bool_pos (g : Q) : (0 < g)%Q -> Qeq_bool g 0 = false.
Proof.
  intros H. apply not_true_is_false. intros E. apply Qeq_bool_eq in E.
  rewrite E in H. exact (Qlt_irrefl _ H).
Qed.

Lemma diff_from_length (prev : fl) (xs : list fl) :
  length (diff_from prev xs) = length xs.
Proof.
  revert prev. induction xs as [| x xs IH]; intros prev; [reflexivity |].
  cbn [diff_from length]. f_equal. apply IH.
Qed.

Lemma diff_length (xs : list fl) : length (diff xs) = length xs.
Proof.
  destruct xs as [| x xs]; [reflexivity |].
  cbn [diff length]. f_equal. apply diff_from_length.
Qed.

Lemma diff_from_increasing (xs : list Q) (prev : Q) :
  increasing_from prev xs ->
  Forall Pos (diff_from (Fin prev) (List.map Fin xs)).
Proof.
  revert prev. induction xs as [| x xs IH]; intros prev Hinc;
    cbn [List.map diff_from]; [constructor |].
  destruct Hinc as [Hlt Hrest]. constructor; [| apply IH; exact Hrest].
  unfold fl_sub. cbn [fl_neg].
  destruct (Qeq_bool prev 0) eqn:E; cbn [fl_add].
  - exists x. split; [reflexivity |].
    apply Qeq_bool_eq in E. rewrite E in Hlt. exact Hlt.
  - exists (x + - prev)%Q. split; [reflexivity |].
    rewrite <- (Qplus_opp_r prev). apply Qplus_lt_l. exact Hlt.
Qed.

Lemma where_gt0_Pos (l : list fl) :
  Forall Pos l -> where_ fl_gt0 (Fin 0) l = l.
Proof.
  intros H. unfold where_. induction H as [| x l [g [-> Hg]] _ IH];
    [reflexivity |].
  cbn [List.map fl_gt0]. rewrite (Qlt_bool_true _ _ Hg). f_equal. exact IH.
Qed.

Lemma neg_where_lt0_Pos (l : list fl) :
  Forall Pos l ->
  Forall (fun x => x = NegZero) (List.map fl_neg (where_ fl_lt0 (Fin 0) l)).
Proof.
  intros H. unfold where_. induction H as [| x l [g [-> Hg]] _ IH];
    cbn [List.map]; constructor; [| exact IH].
  cbn [fl_lt0]. rewrite (Qlt_bool_false g 0) by (apply Qlt_le_weak; exact Hg).
  reflexivity.
Qed.

Lemma Forall_window {X : Type} (P : X -> Prop) (w k : nat) (l : list X) :
  Forall P l -> Forall P (firstn w (skipn k l)).
Proof. intros H. apply Forall_take, Forall_drop, H. Qed.

Lemma fold_add_NegZero (l : list fl) (a : Q) :
  Forall (fun x => x = NegZero) l -> fold_left fl_add l (Fin a) = Fin a.
Proof.
  intros H. induction H as [| x l -> _ IH]; [reflexivity |].
  cbn [fold_left fl_add]. exact IH.
Qed.

Lemma fold_add_Pos (l : list fl) :
  Forall Pos l ->
  forall a, (0 <= a)%Q ->
  exists s, fold_left fl_add l (Fin a) = Fin s
            /\ (0 <= s)%Q /\ (l <> [] -> (0 < s)%Q).
Proof.
  intros H. induction H as [| x l [g [-> Hg]] _ IH]; intros a Ha.
  - exists a. split; [reflexivity |]. split; [exact Ha |]. congruence.
  - cbn [fold_left fl_add].
    assert (Hag : (0 < a + g)%Q).
    { apply (Qlt_le_trans _ (0 + g)%Q).
      - rewrite Qplus_0_l. exact Hg.
      - apply Qplus_le_l. exact Ha. }
    destruct (IH (a + g)%Q (Qlt_le_weak _ _ Hag)) as [s [Hs [Hs0 Hs1]]].
    exists s. split; [exact Hs |]. split; [exact Hs0 |]. intros _.
    destruct l as [| y l'].
    + cbn in Hs. injection Hs as <-. exact Hag.
    + apply Hs1. discriminate.
Qed.

Lemma fl_div_by_count (s : Q) (n : nat) :
  (0 <= s)%Q -> (1 <= n)%nat ->
  fl_div (Fin s) (Fin (inject_Z (Z.of_nat n))) = Fin (s / inject_Z (Z.of_nat n)).
Proof.
  intros Hs Hn. unfold fl_div.
  cbn [fl_isnan fl_isinf fl_iszero fl_signbit orb].
  rewrite (Qeq_bool_inject_pos _ Hn), Qlt_bool_inject_nonneg, xorb_false_r.
  rewrite (Qlt_bool_false s 0 Hs), andb_false_r. reflexivity.
Qed.

Lemma inject_count_pos (n : nat) : (1 <= n)%nat -> (0 < inject_Z (Z.of_nat n))%Q.
Proof. intros H. unfold Qlt, inject_Z. simpl. lia. Qed.

(** The rolling mean of the gains over a full window is positive. *)
Lemma gain_window_mean (p k : nat) (tail : list fl) :
  (2 <= p)%nat -> Forall Pos tail -> (k + p <= S (length tail))%nat ->
  exists m, fl_mean (firstn p (skipn k (Fin 0 :: tail))) = Fin m /\ (0 < m)%Q.
Proof.
  intros Hp Htail Hk.
  assert (Hlen : length (firstn p (skipn k (Fin 0 :: tail))) = p).
  { apply window_length. cbn [length]. lia. }
  assert (Hsum : exists s, fl_sum (firstn p (skipn k (Fin 0 :: tail))) = Fin s
                           /\ (0 < s)%Q).
  { unfold fl_sum. destruct k as [| k].
    - destruct p as [| p]; [lia |].
      cbn [skipn firstn fold_left fl_add].
      destruct (fold_add_Pos (firstn p tail)
                  (Forall_window Pos p 0 tail Htail) (0 + 0)%Q)
        as [s [Hs [_ Hpos]]]; [discriminate |].
      exists s. split; [exact Hs |]. apply Hpos.
      intros E. apply (f_equal (@length fl)) in E.
      rewrite length_firstn in E. cbn [length] in E. lia.
    - cbn [skipn].
      destruct (fold_add_Pos (firstn p (skipn k tail))
                  (Forall_window Pos p k tail Htail) 0%Q)
        as [s [Hs [_ Hpos]]]; [discriminate |].
      exists s. split; [exact Hs |]. apply Hpos.
      intros E. apply (f_equal (@length fl)) in E.
      rewrite window_length in E by lia. cbn [length] in E. lia. }
  destruct Hsum as [s [Hs Hspos]].
  unfold fl_mean. rewrite Hs, Hlen.
  rewrite fl_div_by_count by (try apply Qlt_le_weak; try assumption; lia).
  eexists. split; [reflexivity |].
  apply Qlt_shift_div_l; [apply inject_count_pos; lia |].
  rewrite Qmult_0_l. exact Hspos.
Qed.

(** The rolling mean of the losses over a full window is zero. *)
Lemma loss_window_mean (p k : nat) (l : list fl) :
  (1 <= p)%nat -> Forall (fun x => x = NegZero) l -> (k + p <= length l)%nat ->
  exists z, fl_mean (firstn p (skipn k l)) = Fin z /\ (z == 0)%Q.
Proof.
  intros Hp Hl Hk. unfold fl_mean, fl_sum.
  rewrite fold_add_NegZero by (apply Forall_window; exact Hl).
  rewrite window_length by exact Hk.
  rewrite fl_div_by_count by (try apply Qle_refl; lia).
  eexists. split; [reflexivity |].
  unfold Qdiv. apply Qmult_0_l.
Qed.

Lemma rs_zero_loss (m z : Q) :
  (0 < m)%Q -> (z == 0)%Q -> fl_div (Fin m) (Fin z) = PInf.
Proof.
  intros Hm Hz. unfold fl_div.
  cbn [fl_isnan fl_isinf fl_iszero fl_signbit orb].
  assert (Ez : Qeq_bool z 0 = true) by (apply Qeq_bool_iff; exact Hz).
  rewrite Ez, (Qeq_bool_pos _ Hm).
  rewrite (Qlt_bool_false m 0) by (apply Qlt_le_weak; exact Hm).
  rewrite (Qlt_bool_false z 0) by (rewrite Hz; apply Qle_refl).
  reflexivity.
Qed.

Lemma diff_increasing_shape (qs : list Q) :
  strictly_increasing qs -> qs <> [] ->
  exists tail, diff (List.map Fin qs) = NaN :: tail
               /\ Forall Pos tail /\ S (length tail) = length qs.
Proof.
  intros Hinc Hne. destruct qs as [| q qs]; [congruence |].
  exists (diff_from (Fin q) (List.map Fin qs)). cbn [List.map diff].
  split; [reflexivity |]. split.
  - apply diff_from_increasing. exact Hinc.
  - rewrite diff_from_length, length_map. reflexivity.
Qed.

(** On a strictly increasing series every RSI value that is emitted is
    100, for every period of at least two. *)
Lemma rsi_increasing (data : list (Z * Q)) (p : nat) :
  (2 <= p)%nat -> (p <= length data)%nat ->
  strictly_increasing (List.map snd data) ->
  calculate_rsi data p
  = List.map (fun i => (nth i (List.map fst data) 0%Z, Fin 100))
             (seq (p - 1) (length data - (p - 1))).
Proof.
  intros Hp Hn Hinc. unfold calculate_rsi, close_column.
  rewrite <- (List.map_map snd Fin).
  destruct (diff_increasing_shape (List.map snd data) Hinc)
    as [tail [Hdiff [Htail Hlen]]].
  { intros E. apply (f_equal (@length Q)) in E.
    rewrite length_map in E. cbn [length] in E. lia. }
  rewrite length_map in Hlen. rewrite Hdiff.
  assert (Hgain : where_ fl_gt0 (Fin 0) (NaN :: tail) = Fin 0 :: tail).
  { unfold where_. cbn [List.map fl_gt0]. f_equal.
    apply (where_gt0_Pos tail Htail). }
  assert (Hloss : Forall (fun x => x = NegZero)
                    (List.map fl_neg (where_ fl_lt0 (Fin 0) (NaN :: tail)))).
  { unfold where_. cbn [List.map fl_lt0]. constructor; [reflexivity |].
    apply (neg_where_lt0_Pos tail Htail). }
  assert (Hlosslen :
            length (List.map fl_neg (where_ fl_lt0 (Fin 0) (NaN :: tail)))
            = length data).
  { unfold where_. rewrite !length_map. cbn [length]. exact Hlen. }
  rewrite Hgain. unfold rolling_mean.
  rewrite Hlosslen. cbn [length]. rewrite Hlen.
  rewrite List.map_map.
  rewrite (combine_maps_seq _ _
             (fun x : fl * fl =>
                fl_sub (Fin 100)
                  (fl_div (Fin 100) (fl_add (Fin 1) (fl_div (fst x) (snd x)))))).
  replace (length data) with (length (List.map fst data)) by apply length_map.
  apply emit_indexed.
  - intros i H1 H2. cbn [fst snd].
    assert (E : (i + 1 <? p)%nat = true) by (apply Nat.ltb_lt; lia).
    rewrite E. reflexivity.
  - intros i H1 H2. rewrite length_map in H2. cbn [fst snd].
    assert (E : (i + 1 <? p)%nat = false) by (apply Nat.ltb_ge; lia).
    assert (E0 : (p =? 0)%nat = false) by (apply Nat.eqb_neq; lia).
    rewrite E, E0. cbn [orb].
    destruct (gain_window_mean p (i + 1 - p) tail) as [m [-> Hm]];
      [lia | exact Htail | lia |].
    destruct (loss_window_mean p (i + 1 - p) _ ltac:(lia) Hloss)
      as [z [-> Hz]]; [lia |].
    rewrite (rs_zero_loss m z Hm Hz). split; reflexivity.
Qed.

(** C6.  On a strictly increasing series of at least 15 closes,
    [calculate_rsi] with period 14 emits one point for every index from 13
    on; the trailing average loss is zero and each emitted value is exactly
    100, so every emitted value lies in [0, 100]. *)
Theorem C6_rsi_increasing_series (data : list (Z * Q)) :
  strictly_increasing (List.map snd data) ->
  (15 <= length data)%nat ->
  calculate_rsi data 14
  = List.map (fun i => (nth i (List.map fst data) 0%Z, Fin 100))
             (seq 13 (length data - 13))
  /\ length (calculate_rsi data 14) = (length data - 13)%nat
  /\ Forall (fun pt => exists q, snd pt = Fin q /\ (0 <= q)%Q /\ (q <= 100)%Q)
            (calculate_rsi data 14).
Proof.
  intros Hinc Hn.
  assert (Heq := rsi_increasing data 14 ltac:(lia) ltac:(lia) Hinc).
  change (14 - 1)%nat with 13%nat in Heq.
  split; [exact Heq |]. split.
  - rewrite Heq, length_map, length_seq. reflexivity.
  - rewrite Heq. apply List.Forall_forall. intros pt Hpt.
    apply List.in_map_iff in Hpt. destruct Hpt as [i [<- _]].
    exists 100%Q. split; [reflexivity |]. split; discriminate.
Qed.

Lemma C6_rsi_increasing_witness :
  let data := List.map (fun i => (Z.of_nat i, inject_Z (Z.of_nat (i * i + 1))))
                       (seq 0 16) in
  calculate_rsi data 14
  = List.map (fun i => (nth i (List.map fst data) 0%Z, Fin 100)) (seq 13 3)
  /\ length (calculate_rsi data 14) = 3%nat
  /\ Forall (fun pt => exists q, snd pt = Fin q /\ (0 <= q)%Q /\ (q <= 100)%Q)
            (calculate_rsi data 14).
Proof.
  intros data.
  apply (C6_rsi_increasing_series data).
  - cbv. intuition discriminate.
  - cbv. lia.
Defined.

End IndicatorFacts.

(** ** Portfolio weights *)

Section PortfolioFacts.
Import Portfolio.

Lemma map_result_length {A B : Type} (f : A -> result B) (l : list A)
    (out : list B) :
  map_result f l = Ok out -> length out = length l.
Proof.
  revert out. induction l as [| a l IH]; intros out H.
  - injection H as <-. reflexivity.
  - cbn [map_result] in H. destruct (f a) as [b |]; [| discriminate].
    cbn [bind] in H. destruct (map_result f l) as [bs |]; [| discriminate].
    cbn [bind] in H. injection H as <-. cbn [length]. f_equal. apply IH.
    reflexivity.
Qed.

(** Weights within the tolerance are used as supplied, without a log
    line. *)
Lemma weights_within_tolerance_kept (symbols : list string)
    (w : list (string * Q)) :
  (Qabs (py_sum (List.map snd w) - 1) <= 1 # 100)%Q ->
  calculate_portfolio_metrics_weights symbols (Some w) = Ok (w, []).
Proof.
  intros H. unfold calculate_portfolio_metrics_weights. cbn [bind].
  destruct (Qlt_le_dec _ _) as [Hlt | _]; [| reflexivity].
  exfalso. exact (Qlt_not_le _ _ Hlt H).
Qed.

(** Outside the tolerance, with a total other than zero, every weight is
    divided by the total and a warning is logged. *)
Lemma weights_outside_tolerance_normalized (symbols : list string)
    (w : list (string * Q)) :
  let total := py_sum (List.map snd w) in
  (1 # 100 < Qabs (total - 1))%Q -> ~ (total == 0)%Q ->
  exists msg,
    calculate_portfolio_metrics_weights symbols (Some w)
    = Ok (List.map (fun kv => (fst kv, (snd kv / total)%Q)) w, [Warning msg]).
Proof.
  intros total Hout Hnz. unfold calculate_portfolio_metrics_weights.
  cbn [bind]. fold total.
  destruct (Qlt_le_dec _ _) as [_ | Hle];
    [| exfalso; exact (Qlt_not_le _ _ Hout Hle)].
  assert (Hmap : forall l,
            map_result (fun kv : string * Q =>
                          v <- py_truediv (snd kv) total ;; Ok (fst kv, v)) l
            = Ok (List.map (fun kv => (fst kv, (snd kv / total)%Q)) l)).
  { induction l as [| kv l IH]; [reflexivity |].
    cbn [map_result List.map]. unfold py_truediv at 1.
    destruct (Qeq_bool total 0) eqn:E;
      [apply Qeq_bool_eq in E; contradiction |].
    cbn [bind]. rewrite IH. reflexivity. }
  rewrite Hmap. cbn [bind]. eexists. reflexivity.
Qed.

(** C10 (the case the code misses).  For the weights {"AAPL": 0.0} the sum
    is 0, which is outside the tolerance, and the renormalising division by
    the total raises ZeroDivisionError: the weight handling does raise. *)
Theorem C10_zero_total_weight_raises :
  calculate_portfolio_metrics_weights ["AAPL"] (Some [("AAPL", 0%Q)])
  = Raise ZeroDivisionError.
Proof. reflexivity. Qed.

End PortfolioFacts.

(** ** Monte Carlo report *)

Section MonteCarloFacts.
Import MonteCarlo.

Variables np_mean np_median np_std : list Q -> Q.
Variable np_percentile : list Q -> Q -> Q.

Lemma argmin_from_bound (l : list Q) (best_i i : nat) (best : Q) :
  (best_i < i)%nat -> (argmin_from best_i best i l < i + length l)%nat.
Proof.
  revert best_i i best. induction l as [| v l IH]; intros best_i i best H.
  - cbn [argmin_from length]. lia.
  - cbn [argmin_from length]. destruct (Qle_bool best v).
    + specialize (IH best_i (S i) best). lia.
    + specialize (IH i (S i) v). lia.
Qed.

Lemma percentile_path_found (paths : list (list Q)) (stats : gmap string Q)
    (key : string) (target : Q) :
  paths <> [] -> stats !! key = Some target ->
  exists path,
    percentile_path paths (final_column paths) stats key = Ok path.
Proof.
  intros Hne Hkey. unfold percentile_path, getitem. rewrite Hkey. cbn [bind].
  unfold np_argmin_abs_diff, final_column.
  destruct paths as [| p0 paths]; [congruence |]. cbn [List.map bind].
  unfold path_at.
  destruct (nth_error (p0 :: paths) _) as [path |] eqn:E;
    [eexists; reflexivity |].
  exfalso. apply nth_error_None in E.
  pose proof (argmin_from_bound
                (List.map (fun v => Qabs (v - target))
                   (List.map (fun path => List.last path 0%Q) paths))
                0 1 (Qabs (List.last p0 0%Q - target)) ltac:(lia)) as Hb.
  rewrite !length_map in Hb. cbn [length] in E. lia.
Qed.

Lemma statistics_lookup (fv : list Q) (ic : Q) (stats : gmap string Q) :
  build_statistics np_mean np_median np_std np_percentile fv ic = Ok stats ->
  stats !! "percentile5" = Some (np_percentile fv 5)
  /\ stats !! "percentile25" = Some (np_percentile fv 25)
  /\ stats !! "percentile50" = None.
Proof.
  unfold build_statistics. intros H.
  destruct (np_min fv) as [mn |]; [| discriminate].
  destruct (np_max fv) as [mx |]; [| discriminate].
  cbn [bind] in H. injection H as <-.
  split; [| split].
  - rewrite !lookup_insert_ne by discriminate. apply lookup_insert_eq.
  - rewrite !lookup_insert_ne by discriminate. apply lookup_insert_eq.
  - rewrite !lookup_insert_ne by discriminate. apply lookup_empty.
Qed.

(** The report of [run_monte_carlo]: with at least one simulated path the
    lookup of 'percentile50' raises KeyError; with none, [np.min] raises
    ValueError while the statistics are built. *)
Lemma run_monte_carlo_report_raises (paths : list (list Q)) (ic : Q)
    (horizon sims : Z) (sample_indices : list nat) :
  run_monte_carlo_report np_mean np_median np_std np_percentile
    paths ic horizon sims sample_indices
  = match paths with
    | [] => Raise (ValueError "zero-size array to reduction operation minimum which has no identity")
    | _ :: _ => Raise (KeyError "percentile50")
    end.
Proof.
  destruct paths as [| p0 paths]; [reflexivity |].
  unfold run_monte_carlo_report.
  destruct (build_statistics np_mean np_median np_std np_percentile
              (final_column (p0 :: paths)) ic) as [stats |] eqn:Hst;
    [| discriminate Hst].
  cbn [bind].
  destruct (statistics_lookup _ _ _ Hst) as [H5 [H25 H50]].
  destruct (percentile_path_found (p0 :: paths) stats _ _ ltac:(discriminate) H5)
    as [path5 ->].
  destruct (percentile_path_found (p0 :: paths) stats _ _ ltac:(discriminate) H25)
    as [path25 ->].
  cbn [bind]. unfold percentile_path at 1, getitem. rewrite H50. reflexivity.
Qed.

End MonteCarloFacts.

(** C2 (as stated, refuted).  With zero simulations the loop completes at
    once, the array of final values is empty, and [np.min] raises
    ValueError while the statistics dictionary is being built: the
    exception is not a KeyError and 'percentile50' is never looked up. *)
Lemma C2_zero_simulations_value_error :
  exists e,
    MonteCarlo.run_monte_carlo_report
      (fun _ => 0%Q) (fun _ => 0%Q) (fun _ => 0%Q) (fun _ _ => 0%Q)
      [] 10000%Q 252%Z 0%Z []
    = Raise e
    /\ e <> KeyError "percentile50".
Proof. eexists. split; [reflexivity | discriminate]. Qed.

(** C2 (amended).  For every input with at least one simulation on which
    the simulation loop completes, [run_monte_carlo] raises
    KeyError('percentile50'): the statistics dictionary has no such key.
    With zero simulations it raises ValueError instead.  In no case does it
    return a result. *)
Theorem C2_monte_carlo_never_returns
    (np_mean np_median np_std : list Q -> Q) (np_percentile : list Q -> Q -> Q)
    (paths : list (list Q)) (ic : Q) (horizon sims : Z)
    (sample_indices : list nat) :
  let run := MonteCarlo.run_monte_carlo_report np_mean np_median np_std
               np_percentile paths ic horizon sims sample_indices in
  (paths <> [] -> run = Raise (KeyError "percentile50"))
  /\ (paths = [] -> exists msg, run = Raise (ValueError msg))
  /\ ~ returns run.
Proof.
  intros run. subst run. rewrite run_monte_carlo_report_raises.
  destruct paths as [| p0 paths].
  - split; [congruence |]. split; [intros _; eexists; reflexivity |].
    intros [r H]. discriminate.
  - split; [reflexivity |]. split; [discriminate |].
    intros [r H]. discriminate.
Qed.

Lemma C2_monte_carlo_witness :
  MonteCarlo.run_monte_carlo_report
    (fun _ => 0%Q) (fun _ => 0%Q) (fun _ => 0%Q) (fun _ _ => 0%Q)
    [[100; 101; 99]%Q; [100; 98; 103]%Q] 100%Q 2%Z 2%Z [0%nat; 1%nat]
  = Raise (KeyError "percentile50").
Proof.
  apply (C2_monte_carlo_never_returns
           (fun _ => 0%Q) (fun _ => 0%Q) (fun _ => 0%Q) (fun _ _ => 0%Q)
           [[100; 101; 99]%Q; [100; 98; 103]%Q] 100%Q 2%Z 2%Z [0%nat; 1%nat]).
  discriminate.
Defined.

(** ** Backtesting engine *)

Section BacktestFacts.
Import Backtest.

Context {F : Type} `{FloatOps F}.

Lemma prepare_insufficient_overlap (w : world)
    (provider : string -> string -> string -> option (list bar))
    (request : request) (common : gset Z) :
  request_symbols request <> [] ->
  length (request_symbols request) = length (effective_weights request) ->
  common_dates_of
    (List.map snd
       (collect_stock_data
          (provider (request_start_date request) (request_end_date w request))
          (request_symbols request)))
  = Some common ->
  (size common < 50)%nat ->
  backtest_prepare w provider request
  = Raise (HTTPException 400 "Insufficient overlapping historical data").
Proof.
  intros Hsym Hlen Hcommon Hsize. unfold backtest_prepare.
  destruct (request_symbols request) as [| sym0 syms] eqn:Es; [congruence |].
  rewrite Hlen, Nat.eqb_refl. cbn [negb].
  destruct (collect_stock_data _ _) as [| sd0 sds] eqn:Ed.
  - cbn in Hcommon. discriminate.
  - rewrite Hcommon.
    assert (E : (size common <? 50)%nat = true) by (apply Nat.ltb_lt; exact Hsize).
    rewrite E, orb_true_r. reflexivity.
Qed.

(** C7.  When the request passes the validation of its symbols and
    weights and the dates common to every symbol whose history was fetched
    are fewer than 50 (none included), the handler fails with HTTP 400 and
    the detail 'Insufficient overlapping historical data'; this holds
    whatever the strategy loop would do, which is therefore not entered. *)
Theorem C7_insufficient_overlap
    (loop : prepared -> result loop_state) (year_of : Z -> Z) (w : world)
    (provider : string -> string -> string -> option (list bar))
    (request : request) (common : gset Z) :
  request_symbols request <> [] ->
  length (request_symbols request) = length (effective_weights request) ->
  common_dates_of
    (List.map snd
       (collect_stock_data
          (provider (request_start_date request) (request_end_date w request))
          (request_symbols request)))
  = Some common ->
  (size common < 50)%nat ->
  backtest_run_with loop year_of w provider request
  = Raise (HTTPException 400 "Insufficient overlapping historical data")
  /\ backtest_strategy year_of w provider request
     = Raise (HTTPException 400 "Insufficient overlapping historical data").
Proof.
  intros Hsym Hlen Hcommon Hsize.
  pose proof (prepare_insufficient_overlap w provider request common
                Hsym Hlen Hcommon Hsize) as Hprep.
  unfold backtest_strategy, backtest_run, backtest_run_with.
  rewrite Hprep. split; reflexivity.
Qed.

(** The statistics read the world for the timestamp only. *)
End BacktestFacts.

Section BacktestExamples.
Import Indicators FlOps Backtest BacktestExample.

Lemma C7_insufficient_overlap_witness :
  backtest_run_with strategy_loop year_of morning short_provider
    (request_for "momentum")
  = Raise (HTTPException 400 "Insufficient overlapping historical data")
  /\ backtest_strategy year_of morning short_provider (request_for "momentum")
     = Raise (HTTPException 400 "Insufficient overlapping historical data").
Proof.
  apply (C7_insufficient_overlap strategy_loop year_of morning short_provider
           (request_for "momentum") (list_to_set [0; 1; 2]%Z)).
  - discriminate.
  - reflexivity.
  - vm_compute. reflexivity.
  - vm_compute. lia.
Defined.

(** The model runs: on the example market the mean-reversion strategy
    trades, and buy-and-hold buys once, on the first day after the
    warm-up. *)
Example buy_and_hold_trades :
  trades_of (backtest_run year_of morning provider (request_for "buy-and-hold"))
  = Ok [(5%Z, "AAPLx", BUY, 45%Z); (5%Z, "TSLAx", BUY, 7%Z)].
Proof. vm_compute. reflexivity. Qed.

Example breakout_trades_first :
  (x <- trades_of (backtest_run year_of morning provider (request_for "breakout")) ;;
   Ok (firstn 3 x))
  = Ok [(5%Z, "AAPLx", BUY, 45%Z); (13%Z, "AAPLx", SELL, 45%Z);
        (16%Z, "TSLAx", BUY, 21%Z)].
Proof. vm_compute. reflexivity. Qed.

(** The response does depend on the clock, through its timestamp. *)
Example timestamp_follows_clock :
  (r <- backtest_strategy year_of morning provider (request_for "buy-and-hold") ;;
   Ok (timestamp r)) = Ok 1735722000000%Z
  /\ (r <- backtest_strategy year_of evening provider (request_for "buy-and-hold") ;;
      Ok (timestamp r)) = Ok 1735758000000%Z.
Proof. split; vm_compute; reflexivity. Qed.

End BacktestExamples.

(** * Further properties of the code *)

(** ** Black-Scholes Greeks *)

Section GreeksMore.
Import Greeks.
Local Open Scope R_scope.

Lemma d1_raises (S K sigma T : R) :
  K = 0 \/ S / K <= 0 -> exists e, d1_of S K sigma T = Raise e.
Proof.
  intros Hbad. unfold d1_of, py_div at 1, math_log.
  destruct (Req_dec_T K 0) as [E | HK]; [eexists; reflexivity |]. cbn [bind].
  destruct Hbad as [E | Hle]; [contradiction |].
  assert (Hq : underflow (S / K) <= 0).
  { unfold underflow. destruct (Rle_dec _ _); lra. }
  destruct (Rle_dec (underflow (S / K)) 0) as [_ | Hn];
    [eexists; reflexivity | contradiction].
Qed.

(** X1.  Put and call delta: for a positive spot, strike and volatility the put
    delta that [calculate_delta] returns is the call delta minus one. *)
Theorem delta_put_is_call_minus_one (S K sigma : R) (e : option Z) :
  0 < S -> 0 < K -> 0 < sigma ->
  exists d, calculate_delta S K sigma e "call" = Ok d
            /\ calculate_delta S K sigma e "put" = Ok (d - 1).
Proof.
  intros HS HK Hs. pose proof (days_to_expiration_pos e) as HT.
  unfold calculate_delta, calculate_delta_body.
  destruct (Rle_dec sigma 0) as [E | _]; [lra |].
  destruct (Rle_dec _ 0) as [E | _]; [lra |].
  change (delta_default "call") with 0.5.
  change (delta_default "put") with (-0.5).
  change (is_call "call") with true. change (is_call "put") with false.
  destruct (d1_of S K sigma (calculate_days_to_expiration e)) as [d1 |];
    cbn [bind try_except].
  - unfold py_div. destruct (Req_dec_T S 0) as [E | _]; [lra |].
    cbn [bind try_except]. eexists. split; reflexivity.
  - exists 0.5. split; [reflexivity |]. f_equal. lra.
Qed.

Lemma delta_put_is_call_minus_one_witness :
  exists d, calculate_delta 100 110 0.3 (Some 45%Z) "call" = Ok d
            /\ calculate_delta 100 110 0.3 (Some 45%Z) "put" = Ok (d - 1).
Proof. apply (delta_put_is_call_minus_one 100 110 0.3 (Some 45%Z)); lra. Defined.

(** X2.  A zero strike, or a spot and strike of opposite sign (or a zero spot),
    makes the division or the logarithm raise; with a positive volatility
    each Greek then returns its default instead of raising. *)
Theorem greeks_default_on_bad_price (S K sigma : R) (e : option Z)
    (option_type : string) :
  0 < sigma -> K = 0 \/ S / K <= 0 ->
  calculate_delta S K sigma e option_type = Ok (delta_default option_type)
  /\ calculate_gamma S K sigma e = Ok 0.001
  /\ calculate_theta S K sigma e option_type = Ok (-0.05)
  /\ calculate_vega S K sigma e = Ok 0.01.
Proof.
  intros Hs Hbad. pose proof (days_to_expiration_pos e) as HT.
  destruct (d1_raises S K sigma (calculate_days_to_expiration e) Hbad) as [x Hx].
  unfold calculate_delta, calculate_delta_body, calculate_gamma,
    calculate_gamma_body, calculate_theta, calculate_theta_body,
    calculate_vega, calculate_vega_body.
  destruct (Rle_dec sigma 0) as [E | _]; [lra |].
  destruct (Rle_dec _ 0) as [E | _]; [lra |].
  rewrite Hx. cbn [bind try_except]. repeat split; reflexivity.
Qed.

Lemma greeks_default_on_bad_price_witness :
  calculate_delta 100 0 0.25 None "put" = Ok (delta_default "put")
  /\ calculate_gamma 100 0 0.25 None = Ok 0.001
  /\ calculate_theta 100 0 0.25 None "put" = Ok (-0.05)
  /\ calculate_vega 100 0 0.25 None = Ok 0.01.
Proof.
  apply (greeks_default_on_bad_price 100 0 0.25 None "put"); [lra |].
  left. reflexivity.
Defined.

(** X3.  The display floors: for finite arguments (the real numbers of this
    model; Python's [max] lets a NaN argument through), the gamma returned
    is at least 0.0001 and the vega at least 0.001, on the computed path
    and on the default paths alike. *)
Theorem gamma_vega_floor (S K sigma : R) (e : option Z) :
  (exists g, calculate_gamma S K sigma e = Ok g /\ 0.0001 <= g)
  /\ (exists v, calculate_vega S K sigma e = Ok v /\ 0.001 <= v).
Proof.
  unfold calculate_gamma, calculate_gamma_body, calculate_vega,
    calculate_vega_body.
  destruct (Rle_dec sigma 0) as [E | _];
    [split; eexists; (split; [reflexivity | lra]) |].
  destruct (Rle_dec _ 0) as [E | _];
    [split; eexists; (split; [reflexivity | lra]) |].
  destruct (d1_of S K sigma _) as [d1 |]; cbn [bind try_except];
    [| split; eexists; (split; [reflexivity | lra])].
  destruct (math_sqrt _) as [sT |]; cbn [bind try_except];
    [| split; eexists; (split; [reflexivity | lra])].
  split.
  - destruct (py_div (norm_pdf d1) _) as [g |]; cbn [bind try_except]; eexists;
      (split; [reflexivity |]); first [apply Rmax_r | lra].
  - destruct (py_div _ 100) as [v |]; cbn [bind try_except]; eexists;
      (split; [reflexivity |]); first [apply Rmax_r | lra].
Qed.

(** X4.  An expiration that is today or in the past counts as one day: the four
    Greeks of such a contract are those of a contract that expires
    tomorrow, and the time to expiry is never below 1/365. *)
Theorem expired_contract_priced_as_one_day (S K sigma : R) (days : Z)
    (option_type : string) :
  (days <= 1)%Z ->
  calculate_days_to_expiration (Some days) = 1 / 365
  /\ calculate_delta S K sigma (Some days) option_type
     = calculate_delta S K sigma (Some 1%Z) option_type
  /\ calculate_gamma S K sigma (Some days) = calculate_gamma S K sigma (Some 1%Z)
  /\ calculate_theta S K sigma (Some days) option_type
     = calculate_theta S K sigma (Some 1%Z) option_type
  /\ calculate_vega S K sigma (Some days) = calculate_vega S K sigma (Some 1%Z).
Proof.
  intros Hd.
  assert (HT : calculate_days_to_expiration (Some days)
               = calculate_days_to_expiration (Some 1%Z)).
  { unfold calculate_days_to_expiration. f_equal. f_equal. lia. }
  unfold calculate_delta, calculate_delta_body, calculate_gamma,
    calculate_gamma_body, calculate_theta, calculate_theta_body,
    calculate_vega, calculate_vega_body.
  rewrite HT. split; [| repeat split].
  unfold calculate_days_to_expiration. change (Z.max 1 1) with 1%Z. reflexivity.
Qed.

Lemma expired_contract_priced_as_one_day_witness :
  calculate_days_to_expiration (Some (-30)%Z) = 1 / 365
  /\ calculate_delta 100 95 0.4 (Some (-30)%Z) "call"
     = calculate_delta 100 95 0.4 (Some 1%Z) "call"
  /\ calculate_gamma 100 95 0.4 (Some (-30)%Z) = calculate_gamma 100 95 0.4 (Some 1%Z)
  /\ calculate_theta 100 95 0.4 (Some (-30)%Z) "call"
     = calculate_theta 100 95 0.4 (Some 1%Z) "call"
  /\ calculate_vega 100 95 0.4 (Some (-30)%Z) = calculate_vega 100 95 0.4 (Some 1%Z).
Proof.
  apply (expired_contract_priced_as_one_day 100 95 0.4 (-30)%Z "call"). lia.
Defined.

End GreeksMore.

(** ** Cache layer *)

Section PyvalInduction.

Variable P : pyval -> Prop.
Hypothesis HNone : P PyNone.
Hypothesis HBool : forall b, P (PyBool b).
Hypothesis HInt : forall n, P (PyInt n).
Hypothesis HFloat : forall q, P (PyFloat q).
Hypothesis HStr : forall s, P (PyStr s).
Hypothesis HList : forall items, Forall P items -> P (PyList items).
Hypothesis HTuple : forall items, Forall P items -> P (PyTuple items).
Hypothesis HDict :
  forall fields, Forall (fun kv => P (snd kv)) fields -> P (PyDict fields).

Fixpoint pyval_nested_ind (v : pyval) : P v :=
  let all :=
    fix all (l : list pyval) : Forall P l :=
      match l with
      | [] => List.Forall_nil P
      | x :: t => List.Forall_cons P x t (pyval_nested_ind x) (all t)
      end in
  match v with
  | PyNone => HNone
  | PyBool b => HBool b
  | PyInt n => HInt n
  | PyFloat q => HFloat q
  | PyStr s => HStr s
  | PyList items => HList items (all items)
  | PyTuple items => HTuple items (all items)
  | PyDict fields =>
      HDict fields
        ((fix go (l : list (string * pyval)) : Forall (fun kv => P (snd kv)) l :=
            match l with
            | [] => List.Forall_nil _
            | x :: t => List.Forall_cons _ x t (pyval_nested_ind (snd x)) (go t)
            end) fields)
  end.

End PyvalInduction.

Lemma tuple_free_roundtrip (v : pyval) :
  tuple_free v = true -> json_roundtrip v = v.
Proof.
  unfold json_roundtrip.
  induction v using pyval_nested_ind; cbn [tuple_free json_dumps json_loads];
    intros Hfree; try reflexivity; try discriminate.
  - f_equal. rewrite List.map_map.
    induction H as [| x t Hx _ IH]; [reflexivity |].
    cbn [forallb] in Hfree. apply andb_prop in Hfree. destruct Hfree as [H1 H2].
    cbn [List.map]. rewrite (Hx H1), (IH H2). reflexivity.
  - f_equal. rewrite List.map_map.
    induction H as [| [k x] t Hx _ IH]; [reflexivity |].
    cbn [forallb snd] in Hfree. apply andb_prop in Hfree.
    destruct Hfree as [H1 H2].
    cbn [List.map fst snd] in *. rewrite (Hx H1), (IH H2). reflexivity.
Qed.

Section CacheMore.
Import Cache.

(** X5.  For a value that holds no tuple the two backends agree: a positive
    ttl, [set_cache] and an immediate [get_cache] give back exactly the
    value that was stored, whether Redis or the in-process map served the
    calls. *)
Theorem cache_returns_tuple_free_value (k : string) (v : pyval) (ttl : Z)
    (now : Q) (up : bool) (st : state) :
  tuple_free v = true -> (0 < ttl)%Z ->
  fst (get_cache k now up (set_cache k v ttl now up st)) = v.
Proof.
  intros Hfree Httl. destruct (redis_path st up) eqn:Hpath.
  - rewrite get_after_set_redis by assumption.
    apply tuple_free_roundtrip. exact Hfree.
  - apply get_after_set_fallback; assumption.
Qed.

Lemma cache_returns_tuple_free_value_witness :
  let v := PyDict [("symbol", PyStr "AAPLx"); ("bars", PyList [PyFloat 1.5; PyNone])] in
  fst (get_cache "chart" 7 true
         (set_cache "chart" v 30 7 true (mkState (Some ∅) ∅))) = v.
Proof.
  intros v.
  apply (cache_returns_tuple_free_value "chart" v 30 7 true (mkState (Some ∅) ∅)).
  - reflexivity.
  - lia.
Defined.

Lemma redis_lookup_set_other (k k' : string) (v : pyval) (ttl : Z)
    (now now' : Q) (up up' : bool) (st : state) :
  k <> k' ->
  redis_lookup k' now' up' (set_cache k v ttl now up st)
  = redis_lookup k' now' up' st.
Proof.
  intros Hne. unfold redis_lookup, set_cache.
  destruct (redis_client st) as [server |] eqn:Hrc;
    [| cbn [redis_client]; rewrite ?Hrc; reflexivity].
  unfold redis_setex. destruct up;
    [| cbn [redis_client]; rewrite ?Hrc; reflexivity].
  destruct (0 <? ttl)%Z; cbn [redis_client]; rewrite ?Hrc; [| reflexivity].
  unfold redis_get. destruct up'; [| reflexivity].
  rewrite lookup_insert_ne by exact Hne. reflexivity.
Qed.

Lemma memory_set_other (k k' : string) (v : pyval) (ttl : Z) (now : Q)
    (up : bool) (st : state) :
  k <> k' ->
  _memory_cache (set_cache k v ttl now up st) !! k' = _memory_cache st !! k'.
Proof.
  intros Hne. unfold set_cache.
  destruct (redis_client st) as [server |]; cbn [_memory_cache];
    [| apply lookup_insert_ne; exact Hne].
  destruct (redis_setex _ _ _ _ _ _); cbn [_memory_cache];
    [reflexivity | apply lookup_insert_ne; exact Hne].
Qed.

(** X6.  Writing one key leaves every other key as it was: what [get_cache]
    returns for k' is the same before and after [set_cache] on k, at any
    time and whatever the state of Redis. *)
Theorem set_cache_other_key (k k' : string) (v : pyval) (ttl : Z)
    (now now' : Q) (up up' : bool) (st : state) :
  k <> k' ->
  fst (get_cache k' now' up' (set_cache k v ttl now up st))
  = fst (get_cache k' now' up' st).
Proof.
  intros Hne. unfold get_cache.
  rewrite (redis_lookup_set_other k k' v ttl now now' up up' st Hne).
  destruct (redis_lookup k' now' up' st); [reflexivity |].
  rewrite (memory_set_other k k' v ttl now up st Hne).
  destruct (_memory_cache st !! k') as [[data expiration] |]; [| reflexivity].
  destruct (Qlt_le_dec now' expiration); reflexivity.
Qed.

Lemma set_cache_other_key_witness :
  let st := set_cache "a" (PyInt 1) 60 0 false (mkState None ∅) in
  fst (get_cache "a" 5 false (set_cache "b" (PyInt 2) 60 1 false st))
  = fst (get_cache "a" 5 false st).
Proof.
  intros st. apply (set_cache_other_key "b" "a" (PyInt 2) 60 1 5 false false st).
  discriminate.
Defined.

(** X7.  A write during a Redis outage is hidden once Redis is back: if Redis
    holds a live document under the key and [set_cache] cannot reach it,
    the new value goes to the in-process map, and a later [get_cache] that
    reaches Redis returns the old document, not the value just written. *)
Theorem stale_read_after_outage (k : string) (v : pyval) (ttl : Z)
    (now now' : Q) (st : state) (server : gmap string (json * Q))
    (doc : json) (expires_at : Q) :
  redis_client st = Some server ->
  server !! k = Some (doc, expires_at) ->
  (now' < expires_at)%Q ->
  let st' := set_cache k v ttl now false st in
  _memory_cache st' !! k = Some (v, (now + inject_Z ttl)%Q)
  /\ get_cache k now' true st' = (json_loads doc, st').
Proof.
  intros Hrc Hdoc Hlive st'. subst st'. split.
  - apply set_cache_fallback_stores. unfold redis_path. rewrite Hrc. reflexivity.
  - unfold get_cache, redis_lookup, set_cache. rewrite Hrc.
    cbn [redis_setex redis_client]. rewrite ?Hrc. unfold redis_get. rewrite Hdoc.
    destruct (Qlt_le_dec now' expires_at) as [_ | Hle]; [reflexivity |].
    exfalso. exact (Qlt_not_le _ _ Hlive Hle).
Qed.

Lemma stale_read_after_outage_witness :
  let st := set_cache "q" (PyStr "old") 3600 0 true (mkState (Some ∅) ∅) in
  let st' := set_cache "q" (PyStr "new") 60 10 false st in
  _memory_cache st' !! "q" = Some (PyStr "new", (10 + inject_Z 60)%Q)
  /\ get_cache "q" 20 true st' = (json_loads (JString "old"), st').
Proof.
  intros st.
  apply (stale_read_after_outage "q" (PyStr "new") 60 10 20 st
           (<["q" := (JString "old", (0 + inject_Z 3600)%Q)]> ∅)
           (JString "old") (0 + inject_Z 3600)%Q).
  - reflexivity.
  - apply lookup_insert_eq.
  - reflexivity.
Defined.

(** X8.  What a read may change: [get_cache] never touches Redis, and in the
    in-process map it can only delete the key that was read; every other
    key keeps its entry and no entry is added. *)
Theorem get_cache_footprint (k : string) (now : Q) (up : bool) (st : state) :
  let st' := snd (get_cache k now up st) in
  redis_client st' = redis_client st
  /\ (forall k', k' <> k -> _memory_cache st' !! k' = _memory_cache st !! k')
  /\ (_memory_cache st' !! k = _memory_cache st !! k
      \/ _memory_cache st' !! k = None).
Proof.
  unfold get_cache.
  destruct (redis_lookup k now up st);
    [cbn [snd]; split; [| split]; auto |].
  destruct (_memory_cache st !! k) as [[data expiration] |] eqn:Hk;
    [| cbn [snd]; split; [| split]; auto].
  destruct (Qlt_le_dec now expiration);
    cbn [snd redis_client _memory_cache];
    [split; [| split]; auto |].
  split; [reflexivity |]. split.
  - intros k' Hne. apply lookup_delete_ne. congruence.
  - right. apply lookup_delete_eq.
Qed.

End CacheMore.

(** ** Portfolio weights *)

Section PortfolioMore.
Import Portfolio.

Lemma fold_Qplus_div (l : list Q) (t a : Q) :
  ~ (t == 0)%Q ->
  (fold_left Qplus (List.map (fun v => v / t) l) (a / t)
   == fold_left Qplus l a / t)%Q.
Proof.
  intros Ht. revert a. induction l as [| x l IH]; intros a; [reflexivity |].
  cbn [List.map fold_left].
  assert (E : (a / t + x / t == (a + x) / t)%Q) by (field; exact Ht).
  rewrite <- IH.
  assert (Hfold : forall l' b c, (b == c)%Q ->
            (fold_left Qplus l' b == fold_left Qplus l' c)%Q).
  { induction l' as [| y l' IH']; intros b c Hbc; [exact Hbc |].
    cbn [fold_left]. apply IH'. rewrite Hbc. reflexivity. }
  apply Hfold. exact E.
Qed.

(** X9.  Renormalisation: when the weights sum to something outside the
    tolerance and other than zero, the weights used are the given ones, each
    divided by their sum, under the same symbols and in the same order;
    they add up to one, and one warning is logged. *)
Theorem normalized_weights_sum_to_one (symbols : list string)
    (w : list (string * Q)) :
  let total := py_sum (List.map snd w) in
  let out := List.map (fun kv => (fst kv, (snd kv / total)%Q)) w in
  (1 # 100 < Qabs (total - 1))%Q ->
  ~ (total == 0)%Q ->
  (exists msg,
     calculate_portfolio_metrics_weights symbols (Some w)
     = Ok (out, [Warning msg]))
  /\ List.map fst out = List.map fst w
  /\ (py_sum (List.map snd out) == 1)%Q.
Proof.
  intros total out Hout Hnz.
  split; [exact (weights_outside_tolerance_normalized symbols w Hout Hnz) |].
  subst out. split.
  - rewrite List.map_map. reflexivity.
  - rewrite List.map_map. cbn [snd]. unfold py_sum.
    rewrite <- (List.map_map snd (fun v => (v / total)%Q)).
    assert (E0 : (0 == 0 / total)%Q) by (unfold Qdiv; ring).
    assert (Hfold : forall l' b c, (b == c)%Q ->
              (fold_left Qplus l' b == fold_left Qplus l' c)%Q).
    { induction l' as [| y l' IH']; intros b c Hbc; [exact Hbc |].
      cbn [fold_left]. apply IH'. rewrite Hbc. reflexivity. }
    rewrite (Hfold _ _ _ E0), fold_Qplus_div by exact Hnz.
    fold (py_sum (List.map snd w)). fold total. field. exact Hnz.
Qed.

Lemma normalized_weights_sum_to_one_witness :
  let w := [("A", 3%Q); ("B", 1%Q)] in
  let out := [("A", (3 / py_sum [3; 1])%Q); ("B", (1 / py_sum [3; 1])%Q)] in
  (exists msg,
     calculate_portfolio_metrics_weights ["A"; "B"] (Some w)
     = Ok (out, [Warning msg]))
  /\ List.map fst out = ["A"; "B"]
  /\ (py_sum (List.map snd out) == 1)%Q.
Proof.
  intros w.
  apply (normalized_weights_sum_to_one ["A"; "B"] w).
  - reflexivity.
  - discriminate.
Defined.

Lemma dict_set_fresh {V : Type} (d : list (string * V)) (k : string) (v : V) :
  ~ In k (List.map fst d) -> dict_set d k v = d ++ [(k, v)].
Proof.
  induction d as [| [k' v'] d IH]; intros Hk; [reflexivity |].
  cbn [dict_set]. cbn [List.map fst In] in Hk.
  destruct (String.eqb k' k) eqn:E.
  - apply String.eqb_eq in E. exfalso. apply Hk. left. exact E.
  - cbn [app]. f_equal. apply IH. intros Hin. apply Hk. right. exact Hin.
Qed.

Lemma equal_weights_into_fresh (symbols : list string) (d : list (string * Q))
    (n : nat) :
  (1 <= n)%nat -> List.NoDup symbols ->
  (forall sym, In sym symbols -> ~ In sym (List.map fst d)) ->
  equal_weights_into d n symbols
  = Ok (d ++ List.map (fun sym => (sym, (1 / inject_Z (Z.of_nat n))%Q)) symbols).
Proof.
  intros Hn. revert d. induction symbols as [| sym rest IH]; intros d Hnd Hfresh.
  - cbn. rewrite app_nil_r. reflexivity.
  - cbn [equal_weights_into List.map]. unfold py_truediv.
    assert (E : Qeq_bool (inject_Z (Z.of_nat n)) 0 = false).
    { apply not_true_is_false. intros H. apply Qeq_bool_eq in H.
      unfold Qeq, inject_Z in H. simpl in H. lia. }
    rewrite E. cbn [bind].
    rewrite dict_set_fresh by (apply Hfresh; left; reflexivity).
    inversion Hnd as [| ? ? Hnotin Hnd']; subst.
    rewrite IH; [rewrite <- app_assoc; reflexivity | exact Hnd' |].
    intros s' Hs'. rewrite List.map_app, in_app_iff. cbn [List.map fst In].
    intros [Hin | [-> | []]].
    + apply (Hfresh s'); [right; exact Hs' | exact Hin].
    + apply Hnotin. exact Hs'.
Qed.

Lemma fold_Qplus_const {X : Type} (l : list X) (c a : Q) :
  (fold_left Qplus (List.map (fun _ => c) l) a
   == a + inject_Z (Z.of_nat (length l)) * c)%Q.
Proof.
  revert a. induction l as [| x l IH]; intros a.
  - cbn. ring.
  - cbn [List.map fold_left length]. rewrite IH.
    rewrite Nat2Z.inj_succ. unfold Z.succ. rewrite inject_Z_plus. ring.
Qed.

(** X10.  Default weights: for a non-empty list of distinct symbols and no
    weights in the request, every symbol gets 1/n, the sum is within the
    tolerance, and the weights are used as they are, without a warning. *)
Theorem default_equal_weights (symbols : list string) :
  symbols <> [] -> List.NoDup symbols ->
  calculate_portfolio_metrics_weights symbols None
  = Ok (List.map (fun sym => (sym, (1 / inject_Z (Z.of_nat (length symbols)))%Q))
                 symbols, []).
Proof.
  intros Hne Hnd. unfold calculate_portfolio_metrics_weights, equal_weights.
  assert (Hn : (1 <= length symbols)%nat).
  { destruct symbols; [congruence | cbn; lia]. }
  rewrite equal_weights_into_fresh by (try assumption; intros ? _ []).
  cbn [app bind]. rewrite List.map_map. cbn [snd].
  destruct (Qlt_le_dec _ _) as [Hlt | _]; [| reflexivity].
  exfalso. revert Hlt. unfold py_sum. rewrite fold_Qplus_const.
  assert (E : (0 + inject_Z (Z.of_nat (length symbols))
                   * (1 / inject_Z (Z.of_nat (length symbols))) - 1 == 0)%Q).
  { field. unfold Qeq, inject_Z. simpl. lia. }
  rewrite E. cbn. discriminate.
Qed.

Lemma default_equal_weights_witness :
  calculate_portfolio_metrics_weights ["AAPL"; "MSFT"; "GOOGL"] None
  = Ok ([("AAPL", (1 / inject_Z 3)%Q); ("MSFT", (1 / inject_Z 3)%Q);
         ("GOOGL", (1 / inject_Z 3)%Q)], []).
Proof.
  apply (default_equal_weights ["AAPL"; "MSFT"; "GOOGL"]).
  - discriminate.
  - repeat constructor; cbn; intuition discriminate.
Defined.

End PortfolioMore.

(** ** Sanitising a response *)

Section ValueInduction.
Import Sanitize.

Variable P : value -> Prop.
Hypothesis HNone : P VNone.
Hypothesis HBool : forall b, P (VBool b).
Hypothesis HInt : forall n, P (VInt n).
Hypothesis HFloat : forall x, P (VFloat x).
Hypothesis HStr : forall s, P (VStr s).
Hypothesis HList : forall items, Forall P items -> P (VList items).
Hypothesis HTuple : forall items, P (VTuple items).
Hypothesis HDict :
  forall fields, Forall (fun kv => P (snd kv)) fields -> P (VDict fields).

Fixpoint value_nested_ind (v : value) : P v :=
  match v with
  | VNone => HNone
  | VBool b => HBool b
  | VInt n => HInt n
  | VFloat x => HFloat x
  | VStr s => HStr s
  | VList items =>
      HList items
        ((fix all (l : list value) : Forall P l :=
            match l with
            | [] => List.Forall_nil P
            | x :: t => List.Forall_cons P x t (value_nested_ind x) (all t)
            end) items)
  | VTuple items => HTuple items
  | VDict fields =>
      HDict fields
        ((fix go (l : list (string * value)) : Forall (fun kv => P (snd kv)) l :=
            match l with
            | [] => List.Forall_nil _
            | x :: t => List.Forall_cons _ x t (value_nested_ind (snd x)) (go t)
            end) fields)
  end.

End ValueInduction.

Section SanitizeFacts.
Import Indicators Sanitize.

Lemma map_result_Ok_inv {A B : Type} (f : A -> result B) (a : A) (l : list A)
    (out : list B) :
  map_result f (a :: l) = Ok out ->
  exists b bs, out = b :: bs /\ f a = Ok b /\ map_result f l = Ok bs.
Proof.
  cbn [map_result]. destruct (f a) as [b |]; [| discriminate]. cbn [bind].
  destruct (map_result f l) as [bs |]; [| discriminate]. cbn [bind].
  intros H. injection H as <-. eauto.
Qed.

Lemma sanitize_float_clean (v v' : value) :
  (forall items, v <> VList items) -> (forall fields, v <> VDict fields) ->
  sanitize_float v = Ok v' -> clean v' = true /\ sanitize_dict v' = Ok v'.
Proof.
  intros HnL HnD. destruct v as [| b | n | x | s | items | items | fields];
    cbn [sanitize_float]; try (intros H; injection H as <-; split; reflexivity).
  - destruct (float_overflow n) eqn:E; [discriminate |].
    intros H. injection H as <-. split; [reflexivity |].
    cbn [sanitize_dict sanitize_float]. rewrite E. reflexivity.
  - destruct (fl_isinf x || fl_isnan x) eqn:E; intros H; injection H as <-.
    + split; reflexivity.
    + split; [cbn [clean]; rewrite E; reflexivity |].
      cbn [sanitize_dict sanitize_float]. rewrite E. reflexivity.
  - exfalso. exact (HnL items eq_refl).
  - exfalso. exact (HnD fields eq_refl).
Qed.

Lemma sanitize_dict_sound (v : value) :
  forall v', sanitize_dict v = Ok v' ->
             clean v' = true /\ sanitize_dict v' = Ok v'.
Proof.
  induction v using value_nested_ind; intros v' Hrun;
    try (cbn [sanitize_dict] in Hrun;
         apply (fun a b => sanitize_float_clean _ _ a b Hrun);
         intros; discriminate).
  - (* list *)
    cbn [sanitize_dict] in Hrun.
    destruct (map_result sanitize_dict items) as [items' |] eqn:Hm;
      [| discriminate].
    cbn [bind] in Hrun. injection Hrun as <-.
    assert (Hall : forallb clean items' = true
                   /\ map_result sanitize_dict items' = Ok items').
    { revert items' Hm. induction H as [| x t Hx _ IH]; intros items' Hm.
      - cbn in Hm. injection Hm as <-. split; reflexivity.
      - apply map_result_Ok_inv in Hm. destruct Hm as [b [bs [-> [Hb Hbs]]]].
        destruct (Hx b Hb) as [Hc Hi]. destruct (IH bs Hbs) as [Hcs His].
        split.
        + cbn [forallb]. rewrite Hc, Hcs. reflexivity.
        + cbn [map_result]. rewrite Hi. cbn [bind]. rewrite His. reflexivity. }
    destruct Hall as [Hc Hi]. split; [exact Hc |].
    cbn [sanitize_dict]. rewrite Hi. reflexivity.
  - (* dict *)
    cbn [sanitize_dict] in Hrun.
    destruct (map_result _ fields) as [fields' |] eqn:Hm; [| discriminate].
    cbn [bind] in Hrun. injection Hrun as <-.
    assert (Hall : forallb (fun kv => clean (snd kv)) fields' = true
                   /\ map_result
                        (fun kv => v <- sanitize_dict (snd kv) ;; Ok (fst kv, v))
                        fields' = Ok fields').
    { revert fields' Hm. induction H as [| [k x] t Hx _ IH]; intros fields' Hm.
      - cbn in Hm. injection Hm as <-. split; reflexivity.
      - apply map_result_Ok_inv in Hm. destruct Hm as [b [bs [-> [Hb Hbs]]]].
        cbn [fst snd] in Hb, Hx.
        destruct (sanitize_dict x) as [x' |] eqn:Ex; [| discriminate].
        cbn [bind] in Hb. injection Hb as <-.
        destruct (Hx x' eq_refl) as [Hc Hi]. destruct (IH bs Hbs) as [Hcs His].
        split.
        + cbn [forallb snd]. rewrite Hc, Hcs. reflexivity.
        + cbn [map_result fst snd]. rewrite Hi. cbn [bind]. rewrite His.
          reflexivity. }
    destruct Hall as [Hc Hi]. split; [exact Hc |].
    cbn [sanitize_dict]. rewrite Hi. reflexivity.
Qed.

(** X11.  What [sanitize_dict] returns holds no infinity and no NaN wherever
    dictionaries and lists lead, and sanitising it again changes nothing;
    a tuple is returned as it is, whatever it holds. *)
Theorem sanitize_dict_result_clean (v v' : value) :
  sanitize_dict v = Ok v' ->
  clean v' = true
  /\ sanitize_dict v' = Ok v'
  /\ (forall items, sanitize_dict (VTuple items) = Ok (VTuple items)).
Proof.
  intros Hrun. destruct (sanitize_dict_sound v v' Hrun) as [Hc Hi].
  split; [exact Hc |]. split; [exact Hi |]. reflexivity.
Qed.

Lemma sanitize_dict_result_clean_witness :
  let v := VDict [("price", VFloat NaN); ("bars", VList [VFloat PInf; VInt 3])] in
  let v' := VDict [("price", VNone); ("bars", VList [VNone; VInt 3])] in
  clean v' = true
  /\ sanitize_dict v' = Ok v'
  /\ (forall items, sanitize_dict (VTuple items) = Ok (VTuple items)).
Proof.
  intros v v'. apply (sanitize_dict_result_clean v v'). reflexivity.
Defined.

(** X12.  [sanitize_dict] raises exactly when an int that dictionaries and lists
    lead to is too large for a float, and the exception is then the
    OverflowError of the conversion; otherwise it returns. *)
Theorem sanitize_dict_raises_on_huge_int (v : value) :
  (ints_in_range v = true -> returns (sanitize_dict v))
  /\ (ints_in_range v = false ->
      sanitize_dict v = Raise (OverflowError "int too large to convert to float")).
Proof.
  induction v using value_nested_ind;
    try (split; [intros _; eexists; reflexivity | discriminate]).
  - (* int *)
    cbn [ints_in_range sanitize_dict sanitize_float].
    destruct (float_overflow n); split; intros Hr; try discriminate;
      [reflexivity | eexists; reflexivity].
  - (* float *)
    split; [| discriminate]. intros _. cbn [sanitize_dict sanitize_float].
    destruct (fl_isinf x || fl_isnan x); eexists; reflexivity.
  - (* list *)
    cbn [ints_in_range sanitize_dict].
    induction H as [| x t [Hx1 Hx2] _ IH].
    + split; [intros _; eexists; reflexivity | discriminate].
    + cbn [forallb map_result]. destruct IH as [IH1 IH2].
      destruct (ints_in_range x) eqn:Ex.
      * destruct (Hx1 eq_refl) as [x' Hx']. rewrite Hx'. cbn [bind andb].
        split.
        -- intros Ht. destruct (IH1 Ht) as [r Hr].
           destruct (map_result sanitize_dict t) as [t' |]; [| discriminate].
           eexists. reflexivity.
        -- intros Ht. specialize (IH2 Ht).
           destruct (map_result sanitize_dict t) as [t' |]; [discriminate |].
           cbn [bind] in *. exact IH2.
      * split; [discriminate |]. intros _. rewrite (Hx2 eq_refl). reflexivity.
  - (* dict *)
    cbn [ints_in_range sanitize_dict].
    induction H as [| [k x] t [Hx1 Hx2] _ IH].
    + split; [intros _; eexists; reflexivity | discriminate].
    + cbn [forallb map_result fst snd] in *. destruct IH as [IH1 IH2].
      destruct (ints_in_range x) eqn:Ex.
      * destruct (Hx1 eq_refl) as [x' Hx']. rewrite Hx'. cbn [bind andb].
        split.
        -- intros Ht. destruct (IH1 Ht) as [r Hr].
           destruct (map_result _ t) as [t' |]; [| discriminate].
           eexists. reflexivity.
        -- intros Ht. specialize (IH2 Ht).
           destruct (map_result _ t) as [t' |]; [discriminate |].
           cbn [bind] in *. exact IH2.
      * split; [discriminate |]. intros _. rewrite (Hx2 eq_refl). reflexivity.
Qed.

Lemma sanitize_dict_raises_on_huge_int_witness :
  sanitize_dict (VDict [("marketCap", VInt (10 ^ 400))])
  = Raise (OverflowError "int too large to convert to float").
Proof.
  apply (proj2 (sanitize_dict_raises_on_huge_int
                  (VDict [("marketCap", VInt (10 ^ 400))]))).
  vm_compute. reflexivity.
Defined.

End SanitizeFacts.

(** ** Client rate limiting *)

Section RateLimitFacts.
Import Indicators RateLimit.

Lemma recent_length (window now : Q) (log : list Q) :
  (length (recent window now log) <= length log)%nat.
Proof. apply List.filter_length_le. Qed.

Lemma cleanup_lookup (now : Q) (m : middleware) (ip : string) (log : list Q) :
  requests (_cleanup now m) !! ip = Some log -> requests m !! ip = Some log.
Proof.
  unfold _cleanup. cbn [requests]. intros H.
  apply map_lookup_filter_Some in H. tauto.
Qed.

Lemma dispatch_config (host : option string) (now rnd : Q) (m : middleware) :
  max_requests (snd (dispatch host now rnd m)) = max_requests m
  /\ window_seconds (snd (dispatch host now rnd m)) = window_seconds m.
Proof.
  unfold dispatch. destruct (_ <=? _)%Z; cbn [snd]; [split; reflexivity |].
  destruct (Qlt_bool rnd _); split; reflexivity.
Qed.

Lemma dispatch_within_limit (host : option string) (now rnd : Q) (m : middleware) :
  within_limit m -> within_limit (snd (dispatch host now rnd m)).
Proof.
  intros Hinv. unfold within_limit.
  rewrite (proj1 (dispatch_config host now rnd m)).
  intros ip log. unfold dispatch.
  set (client_ip := default "unknown" host).
  set (old := default [] (requests m !! client_ip)).
  assert (Hold : (Z.of_nat (length old) <= Z.max 0 (max_requests m))%Z).
  { subst old. destruct (requests m !! client_ip) as [l |] eqn:E; cbn [default].
    - exact (Hinv _ _ E).
    - cbn. lia. }
  pose proof (recent_length (window_seconds m) now old) as Hrec.
  destruct (_ <=? _)%Z eqn:Efull; cbn [snd requests].
  - destruct (decide (client_ip = ip)) as [-> | Hne].
    + rewrite lookup_insert_eq. intros H. injection H as <-. lia.
    + rewrite lookup_insert_ne by exact Hne. apply Hinv.
  - apply Z.leb_gt in Efull.
    assert (Hstep : forall l,
              <[client_ip := recent (window_seconds m) now old ++ [now]]>
                (requests m) !! ip = Some l ->
              (Z.of_nat (length l) <= Z.max 0 (max_requests m))%Z).
    { intros l. destruct (decide (client_ip = ip)) as [-> | Hne].
      - rewrite lookup_insert_eq. intros H. injection H as <-.
        rewrite length_app. cbn [length]. lia.
      - rewrite lookup_insert_ne by exact Hne. apply Hinv. }
    destruct (Qlt_bool rnd _); [| apply Hstep].
    intros H. apply cleanup_lookup in H. cbn [requests] in H. apply Hstep, H.
Qed.

(** X13.  The limit is an invariant of the middleware: starting without any
    record, after any sequence of requests (any clients, times and random
    draws) no address has more than [max_requests] timestamps on record. *)
Theorem serve_respects_limit (trace : list (option string * Q * Q))
    (limit : Z) (window : Q) (ip : string) (log : list Q) :
  requests (serve trace (mkMiddleware limit window ∅)) !! ip = Some log ->
  (Z.of_nat (length log) <= Z.max 0 limit)%Z.
Proof.
  assert (Hgen : forall m, within_limit m ->
            within_limit (serve trace m)
            /\ max_requests (serve trace m) = max_requests m).
  { induction trace as [| [[host now] rnd] rest IH]; intros m Hm.
    - split; [exact Hm | reflexivity].
    - cbn [serve].
      destruct (IH _ (dispatch_within_limit host now rnd m Hm)) as [H1 H2].
      split; [exact H1 |].
      rewrite H2. apply dispatch_config. }
  intros Hlog.
  destruct (Hgen (mkMiddleware limit window ∅)) as [Hinv Hmax].
  { intros ip' log' H. cbn [requests] in H. rewrite lookup_empty in H.
    discriminate. }
  specialize (Hinv ip log Hlog). rewrite Hmax in Hinv. exact Hinv.
Qed.

Lemma serve_respects_limit_witness :
  let trace := [(Some "10.0.0.1", 0%Q, 1%Q); (Some "10.0.0.1", 1%Q, 1%Q);
                (Some "10.0.0.1", 2%Q, 1%Q)] in
  (Z.of_nat (length [0%Q; 1%Q]) <= Z.max 0 2)%Z.
Proof.
  intros trace.
  apply (serve_respects_limit trace 2 60 "10.0.0.1" [0%Q; 1%Q]).
  vm_compute. reflexivity.
Defined.

Lemma Qlt_bool_self_window (now window : Q) :
  (0 < window)%Q -> Qlt_bool (now - now) window = true.
Proof.
  intros H. apply Qlt_bool_true.
  assert (E : (now - now == 0)%Q) by ring. rewrite E. exact H.
Qed.

(** X14.  One request, with a positive window: it is answered 429 exactly when
    the client already has [max_requests] timestamps inside the window.  A
    429 records nothing new; a forwarded request is recorded with the
    current time, and the random clean-up never removes the client just
    served.  Every timestamp kept for the client lies inside the window. *)
Theorem dispatch_outcome (host : option string) (now rnd : Q) (m : middleware) :
  (0 < window_seconds m)%Q ->
  let client_ip := default "unknown" host in
  let log := recent (window_seconds m) now
                    (default [] (requests m !! client_ip)) in
  let result := dispatch host now rnd m in
  (fst result = TooManyRequests (window_seconds m)
   /\ (max_requests m <= Z.of_nat (length log))%Z
   /\ requests (snd result) !! client_ip = Some log
   \/ fst result = Forwarded
      /\ (Z.of_nat (length log) < max_requests m)%Z
      /\ requests (snd result) !! client_ip = Some (log ++ [now]))
  /\ (forall kept, requests (snd result) !! client_ip = Some kept ->
        Forall (fun ts => (now - ts < window_seconds m)%Q) kept).
Proof.
  intros Hwin client_ip log result. subst result.
  assert (Hfresh : Forall (fun ts => (now - ts < window_seconds m)%Q) log).
  { subst log. unfold recent. apply List.Forall_forall. intros ts Hin.
    apply List.filter_In in Hin. destruct Hin as [_ Hts].
    unfold Qlt_bool in Hts. apply negb_true_iff in Hts.
    apply Qnot_le_lt. intros Hle. apply Qle_bool_iff in Hle. congruence. }
  assert (Hfresh' : Forall (fun ts => (now - ts < window_seconds m)%Q) (log ++ [now])).
  { apply List.Forall_app. split; [exact Hfresh |]. constructor; [| constructor].
    assert (E : (now - now == 0)%Q) by ring. rewrite E. exact Hwin. }
  unfold dispatch. fold client_ip. fold log.
  destruct (_ <=? _)%Z eqn:Efull; cbn [fst snd requests].
  - apply Z.leb_le in Efull. rewrite lookup_insert_eq. split.
    + left. split; [reflexivity |]. split; [exact Efull | reflexivity].
    + intros kept H. injection H as <-. exact Hfresh.
  - apply Z.leb_gt in Efull.
    assert (Hkeep : requests
                      (if Qlt_bool rnd (1 # 100)
                       then _cleanup now
                              (mkMiddleware (max_requests m) (window_seconds m)
                                 (<[client_ip := log ++ [now]]> (requests m)))
                       else mkMiddleware (max_requests m) (window_seconds m)
                              (<[client_ip := log ++ [now]]> (requests m)))
                    !! client_ip = Some (log ++ [now])).
    { destruct (Qlt_bool rnd (1 # 100)); cbn [requests _cleanup window_seconds];
        [| apply lookup_insert_eq].
      apply map_lookup_filter_Some. split; [apply lookup_insert_eq |].
      cbn [snd]. rewrite existsb_app. cbn [existsb].
      rewrite (Qlt_bool_self_window now _ Hwin). rewrite orb_true_l, orb_true_r.
      reflexivity. }
    split.
    + right. split; [reflexivity |]. split; [exact Efull | exact Hkeep].
    + intros kept H. rewrite Hkeep in H. injection H as <-. exact Hfresh'.
Qed.

Lemma dispatch_outcome_witness :
  let m := mkMiddleware 2 60 (<["10.0.0.1" := [0%Q; 30%Q]]> ∅) in
  let result := dispatch (Some "10.0.0.1") 70 1 m in
  (fst result = TooManyRequests 60
   /\ (2 <= Z.of_nat (length [30%Q]))%Z
   /\ requests (snd result) !! "10.0.0.1" = Some [30%Q]
   \/ fst result = Forwarded
      /\ (Z.of_nat (length [30%Q]) < 2)%Z
      /\ requests (snd result) !! "10.0.0.1" = Some ([30%Q] ++ [70%Q]))
  /\ (forall kept, requests (snd result) !! "10.0.0.1" = Some kept ->
        Forall (fun ts => (70 - ts < 60)%Q) kept).
Proof.
  intros m. apply (dispatch_outcome (Some "10.0.0.1") 70 1 m). reflexivity.
Defined.

(** X15.  The other clients: a request leaves the record of every other address
    as it was, unless the random clean-up runs, and then it drops only an
    address that has no timestamp left inside the window. *)
Theorem dispatch_other_clients (host : option string) (now rnd : Q)
    (m : middleware) (ip : string) :
  ip <> default "unknown" host ->
  let m' := snd (dispatch host now rnd m) in
  requests m' !! ip = requests m !! ip
  \/ requests m' !! ip = None
     /\ (rnd < 1 # 100)%Q
     /\ exists log, requests m !! ip = Some log
                    /\ recent (window_seconds m) now log = [].
Proof.
  intros Hne. unfold dispatch.
  destruct (_ <=? _)%Z; cbn [snd requests].
  - left. apply lookup_insert_ne. congruence.
  - destruct (Qlt_bool rnd (1 # 100)) eqn:Ernd; cbn [requests].
    + unfold _cleanup. cbn [requests window_seconds max_requests].
      destruct (requests m !! ip) as [log |] eqn:Eip.
      * destruct (existsb (fun ts => Qlt_bool (now - ts) (window_seconds m)) log)
          eqn:Eany.
        -- left. apply map_lookup_filter_Some. split; [| exact Eany].
           rewrite lookup_insert_ne by congruence. exact Eip.
        -- right. split; [| split].
           ++ apply map_lookup_filter_None. right. intros l Hl.
              rewrite lookup_insert_ne in Hl by congruence.
              rewrite Eip in Hl. injection Hl as <-. cbn [snd]. congruence.
           ++ unfold Qlt_bool in Ernd. apply negb_true_iff in Ernd.
              apply Qnot_le_lt. intros Hle. apply Qle_bool_iff in Hle. congruence.
           ++ exists log. split; [reflexivity |]. unfold recent.
              clear Eip. induction log as [| ts log IH]; [reflexivity |].
              cbn [existsb] in Eany. apply orb_false_elim in Eany.
              destruct Eany as [E1 E2]. cbn [List.filter]. rewrite E1.
              apply IH, E2.
      * left. apply map_lookup_filter_None. left.
        rewrite lookup_insert_ne by congruence. exact Eip.
    + left. apply lookup_insert_ne. congruence.
Qed.

Lemma dispatch_other_clients_witness :
  let m := mkMiddleware 2 60 (<["10.0.0.2" := [0%Q]]> ∅) in
  let m' := snd (dispatch (Some "10.0.0.1") 100 0 m) in
  requests m' !! "10.0.0.2" = requests m !! "10.0.0.2"
  \/ requests m' !! "10.0.0.2" = None
     /\ (0 < 1 # 100)%Q
     /\ exists log, requests m !! "10.0.0.2" = Some log
                    /\ recent 60 100 log = [].
Proof.
  intros m.
  apply (dispatch_other_clients (Some "10.0.0.1") 100 0 m "10.0.0.2").
  discriminate.
Defined.

End RateLimitFacts.

(** ** Symbols *)

Section SymbolFacts.
Import Symbols.

Lemma clean_yahoo_symbol_no_dot (symbol : string) :
  ~ In "."%char (chars (clean_yahoo_symbol symbol)).
Proof.
  induction symbol as [| c rest IH]; cbn [clean_yahoo_symbol chars]; [tauto |].
  intros [Hc | Hin]; [| exact (IH Hin)].
  destruct (Ascii.eqb c ".") eqn:E; [discriminate |].
  subst c. rewrite Ascii.eqb_refl in E. discriminate.
Qed.

Lemma clean_yahoo_symbol_length (symbol : string) :
  String.length (clean_yahoo_symbol symbol) = String.length symbol.
Proof.
  induction symbol as [| c rest IH]; cbn [clean_yahoo_symbol String.length];
    congruence.
Qed.

Lemma clean_yahoo_symbol_fixed (symbol : string) :
  ~ In "."%char (chars symbol) -> clean_yahoo_symbol symbol = symbol.
Proof.
  induction symbol as [| c rest IH]; cbn [clean_yahoo_symbol chars];
    [reflexivity |].
  intros Hno. destruct (Ascii.eqb c ".") eqn:E.
  - apply Ascii.eqb_eq in E. subst c. exfalso. apply Hno. left. reflexivity.
  - f_equal. apply IH. intros Hin. apply Hno. right. exact Hin.
Qed.

(** X16.  A symbol that [map_xstock_to_symbol] returns is fit for a Yahoo URL: it
    is not empty, holds no dot, has the length of the table's entry, and
    cleaning it again changes nothing. *)
Theorem mapped_symbol_is_clean (STOCK_SYMBOLS : gmap string string)
    (xstock_symbol symbol : string) :
  map_xstock_to_symbol STOCK_SYMBOLS xstock_symbol = Some symbol ->
  symbol <> EmptyString
  /\ ~ In "."%char (chars symbol)
  /\ clean_yahoo_symbol symbol = symbol
  /\ exists real_symbol,
       STOCK_SYMBOLS !! xstock_symbol = Some real_symbol
       /\ String.length symbol = String.length real_symbol.
Proof.
  unfold map_xstock_to_symbol.
  destruct (STOCK_SYMBOLS !! xstock_symbol) as [[| c rest] |] eqn:E;
    [discriminate | | discriminate].
  intros H. injection H as <-.
  split; [| split; [| split]].
  - cbn [clean_yahoo_symbol]. discriminate.
  - exact (clean_yahoo_symbol_no_dot (String c rest)).
  - exact (clean_yahoo_symbol_fixed _ (clean_yahoo_symbol_no_dot (String c rest))).
  - exists (String c rest). split; [reflexivity |].
    exact (clean_yahoo_symbol_length (String c rest)).
Qed.

Lemma mapped_symbol_is_clean_witness :
  "BRK-B" <> EmptyString
  /\ ~ In "."%char (chars "BRK-B")
  /\ clean_yahoo_symbol "BRK-B" = "BRK-B"
  /\ exists real_symbol,
       (<["BRK.Bx" := "BRK.B"]> ∅ : gmap string string) !! "BRK.Bx"
         = Some real_symbol
       /\ String.length "BRK-B" = String.length real_symbol.
Proof.
  apply (mapped_symbol_is_clean (<["BRK.Bx" := "BRK.B"]> ∅) "BRK.Bx" "BRK-B").
  vm_compute. reflexivity.
Defined.

End SymbolFacts.

(** ** Throttling the provider calls *)

Section ThrottleFacts.
Import Indicators Throttle.
Local Open Scope Q_scope.

(** X17.  Spacing of the provider calls, for a call that runs alone: no
    other caller is started or resumed between its start and its end.  With
    a jitter drawn between 5 and 10 and a wait that lasts at least as long
    as asked, the time recorded for this call is at least 15 seconds plus
    the jitter after the time recorded before it; the wait is never
    negative, nor longer than 25 seconds when the clock did not run
    backwards; the call is counted once and leaves no suspended call
    behind. *)
Theorem smart_rate_limit_spacing (id : nat)
    (current_time jitter time_after : Q) (st : event_loop) :
  5 <= jitter -> jitter <= 10 ->
  asleep st !! id = None ->
  let slept :=
    sleep_time_of (smart_rate_limit current_time jitter time_after (globals st)) in
  current_time + slept <= time_after ->
  let st' := run [Call id current_time jitter time_after; Wake id time_after] st in
  last_request_time (globals st) + RATE_LIMIT_DELAY + jitter
    <= last_request_time (globals st')
  /\ 0 <= slept
  /\ (last_request_time (globals st) <= current_time -> slept <= 25)
  /\ request_count (globals st') = (request_count (globals st) + 1)%Z
  /\ asleep st' = asleep st.
Proof.
  intros Hlo Hhi Hfresh. unfold run. cbn [fold_left].
  destruct (Qlt_le_dec (current_time - last_request_time (globals st))
                       (15 + jitter)) as [Hlt | Hge].
  - assert (Hsr : smart_rate_limit current_time jitter time_after (globals st)
                  = Suspended (15 + jitter
                               - (current_time - last_request_time (globals st)))).
    { unfold smart_rate_limit, RATE_LIMIT_DELAY. cbv zeta.
      rewrite (Qlt_bool_true _ _ Hlt). reflexivity. }
    unfold step. rewrite Hsr. cbn [sleep_time_of asleep globals].
    rewrite lookup_insert_eq.
    cbn [globals asleep record_request last_request_time request_count].
    rewrite (delete_insert_id _ _ _ Hfresh). unfold RATE_LIMIT_DELAY.
    intros Hwait.
    split; [| split; [| split; [| split]]];
      [Lqa.lra | Lqa.lra | intros; Lqa.lra | reflexivity | reflexivity].
  - assert (Hsr : smart_rate_limit current_time jitter time_after (globals st)
                  = Returned (record_request time_after (globals st))).
    { unfold smart_rate_limit, RATE_LIMIT_DELAY. cbv zeta.
      rewrite (Qlt_bool_false _ _ Hge). reflexivity. }
    unfold step. rewrite Hsr. cbn [sleep_time_of asleep globals].
    rewrite Hfresh.
    cbn [globals asleep record_request last_request_time request_count].
    unfold RATE_LIMIT_DELAY. intros Hwait.
    split; [| split; [| split; [| split]]];
      [Lqa.lra | Lqa.lra | intros; Lqa.lra | reflexivity | reflexivity].
Qed.

Lemma smart_rate_limit_spacing_witness :
  let st := mkEventLoop (mkLimiter 100 3) ∅ in
  let slept :=
    sleep_time_of (smart_rate_limit 104 7 (122 + (1 # 10)) (globals st)) in
  let st' := run [Call 1 104 7 (122 + (1 # 10)); Wake 1 (122 + (1 # 10))] st in
  100 + RATE_LIMIT_DELAY + 7 <= last_request_time (globals st')
  /\ 0 <= slept
  /\ (100 <= 104 -> slept <= 25)
  /\ request_count (globals st') = (3 + 1)%Z
  /\ asleep st' = asleep st.
Proof.
  intros st.
  pose proof (smart_rate_limit_spacing 1 104 7 (122 + (1 # 10)) st) as H.
  apply H.
  - vm_compute. discriminate.
  - vm_compute. discriminate.
  - reflexivity.
  - vm_compute. discriminate.
Defined.

(** Two callers that overlap are not spaced: both read the same
    [last_request_time] before either writes it, both sleep, and their
    recorded times are as close as their wake-ups. *)
Example overlapping_calls_are_not_spaced :
  let st := mkEventLoop (mkLimiter 100 0) ∅ in
  let st1 := run [Call 1 101 5 101; Call 2 102 5 102; Wake 1 120] st in
  let st2 := run [Wake 2 (120 + (1 # 2))] st1 in
  last_request_time (globals st1) = 120
  /\ last_request_time (globals st2) = 120 + (1 # 2)
  /\ request_count (globals st2) = 2%Z.
Proof. vm_compute. repeat split. Qed.

End ThrottleFacts.

(** ** Releasing caches under memory pressure *)

Section MemoryOptimizerFacts.
Import MemoryOptimizer.

Lemma cleanup_loop_prefix (pressure : nat -> bool) (periods : list string) :
  forall (calls : nat) (caches : gmap string slot),
  exists n : nat,
    (n <= length periods)%nat
    /\ ((forall i, pressure i = true) -> n = length periods)
    /\ forall k, cleanup_loop pressure calls periods caches !! k
                 = after_clearing (take n periods) caches k.
Proof.
  induction periods as [| p rest IH]; intros calls caches.
  - exists 0%nat. split; [cbn; lia |]. split; [reflexivity |].
    intros k. cbn [cleanup_loop take]. unfold after_clearing.
    destruct (caches !! k) as [[[d |] t] |]; reflexivity.
  - cbn [cleanup_loop].
    destruct (caches !! p) as [[[d |] t] |] eqn:Ep.
    + destruct (pressure calls) eqn:Epr; cbn [negb].
      * destruct (IH (S calls) (<[p := mkSlot None 0]> caches))
          as (n & Hn & Hall & Hk).
        exists (S n). split; [cbn; lia |].
        split; [intros Hp; cbn [length]; f_equal; apply Hall, Hp |].
        intros k. rewrite Hk. unfold after_clearing. cbn [take].
        destruct (decide (k = p)) as [-> | Hne].
        -- rewrite lookup_insert_eq, Ep.
           rewrite bool_decide_eq_true_2 by (apply elem_of_cons; left; reflexivity).
           reflexivity.
        -- rewrite lookup_insert_ne by congruence.
           destruct (caches !! k) as [[[d' |] t'] |]; try reflexivity.
           destruct (decide (k ∈ take n rest)) as [Hin | Hout].
           ++ rewrite !bool_decide_eq_true_2;
                [reflexivity | apply elem_of_cons; right; exact Hin | exact Hin].
           ++ rewrite !bool_decide_eq_false_2; [reflexivity | | exact Hout].
              intros Hin. apply elem_of_cons in Hin. destruct Hin; tauto.
      * exists 1%nat. split; [cbn; lia |].
        split; [intros Hp; rewrite Hp in Epr; discriminate |].
        intros k. unfold after_clearing. cbn [take].
        destruct (decide (k = p)) as [-> | Hne].
        -- rewrite lookup_insert_eq, Ep.
           rewrite bool_decide_eq_true_2 by (apply elem_of_cons; left; reflexivity).
           reflexivity.
        -- rewrite lookup_insert_ne by congruence.
           destruct (caches !! k) as [[[d' |] t'] |]; try reflexivity.
           rewrite bool_decide_eq_false_2; [reflexivity |].
           intros Hin. apply elem_of_cons in Hin.
           destruct Hin as [Hin | Hin]; [tauto |].
           apply not_elem_of_nil in Hin. exact Hin.
    + destruct (IH calls caches) as (n & Hn & Hall & Hk).
      exists (S n). split; [cbn; lia |].
      split; [intros Hp; cbn [length]; f_equal; apply Hall, Hp |].
      intros k. rewrite Hk. unfold after_clearing. cbn [take].
      destruct (caches !! k) as [[[d' |] t'] |] eqn:Ek; try reflexivity.
      assert (Hne : k <> p) by (intros ->; congruence).
      destruct (decide (k ∈ take n rest)) as [Hin | Hout].
      * rewrite !bool_decide_eq_true_2;
          [reflexivity | apply elem_of_cons; right; exact Hin | exact Hin].
      * rewrite !bool_decide_eq_false_2; [reflexivity | | exact Hout].
        intros Hin. apply elem_of_cons in Hin. destruct Hin; tauto.
    + destruct (IH calls caches) as (n & Hn & Hall & Hk).
      exists (S n). split; [cbn; lia |].
      split; [intros Hp; cbn [length]; f_equal; apply Hall, Hp |].
      intros k. rewrite Hk. unfold after_clearing. cbn [take].
      destruct (caches !! k) as [[[d' |] t'] |] eqn:Ek; try reflexivity.
      assert (Hne : k <> p) by (intros ->; congruence).
      destruct (decide (k ∈ take n rest)) as [Hin | Hout].
      * rewrite !bool_decide_eq_true_2;
          [reflexivity | apply elem_of_cons; right; exact Hin | exact Hin].
      * rewrite !bool_decide_eq_false_2; [reflexivity | | exact Hout].
        intros Hin. apply elem_of_cons in Hin. destruct Hin; tauto.
Qed.

(** X18.  [cleanup_old_caches] clears a prefix of the priority list and nothing
    else: for some [n], the periods among the first [n] of '3mo', 'ytd',
    '1y', '1mo', '1w', '1d' that held data now hold [None] with timestamp
    0, and every other entry, and every other key, is as it was.  No key is
    added or removed. *)
Theorem cleanup_clears_a_priority_prefix (pressure : nat -> bool)
    (caches : gmap string slot) :
  exists n : nat,
    (n <= 6)%nat
    /\ forall k, cleanup_old_caches pressure caches !! k
                 = after_clearing (take n cleanup_priority) caches k.
Proof.
  unfold cleanup_old_caches. destruct (pressure 0%nat); cbn [negb].
  - destruct (cleanup_loop_prefix pressure cleanup_priority 1 caches)
      as (n & Hn & _ & Hk).
    exists n. split; [exact Hn | exact Hk].
  - exists 0%nat. split; [lia |]. intros k. unfold after_clearing. cbn [take].
    destruct (caches !! k) as [[[d |] t] |]; reflexivity.
Qed.

(** X19.  Under pressure that never resolves, every period of the priority list
    ends without data; without pressure at the first check, nothing is
    touched. *)
Theorem cleanup_under_lasting_pressure (pressure : nat -> bool)
    (caches : gmap string slot) :
  (pressure 0%nat = false -> cleanup_old_caches pressure caches = caches)
  /\ ((forall i, pressure i = true) ->
      forall period s,
        period ∈ cleanup_priority ->
        cleanup_old_caches pressure caches !! period = Some s ->
        s = mkSlot None 0 \/ data s = None /\ caches !! period = Some s).
Proof.
  split.
  - intros H. unfold cleanup_old_caches. rewrite H. reflexivity.
  - intros Hp period s Hin. unfold cleanup_old_caches. rewrite Hp. cbn [negb].
    destruct (cleanup_loop_prefix pressure cleanup_priority 1 caches)
      as (n & _ & Hall & Hk).
    rewrite Hk, (Hall Hp), firstn_all. unfold after_clearing.
    destruct (caches !! period) as [[[d |] t] |]; intros H.
    + rewrite bool_decide_eq_true_2 in H by exact Hin.
      injection H as <-. left. reflexivity.
    + injection H as <-. right. split; reflexivity.
    + discriminate.
Qed.

End MemoryOptimizerFacts.

(** ** Technical indicators *)

Section IndicatorMore.
Import Indicators.

Lemma filter_none {X : Type} (p : X -> bool) (l : list X) :
  (forall x, In x l -> p x = false) -> List.filter p l = [].
Proof.
  induction l as [| x l IH]; intros H; [reflexivity |].
  cbn [List.filter]. rewrite (H x) by (left; reflexivity).
  apply IH. intros y Hy. apply H. right. exact Hy.
Qed.

(** The points that [emit] keeps are entries of the series that are not
    NaN, at the time of their index. *)
Lemma emit_In (times : list Z) (f : nat -> fl) (pt : Z * fl) :
  In pt (emit times (List.map f (seq 0 (length times)))) ->
  exists i, (i < length times)%nat
            /\ pt = (nth i times 0%Z, f i) /\ fl_isnan (f i) = false.
Proof.
  unfold emit. rewrite (combine_map_seq 0%Z). intros H.
  apply List.filter_In in H. destruct H as [Hin Hnan].
  apply List.in_map_iff in Hin. destruct Hin as [i [<- Hi]].
  apply in_seq in Hi. exists i. cbn [snd] in Hnan.
  split; [lia |]. split; [reflexivity |].
  apply negb_true_iff. exact Hnan.
Qed.

(** A series that is NaN below index [a] gives at most [n - a] points. *)
Lemma emit_length_from (times : list Z) (f : nat -> fl) (a : nat) :
  (forall i, (i < a)%nat -> f i = NaN) ->
  (length (emit times (List.map f (seq 0 (length times))))
   <= length times - a)%nat.
Proof.
  intros Hlow. unfold emit. rewrite (combine_map_seq 0%Z).
  set (n := length times).
  destruct (le_lt_dec a n) as [Han | Han].
  - replace n with (a + (n - a))%nat at 1 by lia.
    rewrite seq_app, List.map_app, List.filter_app, length_app.
    rewrite filter_none.
    + cbn [length plus].
      etransitivity; [apply List.filter_length_le |].
      rewrite length_map, length_seq. lia.
    + intros x Hx. apply List.in_map_iff in Hx. destruct Hx as [i [<- Hi]].
      apply in_seq in Hi. cbn [snd]. rewrite Hlow by lia. reflexivity.
  - rewrite filter_none; [cbn; lia |].
    intros x Hx. apply List.in_map_iff in Hx. destruct Hx as [i [<- Hi]].
    apply in_seq in Hi. cbn [snd]. rewrite Hlow by lia. reflexivity.
Qed.

Lemma diff_from_finite (xs : list Q) (prev : Q) :
  Forall (fun x => x = NaN \/ exists d, x = Fin d)
         (diff_from (Fin prev) (List.map Fin xs)).
Proof.
  revert prev. induction xs as [| x xs IH]; intros prev;
    cbn [List.map diff_from]; constructor; [| apply IH].
  right. unfold fl_sub. cbn [fl_neg].
  destruct (Qeq_bool prev 0); cbn [fl_add]; eexists; reflexivity.
Qed.

Lemma diff_finite (xs : list Q) :
  Forall (fun x => x = NaN \/ exists d, x = Fin d) (diff (List.map Fin xs)).
Proof.
  destruct xs as [| x xs]; cbn [List.map diff]; constructor.
  - left. reflexivity.
  - apply diff_from_finite.
Qed.

Lemma gains_NonNeg (delta : list fl) :
  Forall (fun x => x = NaN \/ exists d, x = Fin d) delta ->
  Forall NonNeg (where_ fl_gt0 (Fin 0) delta).
Proof.
  intros H. unfold where_.
  induction H as [| x l Hx _ IH]; cbn [List.map]; constructor; [| exact IH].
  destruct Hx as [-> | [d ->]]; cbn [fl_gt0].
  - right. exists 0%Q. split; [reflexivity | apply Qle_refl].
  - destruct (Qlt_le_dec 0 d) as [Hpos | Hneg].
    + rewrite (Qlt_bool_true _ _ Hpos). right. exists d.
      split; [reflexivity | apply Qlt_le_weak; exact Hpos].
    + rewrite (Qlt_bool_false _ _ Hneg). right. exists 0%Q.
      split; [reflexivity | apply Qle_refl].
Qed.

Lemma losses_NonNeg (delta : list fl) :
  Forall (fun x => x = NaN \/ exists d, x = Fin d) delta ->
  Forall NonNeg (List.map fl_neg (where_ fl_lt0 (Fin 0) delta)).
Proof.
  intros H. unfold where_.
  induction H as [| x l Hx _ IH]; cbn [List.map]; constructor; [| exact IH].
  destruct Hx as [-> | [d ->]]; cbn [fl_lt0].
  - left. reflexivity.
  - destruct (Qlt_le_dec d 0) as [Hneg | Hpos].
    + rewrite (Qlt_bool_true _ _ Hneg). cbn [fl_neg].
      destruct (Qeq_bool d 0); [left; reflexivity |].
      right. exists (- d)%Q. split; [reflexivity |]. Lqa.lra.
    + rewrite (Qlt_bool_false _ _ Hpos). left. reflexivity.
Qed.

Lemma fold_add_NonNeg (l : list fl) :
  Forall NonNeg l ->
  forall a, (0 <= a)%Q ->
  exists s, fold_left fl_add l (Fin a) = Fin s /\ (0 <= s)%Q.
Proof.
  intros H. induction H as [| x l Hx _ IH]; intros a Ha.
  - exists a. split; [reflexivity | exact Ha].
  - cbn [fold_left]. destruct Hx as [-> | [g [-> Hg]]]; cbn [fl_add].
    + apply IH, Ha.
    + apply IH. Lqa.lra.
Qed.

Lemma window_mean_NonNeg (p k : nat) (l : list fl) :
  (1 <= p)%nat -> Forall NonNeg l -> (k + p <= length l)%nat ->
  exists m, fl_mean (firstn p (skipn k l)) = Fin m /\ (0 <= m)%Q.
Proof.
  intros Hp Hl Hk. unfold fl_mean, fl_sum.
  destruct (fold_add_NonNeg _ (Forall_window NonNeg p k l Hl) 0%Q (Qle_refl 0))
    as [s [-> Hs]].
  rewrite window_length by exact Hk.
  rewrite fl_div_by_count by assumption.
  eexists. split; [reflexivity |].
  apply Qle_shift_div_l; [apply inject_count_pos; exact Hp |].
  rewrite Qmult_0_l. exact Hs.
Qed.

Lemma fl_div_pos (a b : Q) :
  (0 <= a)%Q -> (0 < b)%Q -> fl_div (Fin a) (Fin b) = Fin (a / b).
Proof.
  intros Ha Hb. unfold fl_div.
  cbn [fl_isnan fl_isinf fl_iszero fl_signbit orb].
  rewrite (Qeq_bool_pos _ Hb), (Qlt_bool_false a 0 Ha).
  rewrite (Qlt_bool_false b 0) by (apply Qlt_le_weak; exact Hb).
  cbn [xorb]. rewrite andb_false_r. reflexivity.
Qed.

(** The value of the index for an average gain and an average loss that
    are not negative: no number when both are zero, and otherwise a number
    between 0 and 100. *)
Lemma rsi_value (g l : Q) :
  (0 <= g)%Q -> (0 <= l)%Q ->
  let v := fl_sub (Fin 100)
             (fl_div (Fin 100) (fl_add (Fin 1) (fl_div (Fin g) (Fin l)))) in
  v = NaN \/ exists q, v = Fin q /\ (0 <= q)%Q /\ (q <= 100)%Q.
Proof.
  intros Hg Hl v. subst v.
  destruct (Qlt_le_dec 0 l) as [Hlpos | Hlzero].
  - right. rewrite (fl_div_pos g l Hg Hlpos). cbn [fl_add].
    assert (Hx : (0 <= g / l)%Q).
    { apply Qle_shift_div_l; [exact Hlpos |]. rewrite Qmult_0_l. exact Hg. }
    assert (Hd : (0 < 1 + g / l)%Q) by Lqa.lra.
    rewrite (fl_div_pos 100 (1 + g / l)) by (try exact Hd; discriminate).
    assert (Hy : (0 < 100 / (1 + g / l))%Q).
    { apply Qlt_shift_div_l; [exact Hd |]. rewrite Qmult_0_l. reflexivity. }
    assert (Hy' : (100 / (1 + g / l) <= 100)%Q).
    { apply Qle_shift_div_r; [exact Hd |]. Lqa.lra. }
    unfold fl_sub. cbn [fl_neg]. rewrite (Qeq_bool_pos _ Hy). cbn [fl_add].
    eexists. split; [reflexivity |]. split; Lqa.lra.
  - assert (Hz : (l == 0)%Q) by (apply Qle_antisym; assumption).
    destruct (Qlt_le_dec 0 g) as [Hgpos | Hgzero].
    + right. rewrite (rs_zero_loss g l Hgpos Hz).
      exists 100%Q. split; [reflexivity |]. split; discriminate.
    + left. unfold fl_div at 2.
      cbn [fl_isnan fl_isinf fl_iszero fl_signbit orb].
      assert (Eg : Qeq_bool g 0 = true).
      { apply Qeq_bool_iff, Qle_antisym; assumption. }
      assert (El : Qeq_bool l 0 = true) by (apply Qeq_bool_iff; exact Hz).
      rewrite Eg, El. reflexivity.
Qed.

(** The RSI series as a function of the index. *)
Lemma calculate_rsi_indexed (data : list (Z * Q)) (p : nat) :
  let delta := diff (List.map Fin (List.map snd data)) in
  let gains := where_ fl_gt0 (Fin 0) delta in
  let losses := List.map fl_neg (where_ fl_lt0 (Fin 0) delta) in
  let window (xs : list fl) (i : nat) :=
    if (i + 1 <? p)%nat || (p =? 0)%nat then NaN
    else fl_mean (firstn p (skipn (i + 1 - p) xs)) in
  calculate_rsi data p
  = emit (List.map fst data)
      (List.map
         (fun i => fl_sub (Fin 100)
                     (fl_div (Fin 100)
                        (fl_add (Fin 1) (fl_div (window gains i) (window losses i)))))
         (seq 0 (length (List.map fst data))))
  /\ length gains = length data /\ length losses = length data.
Proof.
  intros delta gains losses window.
  assert (Hg : length gains = length data).
  { subst gains delta. unfold where_.
    rewrite length_map, diff_length, !length_map. reflexivity. }
  assert (Hl : length losses = length data).
  { subst losses delta. unfold where_.
    rewrite !length_map, diff_length, !length_map. reflexivity. }
  split; [| split; assumption].
  unfold calculate_rsi, close_column. rewrite <- (List.map_map snd Fin).
  fold delta. fold gains. fold losses. unfold rolling_mean.
  rewrite Hg, Hl, List.map_map.
  rewrite (combine_maps_seq _ _
             (fun x : fl * fl =>
                fl_sub (Fin 100)
                  (fl_div (Fin 100) (fl_add (Fin 1) (fl_div (fst x) (snd x)))))).
  rewrite length_map. reflexivity.
Qed.

(** X20.  The range of the RSI.  For every series of finite closes and every
    period of at least one, each point that [calculate_rsi] returns carries
    a time of the input and a finite value between 0 and 100, and there are
    at most n - period + 1 points. *)
Theorem rsi_between_0_and_100 (data : list (Z * Q)) (period : nat) :
  (1 <= period)%nat ->
  Forall (fun pt => In (fst pt) (List.map fst data)
                    /\ exists q, snd pt = Fin q /\ (0 <= q)%Q /\ (q <= 100)%Q)
         (calculate_rsi data period)
  /\ (length (calculate_rsi data period) <= length data + 1 - period)%nat.
Proof.
  intros Hp.
  destruct (calculate_rsi_indexed data period) as [Heq [Hg Hl]].
  cbv zeta in Heq, Hg, Hl. rewrite Heq. clear Heq.
  assert (Hdelta := diff_finite (List.map snd data)).
  split.
  - apply List.Forall_forall. intros pt Hpt.
    apply emit_In in Hpt. destruct Hpt as [i [Hi [-> Hnan]]].
    cbn [fst snd]. split; [apply nth_In; exact Hi |].
    rewrite length_map in Hi.
    destruct (i + 1 <? period)%nat eqn:E; [discriminate |].
    apply Nat.ltb_ge in E.
    assert (E0 : (period =? 0)%nat = false) by (apply Nat.eqb_neq; lia).
    rewrite E0 in Hnan |- *. cbn [orb] in Hnan |- *.
    destruct (window_mean_NonNeg period (i + 1 - period) _ Hp
                (gains_NonNeg _ Hdelta)) as [g [Eg Hg0]]; [lia |].
    destruct (window_mean_NonNeg period (i + 1 - period) _ Hp
                (losses_NonNeg _ Hdelta)) as [l [El Hl0]]; [lia |].
    rewrite Eg, El in Hnan |- *.
    destruct (rsi_value g l Hg0 Hl0) as [Hv | Hv]; [| exact Hv].
    cbv zeta in Hv. rewrite Hv in Hnan. discriminate.
  - etransitivity; [apply (emit_length_from _ _ (period - 1)) |].
    + intros i Hi.
      assert (E : (i + 1 <? period)%nat = true) by (apply Nat.ltb_lt; lia).
      rewrite E. reflexivity.
    + rewrite length_map. lia.
Qed.

Lemma rsi_between_0_and_100_witness :
  let data : list (Z * Q) :=
    [(1%Z, 10%Q); (2%Z, 12%Q); (3%Z, 9%Q); (4%Z, 9%Q); (5%Z, 11%Q)] in
  Forall (fun pt => In (fst pt) (List.map fst data)
                    /\ exists q, snd pt = Fin q /\ (0 <= q)%Q /\ (q <= 100)%Q)
         (calculate_rsi data 2)
  /\ (length (calculate_rsi data 2) <= length data + 1 - 2)%nat.
Proof.
  intros data. apply (rsi_between_0_and_100 data 2). lia.
Defined.

Lemma fold_add_zero (l : list fl) :
  Forall (fun x => exists z, x = Fin z /\ (z == 0)%Q) l ->
  forall a, (a == 0)%Q ->
  exists s, fold_left fl_add l (Fin a) = Fin s /\ (s == 0)%Q.
Proof.
  intros H. induction H as [| x l [z [-> Hz]] _ IH]; intros a Ha.
  - exists a. split; [reflexivity | exact Ha].
  - cbn [fold_left fl_add]. apply IH. rewrite Ha, Hz. reflexivity.
Qed.

Lemma gains_zero (delta : list fl) :
  Forall (fun x => x = NaN \/ exists d, x = Fin d /\ (d == 0)%Q) delta ->
  Forall (fun x => exists z, x = Fin z /\ (z == 0)%Q)
         (where_ fl_gt0 (Fin 0) delta).
Proof.
  intros H. unfold where_.
  induction H as [| x l Hx _ IH]; cbn [List.map]; constructor; [| exact IH].
  destruct Hx as [-> | [d [-> Hd]]]; cbn [fl_gt0].
  - exists 0%Q. split; reflexivity.
  - rewrite (Qlt_bool_false 0 d) by (rewrite Hd; apply Qle_refl).
    exists 0%Q. split; reflexivity.
Qed.

Lemma losses_zero (delta : list fl) :
  Forall (fun x => x = NaN \/ exists d, x = Fin d /\ (d == 0)%Q) delta ->
  Forall (fun x => x = NegZero)
         (List.map fl_neg (where_ fl_lt0 (Fin 0) delta)).
Proof.
  intros H. unfold where_.
  induction H as [| x l Hx _ IH]; cbn [List.map]; constructor; [| exact IH].
  destruct Hx as [-> | [d [-> Hd]]]; cbn [fl_lt0]; [reflexivity |].
  rewrite (Qlt_bool_false d 0) by (rewrite Hd; apply Qle_refl).
  reflexivity.
Qed.

(** X21.  A series whose closes are all equal has no RSI: the average gain and
    the average loss are both zero, their quotient is not a number, and
    [calculate_rsi] returns the empty list, for every period. *)
Theorem rsi_of_flat_series_is_empty (data : list (Z * Q)) (period : nat) (c : Q) :
  Forall (fun row => (snd row == c)%Q) data ->
  calculate_rsi data period = [].
Proof.
  intros Hflat.
  destruct (calculate_rsi_indexed data period) as [Heq [Hg Hl]].
  cbv zeta in Heq, Hg, Hl. rewrite Heq. clear Heq.
  assert (Hdelta : Forall (fun x => x = NaN \/ exists d, x = Fin d /\ (d == 0)%Q)
                          (diff (List.map Fin (List.map snd data)))).
  { clear Hg Hl. destruct data as [| [t0 c0] rest]; [constructor |].
    cbn [List.map diff snd]. constructor; [left; reflexivity |].
    apply List.Forall_cons_iff in Hflat. destruct Hflat as [H0 Hrest].
    cbn [snd] in H0. revert c0 H0.
    induction Hrest as [| [t1 c1] rest H1 _ IH]; intros c0 H0;
      cbn [List.map diff_from snd]; constructor.
    - right. cbn [snd] in H1. unfold fl_sub. cbn [fl_neg].
      destruct (Qeq_bool c0 0) eqn:E; cbn [fl_add]; eexists;
        (split; [reflexivity |]).
      + apply Qeq_bool_eq in E. rewrite H1, <- H0. exact E.
      + rewrite H1, H0. apply Qplus_opp_r.
    - apply IH. exact H1. }
  assert (Hgains := gains_zero _ Hdelta).
  assert (Hlosses := losses_zero _ Hdelta).
  unfold emit. apply filter_none. intros [t v] Hin.
  apply in_combine_r in Hin. apply List.in_map_iff in Hin.
  destruct Hin as [i [Hv Hi]]. apply in_seq in Hi. rewrite length_map in Hi.
  cbn [snd]. apply negb_false_iff. rewrite <- Hv.
  destruct ((i + 1 <? period)%nat || (period =? 0)%nat) eqn:E; [reflexivity |].
  apply orb_false_elim in E. destruct E as [E1 E2].
  apply Nat.ltb_ge in E1. apply Nat.eqb_neq in E2.
  destruct (fold_add_zero _ (Forall_window _ period (i + 1 - period) _ Hgains)
              0%Q (Qeq_refl 0)) as [s [Hs Hs0]].
  destruct (loss_window_mean period (i + 1 - period) _ ltac:(lia) Hlosses)
    as [z [Hz Hz0]]; [rewrite Hl; lia |].
  rewrite Hz. unfold fl_mean, fl_sum. rewrite Hs.
  rewrite window_length by (rewrite Hg; lia).
  rewrite fl_div_by_count by (try (rewrite Hs0; apply Qle_refl); lia).
  unfold fl_div at 2. cbn [fl_isnan fl_isinf fl_iszero fl_signbit orb].
  assert (Ez : Qeq_bool z 0 = true) by (apply Qeq_bool_iff; exact Hz0).
  assert (Es : Qeq_bool (s / inject_Z (Z.of_nat period)) 0 = true).
  { apply Qeq_bool_iff. rewrite Hs0. unfold Qdiv. apply Qmult_0_l. }
  rewrite Ez, Es. reflexivity.
Qed.

Lemma rsi_of_flat_series_is_empty_witness :
  calculate_rsi [(1%Z, 7%Q); (2%Z, 7%Q); (3%Z, 7%Q); (4%Z, 7%Q)] 2 = [].
Proof.
  apply (rsi_of_flat_series_is_empty _ 2 7).
  repeat constructor.
Defined.

End IndicatorMore.

(** ** Backtesting engine: invariants of the strategy loop *)

Section BacktestMore.
Import Backtest.

Context {F : Type} `{FloatOps F}.

Local Abbreviation loop_state := (@loop_state F).
Local Abbreviation prepared := (@prepared F).
Local Abbreviation bar := (@bar F).
Local Abbreviation trade := (@trade F).

Lemma dict_get_Some_In {V : Type} (d : list (string * V)) (k : string) (v : V) :
  dict_get d k = Some v -> In k (List.map fst d).
Proof.
  unfold dict_get.
  destruct (List.find (fun kv => String.eqb (fst kv) k) d) as [kv |] eqn:E;
    [| discriminate].
  intros _. apply List.find_some in E. destruct E as [Hin Hk].
  apply String.eqb_eq in Hk. subst k. apply List.in_map. exact Hin.
Qed.

Lemma dict_set_keys {V : Type} (d : list (string * V)) (k : string) (v : V) :
  In k (List.map fst d) -> List.map fst (dict_set d k v) = List.map fst d.
Proof.
  induction d as [| [k' v'] d IH]; cbn [List.map dict_set fst In]; [tauto |].
  intros Hin. destruct (String.eqb k' k) eqn:E; [reflexivity |].
  cbn [List.map fst]. f_equal. apply IH.
  destruct Hin as [-> | Hin]; [| exact Hin].
  rewrite String.eqb_refl in E. discriminate.
Qed.

Lemma dict_set_keys_incl {V : Type} (d : list (string * V)) (k k' : string) (v : V) :
  In k (List.map fst (dict_set d k' v)) -> k = k' \/ In k (List.map fst d).
Proof.
  induction d as [| [k0 v0] d IH]; cbn [List.map dict_set fst In].
  - intros [<- | []]. left. reflexivity.
  - destruct (String.eqb k0 k'); cbn [List.map fst In]; [tauto |].
    intros [-> | Hin]; [tauto |]. destruct (IH Hin); tauto.
Qed.

Lemma dict_set_no_short (d : list (string * Z)) (k : string) (v : Z) :
  (0 <= v)%Z ->
  Forall (fun pos => (0 <= snd pos)%Z) d ->
  Forall (fun pos => (0 <= snd pos)%Z) (dict_set d k v).
Proof.
  intros Hv Hd. induction Hd as [| [k' v'] d Hx Hd IH]; cbn [dict_set].
  - constructor; [exact Hv | constructor].
  - destruct (String.eqb k' k); constructor; assumption.
Qed.

Lemma held_pos_In (st : loop_state) (sym : string) :
  (0 < held st sym)%Z -> In sym (position_keys st).
Proof.
  unfold held, position_keys.
  destruct (dict_get (positions st) sym) as [v |] eqn:E; cbn [default].
  - intros _. exact (dict_get_Some_In _ _ _ E).
  - lia.
Qed.

Lemma day_step_refl (d : Z) (st : loop_state) : day_step d st st.
Proof.
  repeat split; try tauto. exists []. split; [| constructor].
  symmetry. apply app_nil_r.
Qed.

Lemma day_step_trans (d : Z) (a b c : loop_state) :
  day_step d a b -> day_step d b c -> day_step d a c.
Proof.
  intros (Hp1 & Hb1 & Hk1 & Hn1 & new1 & Hl1 & Hf1)
         (Hp2 & Hb2 & Hk2 & Hn2 & new2 & Hl2 & Hf2).
  split; [congruence |]. split; [congruence |]. split; [congruence |].
  split; [tauto |]. exists (new1 ++ new2). split.
  - rewrite Hl2, Hl1. symmetry. apply app_assoc.
  - apply List.Forall_app. split; [exact Hf1 |].
    eapply List.Forall_impl; [| exact Hf2].
    intros t (Hd & Hs & Hin). unfold trade_ok. rewrite <- Hk1. tauto.
Qed.

Lemma buy_step (d : Z) (sym : string) (shares : Z) (price cost : F)
    (extra : list (string * F)) (pair : bool) (st : loop_state) :
  (0 < shares)%Z -> In sym (position_keys st) ->
  day_step d st (buy d sym shares price cost extra pair st).
Proof.
  intros Hs Hin. unfold day_step, buy, position_keys, no_short_position.
  cbn [portfolio_values benchmark_value_series positions trade_log].
  split; [reflexivity |]. split; [reflexivity |].
  split; [apply dict_set_keys; exact Hin |].
  split; [apply dict_set_no_short; lia |].
  eexists. split; [reflexivity |]. constructor; [| constructor].
  unfold trade_ok. cbn [trade_date trade_shares trade_symbol]. tauto.
Qed.

Lemma sell_step (d : Z) (sym : string) (price : F)
    (extra : list (string * F)) (pair : bool) (st : loop_state) :
  (0 < held st sym)%Z -> day_step d st (sell d sym price extra pair st).
Proof.
  intros Hs. pose proof (held_pos_In st sym Hs) as Hin.
  unfold day_step, sell, position_keys, no_short_position.
  cbn [portfolio_values benchmark_value_series positions trade_log].
  split; [reflexivity |]. split; [reflexivity |].
  split; [apply dict_set_keys; exact Hin |].
  split; [apply dict_set_no_short; lia |].
  eexists. split; [reflexivity |]. constructor; [| constructor].
  unfold trade_ok. cbn [trade_date trade_shares trade_symbol]. tauto.
Qed.

Lemma enter_step (check_cash : bool) (amount : F) (d : Z) (sym : string)
    (price : F) (extra : list (string * F)) (pair : bool)
    (st st' : loop_state) :
  In sym (position_keys st) ->
  enter check_cash amount d sym price extra pair st = Ok st' ->
  day_step d st st'.
Proof.
  intros Hin. unfold enter.
  destruct (f_to_int (f_div amount price)) as [shares |]; cbn [bind];
    [| discriminate].
  destruct (0 <? shares)%Z eqn:Es.
  - apply Z.ltb_lt in Es.
    destruct (negb check_cash || f_le _ _); intros E; injection E as <-.
    + apply buy_step; assumption.
    + apply day_step_refl.
  - intros E; injection E as <-. apply day_step_refl.
Qed.

Lemma for_each_step {A : Type} (d : Z) (l : list A)
    (body : A -> loop_state -> result loop_state) :
  forall st st',
  (forall a s s', In a l -> position_keys s = position_keys st ->
                  body a s = Ok s' -> day_step d s s') ->
  for_each l body st = Ok st' -> day_step d st st'.
Proof.
  induction l as [| a l IH]; intros st st' Hbody; cbn [for_each].
  - intros E; injection E as <-. apply day_step_refl.
  - destruct (body a st) as [s1 |] eqn:E1; cbn [bind]; [| discriminate].
    intros Hrest.
    assert (H1 : day_step d st s1).
    { apply (Hbody a st s1); [left; reflexivity | reflexivity | exact E1]. }
    apply (day_step_trans d st s1 st' H1).
    apply IH; [| exact Hrest].
    intros a' s s' Hin Hk. apply Hbody; [right; exact Hin |].
    rewrite Hk. apply H1.
Qed.

Ltac step_crunch :=
  repeat match goal with
  | H : Ok _ = Ok _ |- _ => injection H as <-
  | H : Raise _ = Ok _ |- _ => discriminate H
  | H : (if ?c then _ else _) = Ok _ |- _ => destruct c eqn:?
  | H : match ?x with _ => _ end = Ok _ |- _ => destruct x eqn:?
  | H : bind ?m _ = Ok _ |- _ => destruct m eqn:?; cbn [bind] in H
  end.

Ltac held_positive :=
  repeat match goal with
  | H : (_ && _)%bool = true |- _ => apply andb_prop in H; destruct H
  end;
  match goal with
  | H : (0 <? held _ _)%Z = true |- _ => apply Z.ltb_lt in H; exact H
  end.

Ltac step_finish Hin :=
  first
    [ apply day_step_refl
    | apply sell_step; held_positive
    | match goal with
      | H : enter _ _ _ _ _ _ _ _ = Ok _ |- _ =>
          apply (enter_step _ _ _ _ _ _ _ _ _ Hin H)
      end ].

Section Strategies.

Variable p : prepared.
Variable d : Z.
Variable prices : list (string * F).

Lemma stock_key_In (sd : string * list bar) (s st : loop_state) :
  position_keys st = List.map fst (stock_data p) ->
  In sd (stock_data p) -> position_keys s = position_keys st ->
  In (fst sd) (position_keys s).
Proof.
  intros Hk Hin Hs. rewrite Hs, Hk. apply List.in_map. exact Hin.
Qed.

Lemma buy_and_hold_step (st st' : loop_state) :
  position_keys st = List.map fst (stock_data p) ->
  buy_and_hold_day p d prices st = Ok st' -> day_step d st st'.
Proof.
  intros Hk. unfold buy_and_hold_day. apply for_each_step.
  intros [sym weight] s s' Hin Hs Hbody. cbn [fst snd] in Hbody.
  assert (Hsym : In sym (position_keys s)).
  { rewrite Hs, Hk. exact (in_combine_l _ _ _ _ Hin). }
  step_crunch; step_finish Hsym.
Qed.

Lemma mean_reversion_step (st st' : loop_state) :
  position_keys st = List.map fst (stock_data p) ->
  mean_reversion_day p d prices st = Ok st' -> day_step d st st'.
Proof.
  intros Hk. unfold mean_reversion_day. apply for_each_step.
  intros sd s s' Hin Hs Hbody. cbv zeta in Hbody.
  pose proof (stock_key_In sd s st Hk Hin Hs) as Hsym.
  step_crunch; step_finish Hsym.
Qed.

Lemma rsi_step (st st' : loop_state) :
  position_keys st = List.map fst (stock_data p) ->
  rsi_day p d prices st = Ok st' -> day_step d st st'.
Proof.
  intros Hk. unfold rsi_day. apply for_each_step.
  intros sd s s' Hin Hs Hbody. cbv zeta in Hbody.
  pose proof (stock_key_In sd s st Hk Hin Hs) as Hsym.
  step_crunch; step_finish Hsym.
Qed.

Lemma bollinger_bands_step (st st' : loop_state) :
  position_keys st = List.map fst (stock_data p) ->
  bollinger_bands_day p d prices st = Ok st' -> day_step d st st'.
Proof.
  intros Hk. unfold bollinger_bands_day. apply for_each_step.
  intros sd s s' Hin Hs Hbody. cbv zeta in Hbody.
  pose proof (stock_key_In sd s st Hk Hin Hs) as Hsym.
  step_crunch; step_finish Hsym.
Qed.

Lemma ma_crossover_step (st st' : loop_state) :
  position_keys st = List.map fst (stock_data p) ->
  ma_crossover_day p d prices st = Ok st' -> day_step d st st'.
Proof.
  intros Hk. unfold ma_crossover_day. cbv zeta. apply for_each_step.
  intros sd s s' Hin Hs Hbody. cbv zeta in Hbody.
  pose proof (stock_key_In sd s st Hk Hin Hs) as Hsym.
  step_crunch; step_finish Hsym.
Qed.

Lemma breakout_step (st st' : loop_state) :
  position_keys st = List.map fst (stock_data p) ->
  breakout_day p d prices st = Ok st' -> day_step d st st'.
Proof.
  intros Hk. unfold breakout_day. apply for_each_step.
  intros sd s s' Hin Hs Hbody. cbv zeta in Hbody.
  pose proof (stock_key_In sd s st Hk Hin Hs) as Hsym.
  step_crunch; step_finish Hsym.
Qed.

Lemma insert_desc_In (x y : string * F) (l : list (string * F)) :
  In x (insert_desc y l) -> x = y \/ In x l.
Proof.
  induction l as [| z l IH]; cbn [insert_desc In].
  - intros [<- | []]. left. reflexivity.
  - destruct (f_le (snd y) (snd z)); cbn [In].
    + intros [Hz | Hin]; [right; left; exact Hz |].
      destruct (IH Hin); [left | right; right]; assumption.
    + intros [<- | Hin]; [left; reflexivity | right; exact Hin].
Qed.

Lemma sorted_desc_In (x : string * F) (items : list (string * F)) :
  In x (sorted_desc items) -> In x items.
Proof.
  unfold sorted_desc.
  assert (Hgen : forall acc,
            In x (fold_left (fun acc y => insert_desc y acc) items acc) ->
            In x items \/ In x acc).
  { induction items as [| y items IH]; intros acc; cbn [fold_left In];
      [tauto |].
    intros Hin. destruct (IH _ Hin) as [H1 | H1]; [tauto |].
    destruct (insert_desc_In _ _ _ H1); [left; left; congruence | tauto]. }
  intros Hin. destruct (Hgen [] Hin) as [H1 | []]. exact H1.
Qed.

Lemma momentum_scores_keys (k : string) :
  In k (List.map fst (momentum_scores_of p d)) ->
  In k (List.map fst (stock_data p)).
Proof.
  unfold momentum_scores_of.
  assert (Hgen : forall frames acc,
            In k (List.map fst
                    (fold_left
                       (fun scores sd =>
                          let hist_slice :=
                            tail (lookback_period p + 1) (closes_upto d (snd sd)) in
                          if (lookback_period p + 1 <=? length hist_slice)%nat then
                            match hist_slice with
                            | first :: _ =>
                                let returns :=
                                  f_div (f_sub (List.last hist_slice f_nan) first)
                                        first in
                                dict_set scores (fst sd) returns
                            | [] => scores
                            end
                          else scores)
                       frames acc)) ->
            In k (List.map fst frames) \/ In k (List.map fst acc)).
  { induction frames as [| sd frames IH]; intros acc; cbn [fold_left List.map In];
      [tauto |].
    intros Hin. destruct (IH _ Hin) as [H1 | H1]; [tauto |].
    cbv zeta in H1.
    destruct (_ <=? _)%nat; [| tauto].
    destruct (tail _ _); [tauto |].
    destruct (dict_set_keys_incl _ _ _ _ H1); [left; left; congruence | tauto]. }
  intros Hin. destruct (Hgen _ _ Hin) as [H1 | []]. exact H1.
Qed.

Lemma firstn_incl {A : Type} (n : nat) (l : list A) (x : A) :
  In x (firstn n l) -> In x l.
Proof.
  intros Hin. rewrite <- (firstn_skipn n l). apply in_or_app. left. exact Hin.
Qed.

Lemma momentum_step (st st' : loop_state) :
  position_keys st = List.map fst (stock_data p) ->
  momentum_day p d prices st = Ok st' -> day_step d st st'.
Proof.
  intros Hk. unfold momentum_day. cbv zeta.
  destruct (momentum_scores_of p d) as [| score scores] eqn:Escores.
  { intros E; injection E as <-. apply day_step_refl. }
  destruct (f_to_int _) as [n |]; cbn [bind]; [| discriminate].
  destruct (for_each (List.map fst (positions st)) _ st) as [s1 |] eqn:Esell;
    cbn [bind]; [| discriminate].
  intros Hbuy.
  assert (H1 : day_step d st s1).
  { revert Esell. apply for_each_step. intros sym s s' Hin Hs Hbody.
    step_crunch; step_finish I. }
  apply (day_step_trans d st s1 st' H1).
  revert Hbuy. apply for_each_step. intros sym s s' Hin Hs Hbody.
  assert (Hsym : In sym (position_keys s)).
  { rewrite Hs. destruct H1 as (_ & _ & -> & _). rewrite Hk.
    apply momentum_scores_keys. rewrite Escores.
    apply List.in_map_iff in Hin. destruct Hin as [kv [<- Hkv]].
    apply List.in_map. apply firstn_incl in Hkv.
    apply sorted_desc_In in Hkv. exact Hkv. }
  step_crunch; step_finish Hsym.
Qed.

Lemma pairs_trading_step (st st' : loop_state) :
  position_keys st = List.map fst (stock_data p) ->
  pairs_trading_day p d prices st = Ok st' -> day_step d st st'.
Proof.
  intros Hk. unfold pairs_trading_day.
  destruct (stock_data p) as [| [sym1 df1] [| [sym2 df2] rest]] eqn:Edata;
    try (intros E; injection E as <-; apply day_step_refl).
  cbn [List.map fst] in Hk.
  assert (Hsym1 : In sym1 (position_keys st)) by (rewrite Hk; left; reflexivity).
  assert (Hsym2 : In sym2 (position_keys st))
    by (rewrite Hk; right; left; reflexivity).
  cbv zeta. intros Hbody.
  destruct (dict_get prices sym1) as [price1 |];
    [| injection Hbody as <-; apply day_step_refl].
  destruct (dict_get prices sym2) as [price2 |];
    [| injection Hbody as <-; apply day_step_refl].
  destruct (_ && _)%bool; [| injection Hbody as <-; apply day_step_refl].
  destruct (f_gt _ f_zero); [| injection Hbody as <-; apply day_step_refl].
  destruct (f_gt _ (f_of_Q 2) && _)%bool.
  { destruct (f_to_int _); cbn [bind] in Hbody; [| discriminate].
    exact (enter_step _ _ _ _ _ _ _ _ _ Hsym2 Hbody). }
  destruct (f_lt _ (f_of_Q (-2)) && _)%bool.
  { exact (enter_step _ _ _ _ _ _ _ _ _ Hsym1 Hbody). }
  destruct (f_lt (f_abs _) _); [| injection Hbody as <-; apply day_step_refl].
  revert Hbody. apply for_each_step. intros sym s s' Hin Hs Hbody.
  step_crunch; step_finish I.
Qed.

End Strategies.

Lemma strategy_day_step (p : prepared) (i : nat) (d : Z)
    (prices : list (string * F)) (st st' : loop_state) :
  position_keys st = List.map fst (stock_data p) ->
  strategy_day p i d prices st = Ok st' -> day_step d st st'.
Proof.
  intros Hk. unfold strategy_day. cbv zeta.
  destruct (String.eqb (strategy p) "buy-and-hold").
  { destruct (i =? lookback_period p)%nat.
    - apply buy_and_hold_step, Hk.
    - intros E; injection E as <-. apply day_step_refl. }
  destruct (String.eqb (strategy p) "mean-reversion");
    [apply mean_reversion_step, Hk |].
  destruct (String.eqb (strategy p) "momentum"); [apply momentum_step, Hk |].
  destruct (String.eqb (strategy p) "rsi"); [apply rsi_step, Hk |].
  destruct (String.eqb (strategy p) "bollinger-bands");
    [apply bollinger_bands_step, Hk |].
  destruct (String.eqb (strategy p) "ma-crossover");
    [apply ma_crossover_step, Hk |].
  destruct (String.eqb (strategy p) "breakout"); [apply breakout_step, Hk |].
  destruct (String.eqb (strategy p) "pairs-trading");
    [apply pairs_trading_step, Hk |].
  intros E; injection E as <-. apply day_step_refl.
Qed.

Lemma track_benchmark_Ok (p : prepared) (shares : option F) (d : Z)
    (st st' : loop_state) :
  track_benchmark p shares d st = Ok st' ->
  exists v, st' = mkLoop (cash st) (positions st) (portfolio_values st)
                         (benchmark_value_series st ++ [v]) (trade_log st).
Proof.
  unfold track_benchmark. cbv zeta. intros Hrun.
  step_crunch; eexists; reflexivity.
Qed.

(** One iteration of the loop: one more portfolio value, one more benchmark
    value, and the trades of the day, none during the warm-up. *)
Lemma loop_body_step (p : prepared) (shares : option F) (i : nat) (d : Z)
    (st st' : loop_state) :
  position_keys st = List.map fst (stock_data p) ->
  loop_body p shares i d st = Ok st' ->
  length (portfolio_values st') = S (length (portfolio_values st))
  /\ length (benchmark_value_series st') = S (length (benchmark_value_series st))
  /\ position_keys st' = position_keys st
  /\ (no_short_position st -> no_short_position st')
  /\ exists new, trade_log st' = trade_log st ++ new
                 /\ Forall (trade_ok st d) new
                 /\ ((i < lookback_period p)%nat -> new = []).
Proof.
  intros Hk. unfold loop_body.
  destruct (i <? lookback_period p)%nat eqn:Ei.
  - destruct (warmup_value p d st) as [v |]; cbn [bind]; [| discriminate].
    intros Hrun. apply track_benchmark_Ok in Hrun. destruct Hrun as [b ->].
    unfold append_portfolio_value, position_keys, no_short_position.
    cbn [portfolio_values benchmark_value_series positions trade_log cash].
    rewrite !length_app. cbn [length].
    split; [lia |]. split; [lia |]. split; [reflexivity |]. split; [tauto |].
    exists []. split; [symmetry; apply app_nil_r |].
    split; [constructor | reflexivity].
  - apply Nat.ltb_ge in Ei.
    destruct (current_prices_of p d) as [prices |]; cbn [bind]; [| discriminate].
    destruct (strategy_day p i d prices st) as [s1 |] eqn:Eday; cbn [bind];
      [| discriminate].
    intros Hrun. apply track_benchmark_Ok in Hrun. destruct Hrun as [b ->].
    destruct (strategy_day_step p i d prices st s1 Hk Eday)
      as (Hp & Hb & Hkeys & Hn & new & Hl & Hf).
    unfold append_portfolio_value, position_keys, no_short_position in *.
    cbn [portfolio_values benchmark_value_series positions trade_log cash].
    rewrite !length_app, Hp, Hb. cbn [length].
    split; [lia |]. split; [lia |]. split; [exact Hkeys |]. split; [exact Hn |].
    exists new. split; [exact Hl |]. split; [exact Hf | lia].
Qed.

Lemma loop_from_invariant (p : prepared) (shares : option F) (dates : list Z) :
  forall (i : nat) (st st' : loop_state),
  position_keys st = List.map fst (stock_data p) ->
  loop_from p shares i dates st = Ok st' ->
  length (portfolio_values st') = (length (portfolio_values st) + length dates)%nat
  /\ length (benchmark_value_series st')
     = (length (benchmark_value_series st) + length dates)%nat
  /\ position_keys st' = List.map fst (stock_data p)
  /\ (no_short_position st -> no_short_position st')
  /\ exists new,
       trade_log st' = trade_log st ++ new
       /\ Forall (fun t => (0 < trade_shares t)%Z
                           /\ In (trade_symbol t) (List.map fst (stock_data p))
                           /\ In (trade_date t)
                                 (skipn (lookback_period p - i) dates))
                 new.
Proof.
  induction dates as [| d dates IH]; intros i st st' Hk; cbn [loop_from].
  - intros E; injection E as <-. cbn [length].
    split; [lia |]. split; [lia |]. split; [exact Hk |]. split; [tauto |].
    exists []. split; [symmetry; apply app_nil_r | constructor].
  - destruct (loop_body p shares i d st) as [s1 |] eqn:Ebody; cbn [bind];
      [| discriminate].
    intros Hrest.
    destruct (loop_body_step p shares i d st s1 Hk Ebody)
      as (Hp1 & Hb1 & Hk1 & Hn1 & new1 & Hl1 & Hf1 & Hwarm).
    assert (Hk1' : position_keys s1 = List.map fst (stock_data p))
      by congruence.
    destruct (IH (S i) s1 st' Hk1' Hrest)
      as (Hp2 & Hb2 & Hk2 & Hn2 & new2 & Hl2 & Hf2).
    cbn [length].
    split; [lia |]. split; [lia |]. split; [exact Hk2 |]. split; [tauto |].
    exists (new1 ++ new2). split; [rewrite Hl2, Hl1; symmetry; apply app_assoc |].
    apply List.Forall_app. split.
    + destruct (le_lt_dec (lookback_period p) i) as [Hi | Hi].
      * eapply List.Forall_impl; [| exact Hf1].
        intros t (Hd & Hs & Hin). rewrite Hk in Hin.
        replace (lookback_period p - i)%nat with 0%nat by lia.
        cbn [skipn]. split; [exact Hs |]. split; [exact Hin |].
        left. symmetry. exact Hd.
      * rewrite (Hwarm Hi). constructor.
    + eapply List.Forall_impl; [| exact Hf2].
      intros t (Hs & Hin & Hd). split; [exact Hs |]. split; [exact Hin |].
      destruct (le_lt_dec (lookback_period p) i) as [Hi | Hi].
      * replace (lookback_period p - i)%nat with 0%nat by lia.
        replace (lookback_period p - S i)%nat with 0%nat in Hd by lia.
        cbn [skipn] in Hd |- *. right. exact Hd.
      * replace (lookback_period p - i)%nat
          with (S (lookback_period p - S i)) by lia.
        cbn [skipn]. exact Hd.
Qed.

Lemma strategy_loop_invariant (p : prepared) (st : loop_state) :
  strategy_loop p = Ok st ->
  length (portfolio_values st) = length (sorted_dates p)
  /\ length (benchmark_value_series st) = length (sorted_dates p)
  /\ position_keys st = List.map fst (stock_data p)
  /\ no_short_position st
  /\ Forall (fun t => (0 < trade_shares t)%Z
                      /\ In (trade_symbol t) (List.map fst (stock_data p))
                      /\ In (trade_date t)
                            (skipn (lookback_period p) (sorted_dates p)))
            (trade_log st).
Proof.
  unfold strategy_loop.
  destruct (benchmark_shares_of p) as [shares |]; cbn [bind]; [| discriminate].
  intros Hrun.
  assert (Hk : position_keys (initial_state p) = List.map fst (stock_data p)).
  { unfold position_keys, initial_state. cbn [positions].
    rewrite List.map_map. reflexivity. }
  destruct (loop_from_invariant p shares (sorted_dates p) 0 _ st Hk Hrun)
    as (Hp & Hb & Hkeys & Hn & new & Hl & Hf).
  cbn [initial_state portfolio_values benchmark_value_series trade_log length
       plus app] in Hp, Hb, Hl.
  split; [exact Hp |]. split; [exact Hb |]. split; [exact Hkeys |]. split.
  - apply Hn. unfold no_short_position, initial_state. cbn [positions].
    apply List.Forall_forall. intros pos Hin.
    apply List.in_map_iff in Hin. destruct Hin as [sd [<- _]]. cbn [snd]. lia.
  - rewrite Hl. rewrite Nat.sub_0_r in Hf. exact Hf.
Qed.

(** X22.  The trade log and the positions.  When the strategy loop completes,
    the positions are those of the symbols with data, none of them
    negative, and every logged trade is of a positive number of shares of
    such a symbol, on a common date after the warm-up. *)
Theorem backtest_trade_log_sound (p : prepared) (st : loop_state) :
  strategy_loop p = Ok st ->
  List.map fst (positions st) = List.map fst (stock_data p)
  /\ Forall (fun pos => (0 <= snd pos)%Z) (positions st)
  /\ Forall (fun t => (0 < trade_shares t)%Z
                      /\ In (trade_symbol t) (List.map fst (stock_data p))
                      /\ In (trade_date t)
                            (skipn (lookback_period p) (sorted_dates p)))
            (trade_log st).
Proof.
  intros Hrun.
  destruct (strategy_loop_invariant p st Hrun) as (_ & _ & Hk & Hn & Hf).
  split; [exact Hk |]. split; [exact Hn | exact Hf].
Qed.

Lemma map_fst_combine_eq {A B : Type} (l1 : list A) (l2 : list B) :
  length l1 = length l2 -> List.map fst (combine l1 l2) = l1.
Proof.
  revert l2. induction l1 as [| a l1 IH]; intros [| b l2] Hlen;
    cbn [combine List.map fst length] in *; try reflexivity; try discriminate.
  f_equal. apply IH. lia.
Qed.

Lemma map_snd_combine_eq {A B : Type} (l1 : list A) (l2 : list B) :
  length l1 = length l2 -> List.map snd (combine l1 l2) = l2.
Proof.
  revert l2. induction l1 as [| a l1 IH]; intros [| b l2] Hlen;
    cbn [combine List.map snd length] in *; try reflexivity; try discriminate.
  f_equal. apply IH. lia.
Qed.

Lemma nth_error_default_seq {A : Type} (dflt : A) (l : list A) :
  List.map (fun i => default dflt (nth_error l i)) (seq 0 (length l)) = l.
Proof.
  induction l as [| a l IH]; [reflexivity |].
  cbn [length seq List.map nth_error default]. f_equal.
  rewrite <- seq_shift, List.map_map. exact IH.
Qed.

(** X23.  The chart of the response.  A backtest that returns has one portfolio
    value and one benchmark value for each common date, and its chart has
    one row for each date, in order, with the portfolio value and the
    benchmark value of that date. *)
Theorem backtest_chart_covers_every_date (year_of : Z -> Z) (w : world)
    (p : prepared) (st : loop_state) (resp : response) :
  run_prepared year_of w p = Ok (st, resp) ->
  length (portfolio_values st) = length (sorted_dates p)
  /\ length (benchmark_value_series st) = length (sorted_dates p)
  /\ List.map (fun row => fst (fst row)) (chart resp) = sorted_dates p
  /\ List.map (fun row => snd (fst row)) (chart resp) = portfolio_values st
  /\ List.map snd (chart resp) = benchmark_value_series st.
Proof.
  unfold run_prepared, run_prepared_with.
  destruct (strategy_loop p) as [st0 |] eqn:Eloop; cbn [bind]; [| discriminate].
  destruct (backtest_metrics year_of w p st0) as [resp0 |] eqn:Emet;
    cbn [bind]; [| discriminate].
  intros E. injection E as -> ->.
  destruct (strategy_loop_invariant p st Eloop) as (Hp & Hb & _).
  split; [exact Hp |]. split; [exact Hb |].
  unfold backtest_metrics in Emet. cbv zeta in Emet.
  destruct (iloc_last _) as [last_cumulative |]; cbn [bind] in Emet;
    [| discriminate].
  destruct (iloc_last _) as [final_value |]; cbn [bind] in Emet;
    [| discriminate].
  injection Emet as <-. cbn [chart].
  assert (Hlen : length (combine (sorted_dates p) (portfolio_values st))
                 = length (sorted_dates p)).
  { rewrite length_combine. lia. }
  rewrite !List.map_map. cbn [fst snd].
  split; [| split].
  - rewrite <- (List.map_map snd fst).
    rewrite map_snd_combine_eq by (rewrite length_seq; reflexivity).
    apply map_fst_combine_eq. lia.
  - rewrite <- (List.map_map snd snd).
    rewrite map_snd_combine_eq by (rewrite length_seq; reflexivity).
    apply map_snd_combine_eq. lia.
  - rewrite <- (List.map_map fst
                  (fun i => default (initial_capital p)
                              (nth_error (benchmark_value_series st) i))).
    rewrite map_fst_combine_eq by (rewrite length_seq; reflexivity).
    rewrite Hlen, <- Hb. apply nth_error_default_seq.
Qed.

Lemma loc_close_in_index (df : list bar) (d : Z) :
  in_index d df = true -> exists v, loc_close df d = Ok v.
Proof.
  unfold in_index, loc_close.
  induction df as [| b df IH]; cbn [existsb List.find]; [discriminate |].
  destruct (Z.eqb (bar_date b) d); [intros _; eexists; reflexivity |].
  cbn [orb]. exact IH.
Qed.

Lemma track_benchmark_unbound (p : prepared) (d : Z) (df : list bar)
    (st : loop_state) :
  benchmark_data p = Some df -> in_index d df = true ->
  track_benchmark p None d st = Raise (UnboundLocalError "benchmark_shares").
Proof.
  intros Hdf Hin. unfold track_benchmark. cbv zeta. rewrite Hdf, Hin.
  destruct (loc_close_in_index df d Hin) as [v ->]. reflexivity.
Qed.

Lemma loop_from_unbound (p : prepared) (d : Z) (df : list bar)
    (dates : list Z) :
  benchmark_data p = Some df -> in_index d df = true -> In d dates ->
  forall i st, exists e, loop_from p None i dates st = Raise e.
Proof.
  intros Hdf Hin. induction dates as [| d0 dates IH]; intros Hd i st;
    [destruct Hd |].
  cbn [loop_from].
  destruct (loop_body p None i d0 st) as [s1 |] eqn:Ebody; cbn [bind];
    [| eexists; reflexivity].
  destruct Hd as [-> | Hd]; [| apply IH; exact Hd].
  exfalso. unfold loop_body in Ebody.
  destruct (i <? lookback_period p)%nat.
  - destruct (warmup_value p d st); cbn [bind] in Ebody; [| discriminate].
    rewrite (track_benchmark_unbound p d df _ Hdf Hin) in Ebody. discriminate.
  - destruct (current_prices_of p d); cbn [bind] in Ebody; [| discriminate].
    destruct (strategy_day p i d _ st); cbn [bind] in Ebody; [| discriminate].
    rewrite (track_benchmark_unbound p d df _ Hdf Hin) in Ebody. discriminate.
Qed.

(** X24.  The benchmark without a starting price.  When the benchmark has data
    but [benchmark_shares] is left unbound (the first common date is missing
    from the benchmark, or its close on that date is zero, negative or NaN),
    and some common date is in the benchmark's index, the loop raises and
    the handler answers with an HTTP error: no backtest is returned. *)
Theorem unbound_benchmark_shares_fails (year_of : Z -> Z) (w : world)
    (p : prepared) (df : list bar) (d : Z) :
  benchmark_shares_of p = Ok None ->
  benchmark_data p = Some df ->
  In d (sorted_dates p) -> in_index d df = true ->
  (exists e, strategy_loop p = Raise e)
  /\ exists status_code detail,
       http_guard (run_prepared year_of w p)
       = Raise (HTTPException status_code detail).
Proof.
  intros Hshares Hdf Hd Hin.
  destruct (loop_from_unbound p d df (sorted_dates p) Hdf Hin Hd 0
              (initial_state p)) as [e He].
  assert (Hloop : strategy_loop p = Raise e).
  { unfold strategy_loop. rewrite Hshares. cbn [bind]. exact He. }
  split; [exists e; exact Hloop |].
  unfold run_prepared, run_prepared_with. rewrite Hloop. cbn [bind].
  unfold http_guard. destruct e; eexists; eexists; reflexivity.
Qed.

Lemma active_value_flat (prices : list (string * F)) (st : loop_state) :
  Forall (fun pos => snd pos = 0%Z) (positions st) ->
  active_value prices st = cash st.
Proof.
  unfold active_value. generalize (cash st).
  induction (positions st) as [| pos l IH]; intros c Hz; [reflexivity |].
  apply List.Forall_cons_iff in Hz. destruct Hz as [Hpos Hl].
  cbn [fold_left]. rewrite Hpos. cbn [Z.ltb Z.compare]. apply IH, Hl.
Qed.

Lemma loop_from_unknown_strategy (p : prepared) (shares : option F)
    (dates : list Z) :
  (forall i d prices st, strategy_day p i d prices st = Ok st) ->
  forall (i : nat) (st st' : loop_state),
  Forall (fun pos => snd pos = 0%Z) (positions st) ->
  loop_from p shares i dates st = Ok st' ->
  cash st' = cash st /\ positions st' = positions st
  /\ trade_log st' = trade_log st
  /\ exists values,
       portfolio_values st' = portfolio_values st ++ values
       /\ length values = length dates
       /\ Forall (fun v => v = cash st) (skipn (lookback_period p - i) values).
Proof.
  intros Hday. induction dates as [| d dates IH]; intros i st st' Hflat;
    cbn [loop_from].
  - intros E; injection E as <-. repeat split.
    exists []. split; [symmetry; apply app_nil_r |].
    split; [reflexivity |]. rewrite skipn_nil. constructor.
  - destruct (loop_body p shares i d st) as [s1 |] eqn:Ebody; cbn [bind];
      [| discriminate].
    intros Hrest.
    assert (H1 : cash s1 = cash st /\ positions s1 = positions st
                 /\ trade_log s1 = trade_log st
                 /\ exists v, portfolio_values s1 = portfolio_values st ++ [v]
                              /\ ((lookback_period p <= i)%nat -> v = cash st)).
    { unfold loop_body in Ebody.
      destruct (i <? lookback_period p)%nat eqn:Ei.
      - destruct (warmup_value p d st) as [v |]; cbn [bind] in Ebody;
          [| discriminate].
        apply track_benchmark_Ok in Ebody. destruct Ebody as [b ->].
        cbn [append_portfolio_value cash positions trade_log portfolio_values].
        repeat split. exists v. split; [reflexivity |].
        apply Nat.ltb_lt in Ei. lia.
      - destruct (current_prices_of p d) as [prices |]; cbn [bind] in Ebody;
          [| discriminate].
        rewrite Hday in Ebody. cbn [bind] in Ebody.
        apply track_benchmark_Ok in Ebody. destruct Ebody as [b ->].
        cbn [append_portfolio_value cash positions trade_log portfolio_values].
        repeat split. eexists. split; [reflexivity |].
        intros _. apply active_value_flat, Hflat. }
    destruct H1 as (Hc1 & Hpos1 & Hl1 & v & Hv1 & Hv).
    assert (Hflat1 : Forall (fun pos => snd pos = 0%Z) (positions s1))
      by (rewrite Hpos1; exact Hflat).
    destruct (IH (S i) s1 st' Hflat1 Hrest)
      as (Hc2 & Hpos2 & Hl2 & values & Hv2 & Hlen & Hall).
    split; [congruence |]. split; [congruence |]. split; [congruence |].
    exists (v :: values). split; [| split].
    + rewrite Hv2, Hv1, <- app_assoc. reflexivity.
    + cbn [length]. lia.
    + destruct (le_lt_dec (lookback_period p) i) as [Hi | Hi].
      * replace (lookback_period p - i)%nat with 0%nat by lia.
        replace (lookback_period p - S i)%nat with 0%nat in Hall by lia.
        cbn [skipn] in Hall |- *. constructor; [apply Hv, Hi |].
        rewrite <- Hc1. exact Hall.
      * replace (lookback_period p - i)%nat
          with (S (lookback_period p - S i)) by lia.
        cbn [skipn]. rewrite <- Hc1. exact Hall.
Qed.

Lemma dict_get_In_Some {V : Type} (d : list (string * V)) (k : string) :
  In k (List.map fst d) -> exists v, dict_get d k = Some v.
Proof.
  intros Hin. unfold dict_get.
  destruct (List.find (fun kv => String.eqb (fst kv) k) d) as [kv |] eqn:E;
    [eexists; reflexivity |].
  exfalso. apply List.in_map_iff in Hin. destruct Hin as [kv [<- Hkv]].
  pose proof (List.find_none _ _ E kv Hkv) as Hno. cbn beta in Hno.
  rewrite String.eqb_refl in Hno. discriminate.
Qed.

Lemma warmup_value_Ok (p : prepared) (d : Z) (st : loop_state) :
  (forall pos, In pos (positions st) ->
               In (fst pos) (List.map fst (stock_data p))) ->
  exists v, warmup_value p d st = Ok v.
Proof.
  unfold warmup_value. generalize (cash st).
  induction (positions st) as [| pos l IH]; intros c Hkeys;
    [eexists; reflexivity |].
  cbn [fold_left bind].
  destruct (dict_get_In_Some (stock_data p) (fst pos)) as [df ->];
    [apply Hkeys; left; reflexivity |].
  assert (Hl : forall q, In q l -> In (fst q) (List.map fst (stock_data p)))
    by (intros q Hq; apply Hkeys; right; exact Hq).
  destruct (in_index d df) eqn:Ein; [| apply IH, Hl].
  destruct (loc_close_in_index df d Ein) as [price ->]. cbn [bind].
  apply IH, Hl.
Qed.

Lemma current_prices_of_Ok (p : prepared) (d : Z) :
  exists prices, current_prices_of p d = Ok prices.
Proof.
  unfold current_prices_of. generalize (@nil (string * F)).
  induction (stock_data p) as [| sd l IH]; intros acc; [eexists; reflexivity |].
  cbn [fold_left bind].
  destruct (in_index d (snd sd)) eqn:Ein; [| apply IH].
  destruct (loc_close_in_index (snd sd) d Ein) as [price ->]. cbn [bind].
  apply IH.
Qed.

Lemma track_benchmark_bound (p : prepared) (shares : F) (d : Z)
    (st : loop_state) :
  exists st', track_benchmark p (Some shares) d st = Ok st'.
Proof.
  unfold track_benchmark. cbv zeta.
  destruct (benchmark_data p) as [df |]; [| eexists; reflexivity].
  destruct (in_index d df) eqn:Ein; [| eexists; reflexivity].
  destruct (loc_close_in_index df d Ein) as [price ->]. cbn [bind].
  eexists. reflexivity.
Qed.

Lemma loop_from_unknown_strategy_completes (p : prepared) (shares : F)
    (dates : list Z) :
  (forall i d prices st, strategy_day p i d prices st = Ok st) ->
  forall (i : nat) (st : loop_state),
  (forall pos, In pos (positions st) ->
               In (fst pos) (List.map fst (stock_data p))) ->
  exists st', loop_from p (Some shares) i dates st = Ok st'.
Proof.
  intros Hday. induction dates as [| d dates IH]; intros i st Hkeys;
    cbn [loop_from]; [eexists; reflexivity |].
  assert (Hbody : exists s1, loop_body p (Some shares) i d st = Ok s1
                             /\ positions s1 = positions st).
  { unfold loop_body. destruct (i <? lookback_period p)%nat.
    - destruct (warmup_value_Ok p d st Hkeys) as [v ->]. cbn [bind].
      destruct (track_benchmark_bound p shares d (append_portfolio_value v st))
        as [s1 Hs1].
      exists s1. split; [exact Hs1 |].
      apply track_benchmark_Ok in Hs1. destruct Hs1 as [b ->]. reflexivity.
    - destruct (current_prices_of_Ok p d) as [prices ->]. cbn [bind].
      rewrite Hday. cbn [bind].
      destruct (track_benchmark_bound p shares d
                  (append_portfolio_value (active_value prices st) st))
        as [s1 Hs1].
      exists s1. split; [exact Hs1 |].
      apply track_benchmark_Ok in Hs1. destruct Hs1 as [b ->]. reflexivity. }
  destruct Hbody as (s1 & -> & Hpos). cbn [bind].
  apply IH. rewrite Hpos. exact Hkeys.
Qed.

(** X25.  A strategy name that is none of the eight is not rejected by the
    strategy chain.  When [benchmark_shares] is bound (there is no
    benchmark data, or the benchmark has a positive close on the first
    common date) the loop completes; and whenever the loop completes it has
    made no trade, the cash and the zero positions are as they were, and
    from the end of the warm-up on every portfolio value is the initial
    capital. *)
Theorem unknown_strategy_holds_cash (p : prepared) :
  ~ In (strategy p)
       ["buy-and-hold"; "mean-reversion"; "momentum"; "rsi";
        "bollinger-bands"; "ma-crossover"; "breakout"; "pairs-trading"] ->
  (forall shares, benchmark_shares_of p = Ok (Some shares) ->
                  exists st, strategy_loop p = Ok st)
  /\ (forall st, strategy_loop p = Ok st ->
        trade_log st = []
        /\ cash st = initial_capital p
        /\ positions st = List.map (fun sd => (fst sd, 0%Z)) (stock_data p)
        /\ Forall (fun v => v = initial_capital p)
                  (skipn (lookback_period p) (portfolio_values st))).
Proof.
  intros Hname.
  assert (Hday : forall i d prices s, strategy_day p i d prices s = Ok s).
  { intros i d prices s. unfold strategy_day. cbv zeta.
    repeat match goal with
    | |- (if String.eqb (strategy p) ?name then _ else _) = _ =>
        destruct (String.eqb (strategy p) name) eqn:E;
          [apply String.eqb_eq in E; exfalso; apply Hname; rewrite E;
           cbn [In]; tauto
          | clear E]
    end.
    reflexivity. }
  split.
  - intros shares Hshares. unfold strategy_loop. rewrite Hshares. cbn [bind].
    apply loop_from_unknown_strategy_completes; [exact Hday |].
    intros pos Hin. unfold initial_state in Hin. cbn [positions] in Hin.
    apply List.in_map_iff in Hin. destruct Hin as [sd [<- Hsd]]. cbn [fst].
    apply List.in_map. exact Hsd.
  - intros st. unfold strategy_loop.
    destruct (benchmark_shares_of p) as [shares |]; cbn [bind];
      [| discriminate].
    intros Hrun.
    destruct (loop_from_unknown_strategy p shares (sorted_dates p) Hday 0
                (initial_state p) st) as (Hc & Hpos & Hl & values & Hv & _ & Hall).
    { unfold initial_state. cbn [positions]. apply List.Forall_forall.
      intros pos Hin. apply List.in_map_iff in Hin.
      destruct Hin as [sd [<- _]]. reflexivity. }
    { exact Hrun. }
    cbn [initial_state cash positions trade_log portfolio_values app] in *.
    rewrite Nat.sub_0_r in Hall.
    split; [exact Hl |]. split; [exact Hc |]. split; [exact Hpos |].
    rewrite Hv. exact Hall.
Qed.

Lemma dict_set_In {V : Type} (d : list (string * V)) (k k' : string) (v v' : V) :
  In (k, v) (dict_set d k' v') -> (k = k' /\ v = v') \/ In (k, v) d.
Proof.
  induction d as [| [k0 v0] d IH]; cbn [dict_set In].
  - intros [E | []]. injection E as <- <-. left. split; reflexivity.
  - destruct (String.eqb k0 k') eqn:Ek; cbn [In].
    + intros [E | Hin]; [| right; right; exact Hin].
      injection E as <- <-. apply String.eqb_eq in Ek. left. split; congruence.
    + intros [E | Hin]; [right; left; exact E |].
      destruct (IH Hin); [left | right; right]; assumption.
Qed.

Lemma collect_stock_data_In (fetch : string -> option (list bar))
    (symbols : list string) (sym : string) (df : list bar) :
  In (sym, df) (collect_stock_data fetch symbols) ->
  In sym symbols /\ df <> [] /\ fetch sym = Some df.
Proof.
  unfold collect_stock_data.
  assert (Hgen : forall acc,
            In (sym, df)
               (fold_left
                  (fun stock_data sym =>
                     match fetch sym with
                     | Some (b :: rows) => dict_set stock_data sym (b :: rows)
                     | _ => stock_data
                     end)
                  symbols acc) ->
            In (sym, df) acc
            \/ (In sym symbols /\ df <> [] /\ fetch sym = Some df)).
  { induction symbols as [| s0 symbols IH]; intros acc; cbn [fold_left In];
      [tauto |].
    intros Hin. destruct (IH _ Hin) as [H1 | (H1 & H2 & H3)]; [| tauto].
    destruct (fetch s0) as [[| b rows] |] eqn:Ef; try tauto.
    destruct (dict_set_In _ _ _ _ _ H1) as [[-> ->] | H2]; [| tauto].
    right. split; [left; reflexivity |]. split; [discriminate | exact Ef]. }
  intros Hin. destruct (Hgen [] Hin) as [[] | Hok]. exact Hok.
Qed.

Lemma common_dates_elem (frames : list (list bar)) :
  forall (acc : option (gset Z)) (s : gset Z),
  fold_left
    (fun common_dates df =>
       let dates : gset Z := list_to_set (List.map bar_date df) in
       match common_dates with
       | None => Some dates
       | Some s => Some (s ∩ dates)
       end)
    frames acc = Some s ->
  forall d, d ∈ s ->
  (forall df, In df frames -> In d (List.map bar_date df))
  /\ (forall s0, acc = Some s0 -> d ∈ s0).
Proof.
  induction frames as [| df0 frames IH]; intros acc s; cbn [fold_left].
  - intros -> d Hd. split; [intros df [] |].
    intros s0 E. injection E as <-. exact Hd.
  - intros Hfold d Hd. destruct (IH _ _ Hfold d Hd) as [Hrest Hacc].
    cbv zeta in Hacc. destruct acc as [s0 |].
    + specialize (Hacc _ eq_refl). apply elem_of_intersection in Hacc.
      destruct Hacc as [H0 Hdates]. split.
      * intros df [<- | Hin]; [| apply Hrest, Hin].
        apply list_elem_of_In. apply elem_of_list_to_set in Hdates.
        exact Hdates.
      * intros s1 E. injection E as <-. exact H0.
    + specialize (Hacc _ eq_refl). split; [| discriminate].
      intros df [<- | Hin]; [| apply Hrest, Hin].
      apply list_elem_of_In. apply elem_of_list_to_set in Hacc. exact Hacc.
Qed.

Lemma in_index_In (d : Z) (df : list bar) :
  In d (List.map bar_date df) -> in_index d df = true.
Proof.
  intros Hin. apply List.in_map_iff in Hin. destruct Hin as [b [Hb Hin]].
  unfold in_index. apply existsb_exists. exists b.
  split; [exact Hin | apply Z.eqb_eq; exact Hb].
Qed.

Lemma StronglySorted_strict (l : list Z) :
  StronglySorted Z.le l -> NoDup l -> StronglySorted Z.lt l.
Proof.
  induction l as [| x l IH]; intros Hs Hn; [constructor |].
  apply StronglySorted_inv in Hs. destruct Hs as [Hs Hall].
  apply NoDup_cons in Hn. destruct Hn as [Hx Hn].
  constructor; [apply IH; assumption |].
  apply List.Forall_forall. intros y Hy.
  rewrite List.Forall_forall in Hall. specialize (Hall y Hy).
  assert (x <> y).
  { intros ->. apply Hx. apply list_elem_of_In. exact Hy. }
  lia.
Qed.

(** X26.  What validation guarantees to the loop.  When [backtest_prepare]
    accepts a request, the symbols are those of the request and there is a
    weight for each; every DataFrame kept is the non-empty answer of the
    provider for a requested symbol; there are at least 50 common dates, in
    strictly ascending order, and each of them is in the index of every
    DataFrame kept. *)
Theorem prepare_postconditions (w : world)
    (provider : string -> string -> string -> option (list bar))
    (request : request) (p : prepared) :
  backtest_prepare w provider request = Ok p ->
  symbols p = request_symbols request
  /\ symbols p <> []
  /\ length (weights p) = length (symbols p)
  /\ stock_data p <> []
  /\ (forall sym df, In (sym, df) (stock_data p) ->
        In sym (symbols p) /\ df <> []
        /\ provider (start_date p) (end_date p) sym = Some df)
  /\ (50 <= length (sorted_dates p))%nat
  /\ StronglySorted Z.lt (sorted_dates p)
  /\ (forall d sym df, In d (sorted_dates p) -> In (sym, df) (stock_data p) ->
        in_index d df = true).
Proof.
  unfold backtest_prepare. cbv zeta.
  destruct (request_symbols request) as [| sym0 syms] eqn:Esym; [discriminate |].
  destruct (negb (_ =? _)%nat) eqn:Elen; [discriminate |].
  destruct (collect_stock_data _ _) as [| sd0 sds] eqn:Edata; [discriminate |].
  destruct (common_dates_of _) as [common |] eqn:Ecommon; [| discriminate].
  destruct ((size common =? 0)%nat || (size common <? 50)%nat) eqn:Esize;
    [discriminate |].
  intros E. injection E as <-.
  cbn [symbols weights stock_data sorted_dates start_date end_date].
  apply negb_false_iff, Nat.eqb_eq in Elen.
  apply orb_false_elim in Esize. destruct Esize as [_ Esize].
  apply Nat.ltb_ge in Esize.
  pose proof (merge_sort_Permutation Z.le (elements common)) as Hperm.
  split; [reflexivity |]. split; [discriminate |].
  split; [symmetry; exact Elen |]. split; [discriminate |].
  split; [| split; [| split]].
  - intros sym df Hin. rewrite <- Edata in Hin.
    apply collect_stock_data_In in Hin. exact Hin.
  - rewrite (Permutation_length Hperm). exact Esize.
  - apply StronglySorted_strict.
    + apply StronglySorted_merge_sort; apply _.
    + rewrite Hperm. apply NoDup_elements.
  - intros d sym df Hd Hin. apply in_index_In.
    apply list_elem_of_In in Hd. rewrite Hperm in Hd.
    apply elem_of_elements in Hd.
    unfold common_dates_of in Ecommon.
    destruct (common_dates_elem _ _ _ Ecommon d Hd) as [Hall _].
    apply Hall. apply (List.in_map snd) in Hin. exact Hin.
Qed.

End BacktestMore.

Section BacktestMoreExamples.
Import Indicators FlOps Backtest BacktestExample.

Lemma backtest_trade_log_sound_witness :
  let p := prepared_on provider "breakout" in
  let st := final_state_of p in
  List.map fst (positions st) = List.map fst (stock_data p)
  /\ Forall (fun pos => (0 <= snd pos)%Z) (positions st)
  /\ Forall (fun t => (0 < trade_shares t)%Z
                      /\ In (trade_symbol t) (List.map fst (stock_data p))
                      /\ In (trade_date t)
                            (skipn (lookback_period p) (sorted_dates p)))
            (trade_log st).
Proof.
  intros p st. apply (backtest_trade_log_sound p st).
  vm_compute. reflexivity.
Defined.

Lemma backtest_chart_covers_every_date_witness :
  let p := prepared_on provider "mean-reversion" in
  exists st resp,
    run_prepared year_of morning p = Ok (st, resp)
    /\ length (portfolio_values st) = length (sorted_dates p)
    /\ length (benchmark_value_series st) = length (sorted_dates p)
    /\ List.map (fun row => fst (fst row)) (chart resp) = sorted_dates p
    /\ List.map (fun row => snd (fst row)) (chart resp) = portfolio_values st
    /\ List.map snd (chart resp) = benchmark_value_series st.
Proof.
  intros p. eexists. eexists. split.
  - vm_compute. reflexivity.
  - apply (backtest_chart_covers_every_date year_of morning p).
    vm_compute. reflexivity.
Defined.

Lemma unbound_benchmark_shares_fails_witness :
  let p := prepared_on zero_start_provider "buy-and-hold" in
  (exists e, strategy_loop p = Raise e)
  /\ exists status_code detail,
       http_guard (run_prepared year_of morning p)
       = Raise (HTTPException status_code detail).
Proof.
  intros p.
  apply (unbound_benchmark_shares_fails year_of morning p
           (frame (fun i => inject_Z (Z.of_nat i)) 60) 0%Z).
  - vm_compute. reflexivity.
  - vm_compute. reflexivity.
  - vm_compute. left. reflexivity.
  - vm_compute. reflexivity.
Defined.

Lemma unknown_strategy_holds_cash_witness :
  let p := prepared_on provider "hodl" in
  (forall shares, benchmark_shares_of p = Ok (Some shares) ->
                  exists st, strategy_loop p = Ok st)
  /\ (forall st, strategy_loop p = Ok st ->
        trade_log st = []
        /\ cash st = initial_capital p
        /\ positions st = List.map (fun sd => (fst sd, 0%Z)) (stock_data p)
        /\ Forall (fun v => v = initial_capital p)
                  (skipn (lookback_period p) (portfolio_values st))).
Proof.
  intros p. apply (unknown_strategy_holds_cash p).
  vm_compute. intros Hin.
  repeat (destruct Hin as [Hin | Hin]; [discriminate Hin |]).
  exact Hin.
Defined.

(** On the example market the benchmark opens at a positive close, and the
    run with the unknown name does complete. *)
Example unknown_strategy_run_completes :
  let p := prepared_on provider "hodl" in
  (exists shares, benchmark_shares_of p = Ok (Some shares))
  /\ strategy_loop p = Ok (final_state_of p).
Proof.
  intros p. split; [eexists |]; vm_compute; reflexivity.
Qed.

Lemma prepare_postconditions_witness :
  let p := prepared_on provider "momentum" in
  symbols p = request_symbols (request_for "momentum")
  /\ symbols p <> []
  /\ length (weights p) = length (symbols p)
  /\ stock_data p <> []
  /\ (forall sym df, In (sym, df) (stock_data p) ->
        In sym (symbols p) /\ df <> []
        /\ provider (start_date p) (end_date p) sym = Some df)
  /\ (50 <= length (sorted_dates p))%nat
  /\ StronglySorted Z.lt (sorted_dates p)
  /\ (forall d sym df, In d (sorted_dates p) -> In (sym, df) (stock_data p) ->
        in_index d df = true).
Proof.
  intros p.
  apply (prepare_postconditions morning provider (request_for "momentum") p).
  vm_compute. reflexivity.
Defined.

End BacktestMoreExamples.

(** ** MACD *)

Section MacdFacts.
Import Indicators FlOps Macd.

Lemma ewm_from_length (a prev : Q) (xs : list Q) :
  length (ewm_from a prev xs) = length xs.
Proof.
  revert prev. induction xs as [| x xs IH]; intros prev; [reflexivity |].
  cbn [ewm_from length]. f_equal. apply IH.
Qed.

Lemma ewm_mean_Ok (span : nat) (xs : list Q) :
  (1 <= span)%nat ->
  exists ys, ewm_mean span xs = Ok ys /\ length ys = length xs
             /\ (forall x rest, xs = x :: rest -> exists ys', ys = x :: ys').
Proof.
  intros Hs. unfold ewm_mean.
  assert (E : (span <? 1)%nat = false) by (apply Nat.ltb_ge; exact Hs).
  rewrite E. eexists. split; [reflexivity |]. split.
  - destruct xs as [| x xs]; [reflexivity |].
    cbn [length]. f_equal. apply ewm_from_length.
  - intros x rest ->. eexists. reflexivity.
Qed.

Lemma fl_sub_Fin (a b : Q) :
  exists q, fl_sub (Fin a) (Fin b) = Fin q /\ (q == a - b)%Q.
Proof.
  unfold fl_sub. cbn [fl_neg].
  destruct (Qeq_bool b 0) eqn:E; cbn [fl_add]; eexists;
    (split; [reflexivity |]).
  - apply Qeq_bool_eq in E. rewrite E. ring.
  - reflexivity.
Qed.

Lemma emit_all_finite (times : list Z) (values : list fl) :
  Forall (fun v => exists q, v = Fin q) values ->
  emit times values = combine times values.
Proof.
  intros Hv. unfold emit. apply forallb_filter_id. apply forallb_forall.
  intros [t v] Hin. apply in_combine_r in Hin.
  rewrite List.Forall_forall in Hv. destruct (Hv v Hin) as [q ->]. reflexivity.
Qed.

(** X27.  The three series of the MACD.  With the three spans at least one,
    [calculate_macd] returns, and each of its series has one point for every
    bar of the input, at the bar's time: there is no warm-up.  The first
    MACD value is zero, and a histogram bar is green exactly when its value
    is not negative. *)
Theorem macd_one_point_per_bar (data : list (Z * Q)) (fast slow sig : nat) :
  (1 <= fast)%nat -> (1 <= slow)%nat -> (1 <= sig)%nat ->
  exists r,
    calculate_macd data fast slow sig = Ok r
    /\ List.map fst (macd r) = List.map fst data
    /\ List.map fst (signal r) = List.map fst data
    /\ List.map (fun bar => fst (fst bar)) (histogram r) = List.map fst data
    /\ (forall point rest, macd r = point :: rest ->
          exists z, snd point = Fin z /\ (z == 0)%Q)
    /\ Forall (fun bar => exists h,
                 snd (fst bar) = Fin h
                 /\ (snd bar = "#26a69a" <-> (0 <= h)%Q)
                 /\ (snd bar = "#ef5350" <-> (h < 0)%Q))
              (histogram r).
Proof.
  intros Hf Hs Hg. unfold calculate_macd. cbv zeta.
  destruct (ewm_mean_Ok fast (List.map snd data) Hf) as (exp1 & -> & Hl1 & Hh1).
  destruct (ewm_mean_Ok slow (List.map snd data) Hs) as (exp2 & -> & Hl2 & Hh2).
  cbn [bind].
  set (macd_line := List.map (fun ab => fl_sub (Fin (fst ab)) (Fin (snd ab)))
                             (combine exp1 exp2)).
  destruct (ewm_mean_Ok sig (List.map fl_value macd_line) Hg)
    as (sigv & -> & Hl3 & _).
  cbn [bind].
  rewrite length_map in Hl1, Hl2.
  assert (Hml : length macd_line = length data).
  { subst macd_line. rewrite length_map, length_combine. lia. }
  rewrite length_map in Hl3.
  assert (Hmf : Forall (fun v => exists q, v = Fin q) macd_line).
  { subst macd_line. apply List.Forall_forall. intros v Hin.
    apply List.in_map_iff in Hin. destruct Hin as [[a b] [<- _]].
    destruct (fl_sub_Fin a b) as [q [Hq _]]. exists q. exact Hq. }
  assert (Hsf : Forall (fun v => exists q, v = Fin q) (List.map Fin sigv)).
  { apply List.Forall_forall. intros v Hin.
    apply List.in_map_iff in Hin. destruct Hin as [q [<- _]]. exists q.
    reflexivity. }
  set (hist := List.map (fun ms => fl_sub (fst ms) (snd ms))
                        (combine macd_line (List.map Fin sigv))).
  assert (Hhf : Forall (fun v => exists q, v = Fin q) hist).
  { subst hist. apply List.Forall_forall. intros v Hin.
    apply List.in_map_iff in Hin. destruct Hin as [[m g] [<- Hmg]].
    pose proof (in_combine_l _ _ _ _ Hmg) as Hm.
    pose proof (in_combine_r _ _ _ _ Hmg) as Hgin.
    rewrite List.Forall_forall in Hmf, Hsf.
    destruct (Hmf m Hm) as [a ->]. destruct (Hsf g Hgin) as [b ->].
    destruct (fl_sub_Fin a b) as [q [Hq _]]. exists q. exact Hq. }
  assert (Hhl : length hist = length data).
  { subst hist. rewrite length_map, length_combine, length_map. lia. }
  eexists. split; [reflexivity |]. cbn [macd signal histogram].
  rewrite !emit_all_finite by assumption.
  split; [apply map_fst_combine_eq; rewrite length_map; lia |].
  split; [apply map_fst_combine_eq; rewrite !length_map; lia |].
  split; [| split].
  - rewrite List.map_map. cbn [fst].
    apply map_fst_combine_eq. rewrite length_map. lia.
  - intros point rest Hpt.
    destruct data as [| [t0 c0] data']; [discriminate |].
    cbn [List.map snd] in Hh1, Hh2.
    destruct (Hh1 _ _ eq_refl) as [e1 ->]. destruct (Hh2 _ _ eq_refl) as [e2 ->].
    subst macd_line. cbn [combine List.map fst snd] in Hpt.
    injection Hpt as <- _. cbn [snd].
    destruct (Qeq_bool c0 0) eqn:E.
    + exists c0. split; [reflexivity | apply Qeq_bool_eq; exact E].
    + exists (c0 + - c0)%Q. split; [reflexivity | ring].
  - apply List.Forall_forall. intros bar Hbar.
    apply List.in_map_iff in Hbar. destruct Hbar as [[t v] [<- Hin]].
    apply in_combine_r in Hin. rewrite List.Forall_forall in Hhf.
    destruct (Hhf v Hin) as [h ->]. cbn [fst snd]. exists h.
    split; [reflexivity |].
    unfold fl_le, fl_lt, fl_eq. cbn [fl_value].
    destruct (Qlt_le_dec h 0) as [Hneg | Hpos].
    + assert (E1 : Qlt_bool 0 h = false)
        by (apply Qlt_bool_false, Qlt_le_weak; exact Hneg).
      assert (E2 : Qeq_bool 0 h = false).
      { apply not_true_is_false. intros E. apply Qeq_bool_eq in E.
        rewrite <- E in Hneg. exact (Qlt_irrefl _ Hneg). }
      rewrite E1, E2. cbn [orb].
      split; split; intros Hx; try discriminate; try reflexivity;
        try exact Hneg.
      exfalso. exact (Qlt_not_le _ _ Hneg Hx).
    + assert (E : Qlt_bool 0 h || Qeq_bool 0 h = true).
      { destruct (Qlt_le_dec 0 h) as [Hlt | Hle].
        - rewrite (Qlt_bool_true _ _ Hlt). reflexivity.
        - assert (Ez : Qeq_bool 0 h = true).
          { apply Qeq_bool_iff, Qle_antisym; assumption. }
          rewrite Ez. apply orb_true_r. }
      rewrite E.
      split; split; intros Hx; try discriminate; try reflexivity;
        try exact Hpos.
      exfalso. exact (Qlt_not_le _ _ Hx Hpos).
Qed.

Lemma macd_one_point_per_bar_witness :
  let data : list (Z * Q) := [(1%Z, 10%Q); (2%Z, 12%Q); (3%Z, 9%Q)] in
  exists r,
    calculate_macd data 2 3 2 = Ok r
    /\ List.map fst (macd r) = List.map fst data
    /\ List.map fst (signal r) = List.map fst data
    /\ List.map (fun bar => fst (fst bar)) (histogram r) = List.map fst data
    /\ (forall point rest, macd r = point :: rest ->
          exists z, snd point = Fin z /\ (z == 0)%Q)
    /\ Forall (fun bar => exists h,
                 snd (fst bar) = Fin h
                 /\ (snd bar = "#26a69a" <-> (0 <= h)%Q)
                 /\ (snd bar = "#ef5350" <-> (h < 0)%Q))
              (histogram r).
Proof.
  intros data. apply (macd_one_point_per_bar data 2 3 2); lia.
Defined.

Lemma ewm_from_const (a prev c : Q) (xs : list Q) :
  (prev == c)%Q -> Forall (fun x => (x == c)%Q) xs ->
  Forall (fun y => (y == c)%Q) (ewm_from a prev xs).
Proof.
  intros Hp Hx. revert prev Hp.
  induction Hx as [| x xs Hxc _ IH]; intros prev Hp; cbn [ewm_from];
    constructor.
  - rewrite Hp, Hxc. ring.
  - apply IH. rewrite Hp, Hxc. ring.
Qed.

Lemma ewm_mean_const (span : nat) (c : Q) (xs ys : list Q) :
  ewm_mean span xs = Ok ys -> Forall (fun x => (x == c)%Q) xs ->
  Forall (fun y => (y == c)%Q) ys.
Proof.
  unfold ewm_mean. destruct (span <? 1)%nat; [discriminate |].
  intros E Hx. injection E as <-.
  destruct Hx as [| x xs Hxc Hrest]; constructor; [exact Hxc |].
  apply ewm_from_const; assumption.
Qed.

Lemma emit_In_value (times : list Z) (values : list fl) (pt : Z * fl) :
  In pt (emit times values) -> In (snd pt) values.
Proof.
  unfold emit. intros Hin. apply List.filter_In in Hin.
  destruct Hin as [Hin _]. destruct pt as [t v].
  exact (in_combine_r _ _ _ _ Hin).
Qed.

(** X28.  On a series whose closes are all equal, the MACD, its signal and its
    histogram are zero at every bar, and every histogram bar is green. *)
Theorem macd_of_flat_series_is_zero (data : list (Z * Q)) (fast slow sig : nat)
    (c : Q) (r : macd_result) :
  Forall (fun row => (snd row == c)%Q) data ->
  calculate_macd data fast slow sig = Ok r ->
  Forall (fun point => exists z, snd point = Fin z /\ (z == 0)%Q) (macd r)
  /\ Forall (fun point => exists z, snd point = Fin z /\ (z == 0)%Q) (signal r)
  /\ Forall (fun bar => exists z, snd (fst bar) = Fin z /\ (z == 0)%Q
                                  /\ snd bar = "#26a69a")
            (histogram r).
Proof.
  intros Hflat. unfold calculate_macd. cbv zeta.
  assert (Hc : Forall (fun x => (x == c)%Q) (List.map snd data)).
  { apply List.Forall_forall. intros x Hin. apply List.in_map_iff in Hin.
    destruct Hin as [row [<- Hrow]]. rewrite List.Forall_forall in Hflat.
    apply Hflat, Hrow. }
  destruct (ewm_mean fast _) as [exp1 |] eqn:E1; cbn [bind]; [| discriminate].
  destruct (ewm_mean slow _) as [exp2 |] eqn:E2; cbn [bind]; [| discriminate].
  pose proof (ewm_mean_const _ c _ _ E1 Hc) as H1.
  pose proof (ewm_mean_const _ c _ _ E2 Hc) as H2.
  set (macd_line := List.map (fun ab => fl_sub (Fin (fst ab)) (Fin (snd ab)))
                             (combine exp1 exp2)).
  assert (Hm : Forall (fun v => exists z, v = Fin z /\ (z == 0)%Q) macd_line).
  { subst macd_line. apply List.Forall_forall. intros v Hin.
    apply List.in_map_iff in Hin. destruct Hin as [[a b] [<- Hab]].
    rewrite List.Forall_forall in H1, H2.
    pose proof (H1 a (in_combine_l _ _ _ _ Hab)) as Ha.
    pose proof (H2 b (in_combine_r _ _ _ _ Hab)) as Hb.
    cbn [fst snd]. destruct (fl_sub_Fin a b) as [q [-> Hq]]. exists q.
    split; [reflexivity |]. rewrite Hq, Ha, Hb. ring. }
  destruct (ewm_mean sig _) as [sigv |] eqn:E3; cbn [bind]; [| discriminate].
  assert (Hs : Forall (fun x => (x == 0)%Q) sigv).
  { apply (ewm_mean_const _ 0 _ _ E3). apply List.Forall_forall.
    intros x Hin. apply List.in_map_iff in Hin. destruct Hin as [v [<- Hv]].
    rewrite List.Forall_forall in Hm. destruct (Hm v Hv) as [z [-> Hz]].
    exact Hz. }
  intros E. injection E as <-. cbn [macd signal histogram].
  split; [| split].
  - apply List.Forall_forall. intros pt Hin. apply emit_In_value in Hin.
    rewrite List.Forall_forall in Hm. exact (Hm _ Hin).
  - apply List.Forall_forall. intros pt Hin. apply emit_In_value in Hin.
    apply List.in_map_iff in Hin. destruct Hin as [q [<- Hq]].
    rewrite List.Forall_forall in Hs. exists q. split; [reflexivity |].
    apply Hs, Hq.
  - apply List.Forall_forall. intros bar Hin.
    apply List.in_map_iff in Hin. destruct Hin as [pt [<- Hpt]].
    apply emit_In_value in Hpt. apply List.in_map_iff in Hpt.
    destruct Hpt as [[m g] [Hv Hmg]]. cbn [fst snd] in Hv |- *.
    rewrite List.Forall_forall in Hm, Hs.
    destruct (Hm m (in_combine_l _ _ _ _ Hmg)) as [a [-> Ha]].
    pose proof (in_combine_r _ _ _ _ Hmg) as Hg.
    apply List.in_map_iff in Hg. destruct Hg as [b [<- Hb]].
    specialize (Hs b Hb).
    destruct (fl_sub_Fin a b) as [q [Eq Hq]]. rewrite Eq in Hv.
    rewrite <- Hv. exists q.
    assert (Hq0 : (q == 0)%Q) by (rewrite Hq, Ha, Hs; ring).
    split; [reflexivity |]. split; [exact Hq0 |].
    unfold fl_le, fl_lt, fl_eq. cbn [fl_value].
    assert (Ez : Qeq_bool 0 q = true).
    { apply Qeq_bool_iff. symmetry. exact Hq0. }
    rewrite Ez, orb_true_r. reflexivity.
Qed.

Lemma macd_of_flat_series_is_zero_witness :
  let data : list (Z * Q) := [(1%Z, 7%Q); (2%Z, 7%Q); (3%Z, 7%Q)] in
  exists r,
    calculate_macd data 2 3 2 = Ok r
    /\ Forall (fun point => exists z, snd point = Fin z /\ (z == 0)%Q) (macd r)
    /\ Forall (fun point => exists z, snd point = Fin z /\ (z == 0)%Q) (signal r)
    /\ Forall (fun bar => exists z, snd (fst bar) = Fin z /\ (z == 0)%Q
                                    /\ snd bar = "#26a69a")
              (histogram r).
Proof.
  intros data. eexists. split.
  - vm_compute. reflexivity.
  - apply (macd_of_flat_series_is_zero data 2 3 2 7).
    + repeat constructor.
    + vm_compute. reflexivity.
Defined.

End MacdFacts.
